(** * tcam-capture: the live view widget ([tcam_capture/TcamView.py])

    A shallow embedding of the three classes of [TcamView.py]
    ([ViewItem], [TcamScreen], [TcamView]) together with the properties
    stated about them.

    - Python values, strings and exceptions used by the code: [Py].
    - IEEE-754 binary64 arithmetic (Python [float]): [Float64].
    - Qt and GStreamer objects the code talks to: [Qt], [Gst].
    - The classes themselves: [ViewItem], [TcamScreen], [TcamView], and
      the menu construction of [TcamView.create_format_menu] in
      [FormatMenu].
    - Concrete inputs used in examples: [Samples].

    The model comes first, its properties follow. *)

From Stdlib Require Import ZArith Bool List String Ascii Lia.
From Stdlib Require Import DecimalString.
From Stdlib Require Import Floats.SpecFloat.
Import ListNotations.

Open Scope string_scope.
Open Scope Z_scope.

(* ================================================================== *)
(** * Python runtime: exceptions, strings, values                      *)
(* ================================================================== *)

Module Py.

(** The exceptions that the modelled code can raise. *)
Inductive exn := TypeError | ValueError | AttributeError.

(** Result of a Python expression: a value or a raised exception. *)
Inductive Res (A : Type) :=
| Ok (a : A)
| Raise (e : exn).
Arguments Ok {A} a.
Arguments Raise {A} e.

Definition bind {A B} (r : Res A) (k : A -> Res B) : Res B :=
  match r with
  | Ok a => k a
  | Raise e => Raise e
  end.

(** ** Strings *)

(** [hay.startswith(needle)] *)
Fixpoint startswith (needle hay : string) : bool :=
  match needle with
  | EmptyString => true
  | String a needle' =>
      match hay with
      | EmptyString => false
      | String b hay' => Ascii.eqb a b && startswith needle' hay'
      end
  end.

(** [needle in hay] for two [str]. *)
Fixpoint contains (needle hay : string) : bool :=
  if startswith needle hay then true
  else match hay with
       | EmptyString => false
       | String _ hay' => contains needle hay'
       end.

(** [hay.find(needle)], counting from position [i]. *)
Fixpoint find_from (needle hay : string) (i : Z) : Z :=
  if startswith needle hay then i
  else match hay with
       | EmptyString => -1
       | String _ hay' => find_from needle hay' (i + 1)
       end.

Definition find (hay needle : string) : Z := find_from needle hay 0.

Fixpoint drop (n : nat) (s : string) : string :=
  match n, s with
  | O, _ => s
  | S _, EmptyString => EmptyString
  | S n', String _ s' => drop n' s'
  end.

(** [s[k:]]; a negative [k] counts from the end of the string. *)
Definition slice_from (s : string) (k : Z) : string :=
  let len := Z.of_nat (String.length s) in
  let start := if k <? 0 then Z.max (len + k) 0 else k in
  drop (Z.to_nat start) s.

(** Splitting at separator characters, at most [maxsplit] times; what
    is left after the last split is returned as one piece. *)
Fixpoint split_at (is_sep : ascii -> bool) (maxsplit : nat) (s : string)
  : list string :=
  match s with
  | EmptyString => [EmptyString]
  | String c s' =>
      match maxsplit with
      | O => [s]
      | S k =>
          if is_sep c then EmptyString :: split_at is_sep k s'
          else match split_at is_sep maxsplit s' with
               | p :: ps => String c p :: ps
               | [] => [String c EmptyString]
               end
      end
  end.

Definition is_brace (c : ascii) : bool :=
  (Ascii.eqb c "{" || Ascii.eqb c "}")%char.

(** [re.split("{|}", s, maxsplit=n)] for [n >= 1]. *)
Definition re_split_braces (s : string) (maxsplit : nat) : list string :=
  split_at is_brace maxsplit s.

(** [s.split(",")]: no limit on the number of splits. *)
Definition split_comma (s : string) : list string :=
  split_at (Ascii.eqb ",") (String.length s) s.

(** [c.isspace()] for an ASCII character: tab to carriage return, the
    four separators 0x1c-0x1f, and the blank. *)
Definition is_space (c : ascii) : bool :=
  let n := nat_of_ascii c in
  (Nat.eqb n 32 || (Nat.leb 9 n && Nat.leb n 13)
   || (Nat.leb 28 n && Nat.leb n 31))%bool.

Fixpoint lstrip (s : string) : string :=
  match s with
  | EmptyString => EmptyString
  | String c s' => if is_space c then lstrip s' else s
  end.

Fixpoint rev_onto (s acc : string) : string :=
  match s with
  | EmptyString => acc
  | String c s' => rev_onto s' (String c acc)
  end.

Definition rev (s : string) : string := rev_onto s EmptyString.

(** [s.strip()] *)
Definition strip (s : string) : string := rev (lstrip (rev (lstrip s))).

(** [str(n)] for an [int]. *)
Definition str_int (z : Z) : string := NilZero.string_of_int (Z.to_int z).

(** ** Values

    The Python objects that [Gst.Structure.get_value] hands to the
    code, with [str()] as Python and the GStreamer bindings render
    them. *)
Inductive pyval :=
| PyNone
| PyInt (z : Z)
| PyStr (s : string)
| IntRange (start stop step : Z)          (* Gst.IntRange *)
| Fraction (num denom : Z)                (* Gst.Fraction *)
| FractionRange (n1 d1 n2 d2 : Z).        (* Gst.FractionRange *)

Definition str (v : pyval) : string :=
  match v with
  | PyNone => "None"
  | PyInt z => str_int z
  | PyStr s => s
  | IntRange a b st =>
      if st =? 1 then "[" ++ str_int a ++ "," ++ str_int b ++ "]"
      else "[" ++ str_int a ++ "," ++ str_int b ++ "," ++ str_int st ++ "]"
  | Fraction n d => str_int n ++ "/" ++ str_int d
  | FractionRange n1 d1 n2 d2 =>
      "[" ++ str_int n1 ++ "/" ++ str_int d1 ++ ","
          ++ str_int n2 ++ "/" ++ str_int d2 ++ "]"
  end.

(** [needle in v]: only defined when [v] is a [str]; [None], numbers
    and the GStreamer value objects are not containers of strings. *)
Definition str_in (needle : string) (v : pyval) : Res bool :=
  match v with
  | PyStr s => Ok (contains needle s)
  | _ => Raise TypeError
  end.

(** Every character of [s] satisfies [P]. *)
Fixpoint all_chars (P : ascii -> bool) (s : string) : bool :=
  match s with
  | EmptyString => true
  | String c s' => P c && all_chars P s'
  end.



(** [v == s] for a string literal [s]. *)
Definition eq_str (v : pyval) (s : string) : bool :=
  match v with
  | PyStr s' => String.eqb s' s
  | _ => false
  end.

(** Objects compared in [eventFilter]: a bound method of an object and
    a member of a Qt enumeration.  [==] between objects of these two
    kinds falls back to identity and is [False]. *)
Inductive pyobj :=
| BoundMethod (name : string)
| EnumMember (value : Z).

Definition obj_eq (a b : pyobj) : bool :=
  match a, b with
  | BoundMethod m, BoundMethod n => String.eqb m n
  | EnumMember x, EnumMember y => x =? y
  | _, _ => false
  end.

End Py.

Notation "x <- c1 ;; c2" := (Py.bind c1 (fun x => c2))
(at level 61, c1 at next level, right associativity).

(* ================================================================== *)
(** * Python floats: IEEE-754 binary64                                 *)
(* ================================================================== *)

Module Float64.

Definition prec : Z := 53.
Definition emax : Z := 1024.

Definition float := spec_float.

Definition mul : float -> float -> float := SFmul prec emax.
Definition div : float -> float -> float := SFdiv prec emax.
Definition leb : float -> float -> bool := SFleb.
Definition ltb : float -> float -> bool := SFltb.

(** The literals of [wheelEvent], rounded to the nearest binary64 as
    Python's parser does: [1.0] and [1.25] are exact, [0.64] is
    [0x1.47ae147ae147bp-1]. *)
Definition lit_1_0 : float := S754_finite false 4503599627370496 (-52).
Definition lit_1_25 : float := S754_finite false 5629499534213120 (-52).
Definition lit_0_64 : float := S754_finite false 5764607523034235 (-53).

End Float64.

(* ================================================================== *)
(** * Qt objects used by the view                                      *)
(* ================================================================== *)

Module Qt.

(** [QColor]: an RGBA value, or the invalid colour [QColor()]. *)
Inductive QColor :=
| RGBA (r g b a : Z)
| InvalidColor.

(** [QtGui.QColor(0, 0, 0)]: alpha defaults to 255, opaque black. *)
Definition QColor_rgb (r g b : Z) : QColor := RGBA r g b 255.

(** A bitmap: its dimensions and its pixels. *)
Record QPixmap := {
  width : Z;
  height : Z;
  pixel : Z -> Z -> QColor
}.

(** The null pixmap a fresh [QGraphicsPixmapItem] holds. *)
Definition null_pixmap : QPixmap :=
  {| width := 0; height := 0; pixel := fun _ _ => InvalidColor |}.

(** [QImage::valid(x, y)]: pixel coordinates run from [0] to
    [width - 1] and from [0] to [height - 1]. *)
Definition valid (p : QPixmap) (x y : Z) : bool :=
  (0 <=? x) && (x <? width p) && (0 <=? y) && (y <? height p).

(** [QImage::pixelColor(x, y)]: the colour of a valid coordinate; for
    any other coordinate Qt prints a warning and returns the invalid
    colour. *)
Definition pixelColor (p : QPixmap) (x y : Z) : QColor :=
  if valid p x y then pixel p x y else InvalidColor.

(** Events as [eventFilter] sees them: the value [event.type()] would
    return, and the key of a key event. *)
Record QEvent := {
  type_value : Z;
  key : Z
}.

Definition QEvent_KeyPress : Py.pyobj := Py.EnumMember 6.
Definition Key_F11 : Z := 16777274.       (* 0x0100003a *)

(** The attribute [event.type], read without calling it: the bound
    method itself. *)
Definition attr_type (_ : QEvent) : Py.pyobj := Py.BoundMethod "type".

(** [QObject.eventFilter]: the base implementation filters nothing. *)
Definition QObject_eventFilter (_ : QEvent) : bool := false.

(** A wheel event: the vertical angle delta, and the scene-coordinate
    displacement of the pointer that Qt's [mapToScene] reports once the
    view has been rescaled. *)
Record QWheelEvent := {
  angleDelta_y : Z;
  scene_delta : Float64.float * Float64.float
}.

(** Menus: [QAction] leaves, resolution menus holding actions, format
    menus holding resolution menus, and the top-level menu. *)
Record QAction := {
  text : string;
  toolTip : string;
  triggered : string     (* the argument bound to [self.play] *)
}.

Record ResMenu := {
  res_title : string;
  actions : list QAction
}.

Record FmtMenu := {
  fmt_title : string;
  submenus : list ResMenu
}.

Record QMenu := {
  title : string;
  menus : list FmtMenu
}.

End Qt.

(* ================================================================== *)
(** * class ViewItem(QGraphicsPixmapItem)                               *)
(* ================================================================== *)

Module ViewItem.

(** The recorded pointer position is kept in whole pixels. *)
Record t := {
  mouse_over : bool;
  mouse_position_x : Z;
  mouse_position_y : Z;
  pixmap : Qt.QPixmap
}.

(** [__init__] *)
Definition init : t :=
  {| mouse_over := false;
     mouse_position_x := -1;
     mouse_position_y := -1;
     pixmap := Qt.null_pixmap |}.

Definition hoverEnterEvent (v : t) : t :=
  {| mouse_over := true;
     mouse_position_x := mouse_position_x v;
     mouse_position_y := mouse_position_y v;
     pixmap := pixmap v |}.

Definition hoverLeaveEvent (v : t) : t :=
  {| mouse_over := false;
     mouse_position_x := mouse_position_x v;
     mouse_position_y := mouse_position_y v;
     pixmap := pixmap v |}.

Definition hoverMoveEvent (x y : Z) (v : t) : t :=
  {| mouse_over := mouse_over v;
     mouse_position_x := x;
     mouse_position_y := y;
     pixmap := pixmap v |}.

Definition setPixmap (p : Qt.QPixmap) (v : t) : t :=
  {| mouse_over := mouse_over v;
     mouse_position_x := mouse_position_x v;
     mouse_position_y := mouse_position_y v;
     pixmap := p |}.

(** [get_mouse_color]: the returned object ([None] when the method
    falls off its end without a [return]) and the item afterwards. *)
Definition get_mouse_color (v : t) : option Qt.QColor * t :=
  if mouse_over v then
    if (mouse_position_x v <=? Qt.width (pixmap v))
       && (mouse_position_y v <=? Qt.height (pixmap v))
    then
      (Some (Qt.pixelColor (pixmap v)
               (mouse_position_x v) (mouse_position_y v)), v)
    else
      (None,
       {| mouse_over := mouse_over v;
          mouse_position_x := -1;
          mouse_position_y := -1;
          pixmap := pixmap v |})
  else
    (Some (Qt.QColor_rgb 0 0 0), v).

(** The item with its recorded coordinate put back to (-1, -1). *)
Definition coordinate_reset (v : t) : t :=
  {| mouse_over := mouse_over v;
     mouse_position_x := -1;
     mouse_position_y := -1;
     pixmap := pixmap v |}.

End ViewItem.

(* ================================================================== *)
(** * class TcamScreen(QGraphicsView)                                   *)
(* ================================================================== *)

Module TcamScreen.

(** Calls made on the view's own transformation. *)
Inductive view_op :=
| Scale (sx sy : Float64.float)
| Translate (dx dy : Float64.float).

(** [QGraphicsView.ViewportAnchor] *)
Inductive anchor := NoAnchor | AnchorViewCenter | AnchorUnderMouse.

Record t := {
  pix : ViewItem.t;
  zoom_factor : Float64.float;
  transformationAnchor : anchor;
  resizeAnchor : anchor;
  scene_position : option (Float64.float * Float64.float);
  view_ops : list view_op;
  (** emissions of the signal [new_pixel_under_mouse], oldest first *)
  emitted : list (bool * Qt.QColor)
}.

(** [__init__] *)
Definition init : t :=
  {| pix := ViewItem.init;
     zoom_factor := Float64.lit_1_0;
     transformationAnchor := AnchorViewCenter;
     resizeAnchor := NoAnchor;
     scene_position := None;
     view_ops := [];
     emitted := [] |}.

(** How a slot of the screen ends, and the screen it leaves. *)
Inductive outcome :=
| Returned (s : t)
| Raised (e : Py.exn) (s : t).

(** The screen after a call, however the call ended. *)
Definition final (o : outcome) : t :=
  match o with
  | Returned s => s
  | Raised _ s => s
  end.

(** The signal is declared [pyqtSignal(bool, QtGui.QColor)]: [emit]
    takes a colour object and raises [TypeError] when it is handed the
    [None] that [get_mouse_color] returns from its reset branch.  Both
    arguments are evaluated before the call, so the coordinate is reset
    by then and nothing is emitted. *)
Definition send_mouse_pixel (s : t) : outcome :=
  let over := ViewItem.mouse_over (pix s) in
  let '(color, pix') := ViewItem.get_mouse_color (pix s) in
  match color with
  | Some c =>
      Returned
        {| pix := pix';
           zoom_factor := zoom_factor s;
           transformationAnchor := transformationAnchor s;
           resizeAnchor := resizeAnchor s;
           scene_position := scene_position s;
           view_ops := view_ops s;
           emitted := emitted s ++ [(over, c)] |}
  | None =>
      Raised Py.TypeError
        {| pix := pix';
           zoom_factor := zoom_factor s;
           transformationAnchor := transformationAnchor s;
           resizeAnchor := resizeAnchor s;
           scene_position := scene_position s;
           view_ops := view_ops s;
           emitted := emitted s |}
  end.

Definition on_new_pixmap (pixmap : Qt.QPixmap) (s : t) : outcome :=
  send_mouse_pixel
    {| pix := ViewItem.setPixmap pixmap (pix s);
       zoom_factor := zoom_factor s;
       transformationAnchor := transformationAnchor s;
       resizeAnchor := resizeAnchor s;
       scene_position := scene_position s;
       view_ops := view_ops s;
       emitted := emitted s |}.

(** The scene hands hover events to the item [self.pix]. *)
Definition hover (handler : ViewItem.t -> ViewItem.t) (s : t) : t :=
  {| pix := handler (pix s);
     zoom_factor := zoom_factor s;
     transformationAnchor := transformationAnchor s;
     resizeAnchor := resizeAnchor s;
     scene_position := scene_position s;
     view_ops := view_ops s;
     emitted := emitted s |}.

Definition zoomInFactor : Float64.float := Float64.lit_1_25.
Definition zoomOutFactor : Float64.float :=
  Float64.div Float64.lit_1_0 zoomInFactor.

Definition wheelEvent (event : Qt.QWheelEvent) (s : t) : t :=
  let zoomFactor :=
    if Qt.angleDelta_y event >? 0 then zoomInFactor else zoomOutFactor in
  (* Set Anchors *)
  let s := {| pix := pix s;
              zoom_factor := zoom_factor s;
              transformationAnchor := NoAnchor;
              resizeAnchor := NoAnchor;
              scene_position := scene_position s;
              view_ops := view_ops s;
              emitted := emitted s |} in
  (* restrict zooming out *)
  if Float64.leb (Float64.mul (zoom_factor s) zoomFactor) Float64.lit_0_64
  then s
  else
    let '(dx, dy) := Qt.scene_delta event in
    {| pix := pix s;
       zoom_factor := Float64.mul (zoom_factor s) zoomFactor;
       transformationAnchor := transformationAnchor s;
       resizeAnchor := resizeAnchor s;
       scene_position := Some (dx, dy);
       view_ops := view_ops s ++ [Scale zoomFactor zoomFactor; Translate dx dy];
       emitted := emitted s |}.

(** A sequence of wheel events, delivered one after the other. *)
Definition wheelEvents (events : list Qt.QWheelEvent) (s : t) : t :=
  fold_left (fun s e => wheelEvent e s) events s.

End TcamScreen.

(* ================================================================== *)
(** * GStreamer objects used by the view                               *)
(* ================================================================== *)

Module Gst.

(** [Gst.State] *)
Inductive State := VOID_PENDING | NULL | READY | PAUSED | PLAYING.

Definition State_eqb (a b : State) : bool :=
  match a, b with
  | VOID_PENDING, VOID_PENDING | NULL, NULL | READY, READY
  | PAUSED, PAUSED | PLAYING, PLAYING => true
  | _, _ => false
  end.

(** The value of one field of a capability structure.  A field that
    holds a list of alternatives ([GstValueList]) cannot be converted by
    the introspection bindings: reading it raises [TypeError], which is
    what the workaround in [get_framerates] is written for. *)
Inductive field :=
| Absent
| Str (s : string)
| Int (z : Z)
| Range (start stop step : Z)
| Frac (num denom : Z)
| FracRange (n1 d1 n2 d2 : Z)
| ValueList.

(** One structure of a [Gst.Caps]: its media type, the fields the menu
    builder reads, and its serialisation [to_string()]. *)
Record Structure := {
  name : string;
  format : field;
  width : field;
  height : field;
  framerate : field;
  to_string : string
}.

Definition lookup (fmt : Structure) (fieldname : string) : field :=
  if String.eqb fieldname "format" then format fmt
  else if String.eqb fieldname "width" then width fmt
  else if String.eqb fieldname "height" then height fmt
  else if String.eqb fieldname "framerate" then framerate fmt
  else Absent.

(** [fmt.get_value(fieldname)] *)
Definition get_value (fmt : Structure) (fieldname : string) : Py.Res Py.pyval :=
  match lookup fmt fieldname with
  | Absent => Py.Ok Py.PyNone
  | Str s => Py.Ok (Py.PyStr s)
  | Int z => Py.Ok (Py.PyInt z)
  | Range a b st => Py.Ok (Py.IntRange a b st)
  | Frac n d => Py.Ok (Py.Fraction n d)
  | FracRange n1 d1 n2 d2 => Py.Ok (Py.FractionRange n1 d1 n2 d2)
  | ValueList => Py.Raise Py.TypeError
  end.

(** A pipeline as the widget drives it: the launch description it was
    parsed from, the state last requested with [set_state], and the
    [device-caps] property of the element named [bin]. *)
Record Pipeline := {
  description : string;
  state : State;
  device_caps : option string
}.

(** An error message on the bus: [msg.src.get_name()] and the two
    results of [msg.parse_error()]. *)
Record ErrorMessage := {
  src_name : string;
  err_message : string;
  dbg : option string
}.

End Gst.

(* ================================================================== *)
(** * TcamView.create_format_menu                                      *)
(* ================================================================== *)

Module FormatMenu.

Import Py.

(** What [get_framerates] returns: the object [get_value] gave, or the
    list of strings cut out of the serialised structure. *)
Inductive rates :=
| RatesValue (v : pyval)
| RatesList (l : list string).

(** The nested function [get_framerates(fmt)]. *)
Definition get_framerates (fmt : Gst.Structure) : Res rates :=
  match Gst.get_value fmt "framerate" with
  | Ok v => Ok (RatesValue v)
  | Raise TypeError =>
      (* Workaround for missing GstValueList support in GI *)
      let s := Gst.to_string fmt in
      let substr := slice_from s (find s "framerate=") in
      match re_split_braces substr 3 with
      | [_field; values; _remain] =>
          Ok (RatesList (map strip (split_comma values)))
      | _ => Raise ValueError      (* tuple unpacking *)
      end
  | Raise e => Raise e
  end.

(** [format_dict]: a [dict] from format identifiers to menus, in
    insertion order. *)
Definition format_dict := list (string * Qt.FmtMenu).

Fixpoint dict_mem (k : string) (d : format_dict) : bool :=
  match d with
  | [] => false
  | (k', _) :: d' => String.eqb k' k || dict_mem k d'
  end.

Fixpoint dict_get (k : string) (d : format_dict) : option Qt.FmtMenu :=
  match d with
  | [] => None
  | (k', m) :: d' => if String.eqb k' k then Some m else dict_get k d'
  end.

(** Apply [f] to the menu stored under [k]. *)
Fixpoint dict_update (k : string) (f : Qt.FmtMenu -> Qt.FmtMenu)
  (d : format_dict) : format_dict :=
  match d with
  | [] => []
  | (k', m) :: d' =>
      if String.eqb k' k then (k', f m) :: d'
      else (k', m) :: dict_update k f d'
  end.

(** [if k not in d: d[k] = QMenu(k, self)] *)
Definition dict_setdefault (k : string) (d : format_dict) : format_dict :=
  if dict_mem k d then d
  else (d ++ [(k, {| Qt.fmt_title := k; Qt.submenus := [] |})])%list.

(** [menu.addMenu(title)]: a new, empty submenu at the end. *)
Definition addMenu (title : string) (m : Qt.FmtMenu) : Qt.FmtMenu :=
  {| Qt.fmt_title := Qt.fmt_title m;
     Qt.submenus := Qt.submenus m
                    ++ [{| Qt.res_title := title; Qt.actions := [] |}] |}.

Fixpoint update_last {A} (f : A -> A) (l : list A) : list A :=
  match l with
  | [] => []
  | [x] => [f x]
  | x :: l' => x :: update_last f l'
  end.

(** [f_menu.addAction(action)], where [f_menu] is the submenu that the
    current iteration added last to the menu it belongs to. *)
Definition addAction (a : Qt.QAction) (m : Qt.FmtMenu) : Qt.FmtMenu :=
  {| Qt.fmt_title := Qt.fmt_title m;
     Qt.submenus :=
       update_last
         (fun r => {| Qt.res_title := Qt.res_title r;
                      Qt.actions := (Qt.actions r ++ [a])%list |})
         (Qt.submenus m) |}.

(** The local variables an iteration has bound when it leaves the [try]
    block without [continue]. *)
Record entry := {
  format_name : string;
  format_string : string;
  width : pyval;
  height : pyval
}.

Definition f_str (e : entry) : string :=
  format_string e ++ " - " ++ str (width e) ++ "x" ++ str (height e).

Definition res_menu_string (e : entry) : string :=
  str (width e) ++ "x" ++ str (height e).

(** The branch on the format identifier: [GRAY8] for a BGRx format
    without GRAY in its name, [continue] ([None] here) for the other
    BGRx formats and for a missing name. *)
Definition collapse_format (format_string : pyval) : Res (option string) :=
  has_bgrx <- str_in "BGRx" format_string ;;
  has_gray <- (if has_bgrx then str_in "GRAY" format_string else Ok false) ;;
  if has_bgrx && negb has_gray then Ok (Some "GRAY8")
  else if has_bgrx then Ok None
  else match format_string with
       | PyNone => Ok None
       | PyStr s => if String.eqb s "None" then Ok None else Ok (Some s)
       | _ => Raise TypeError     (* not reached: [str_in] raised above *)
       end.

(** The first half of the [try] block, up to the reading of the
    dimensions: it does not touch [format_dict]. *)
Definition read_entry (fmt : Gst.Structure) : Res (option entry) :=
  let format_name := Gst.name fmt in
  if contains "ANY" format_name then Ok None
  else
    format_string <-
      (if String.eqb format_name "image/jpeg" then Ok (PyStr format_name)
       else Gst.get_value fmt "format") ;;
    (* ignore additional formats that are generated by the bin *)
    collapsed <- collapse_format format_string ;;
    match collapsed with
    | None => Ok None
    | Some format_string =>
        width <- Gst.get_value fmt "width" ;;
        height <- Gst.get_value fmt "height" ;;
        Ok (Some {| format_name := format_name;
                    format_string := format_string;
                    width := width;
                    height := height |})
    end.

Inductive flow :=
| Continue
| Proceed (e : entry).

(** The whole [try] block: the dictionary afterwards, and how the block
    was left. *)
Definition try_block (fmt : Gst.Structure) (d : format_dict)
  : format_dict * Res flow :=
  match read_entry fmt with
  | Raise e => (d, Raise e)
  | Ok None => (d, Ok Continue)
  | Ok (Some e) =>
      let d := dict_setdefault (format_string e) d in
      if contains "None" (f_str e) then (d, Ok Continue)
      else if contains "range" (format_string e) then (d, Ok Continue)
      (* do not allow entries like [96,2592]x[2,1944] *)
      else if contains "]x[" (res_menu_string e) then (d, Ok Continue)
      else (dict_update (format_string e) (addMenu (res_menu_string e)) d,
            Ok (Proceed e))
  end.

(** [for rate in rates: rate = str(rate)] *)
Definition rate_strings (r : rates) : Res (list string) :=
  match r with
  | RatesList l => Ok l
  | RatesValue (PyStr s) =>
      Ok (map (fun c => String c EmptyString) (list_ascii_of_string s))
  | RatesValue _ => Raise TypeError
  end.

(** The capability-constraint string bound to [self.play]. *)
Definition play_argument (e : entry) (rate : string) : string :=
  if String.eqb (format_string e) "image/jpeg" then
    format_name e ++ ",,width=" ++ str (width e)
      ++ ",height=" ++ str (height e) ++ ",framerate=" ++ rate
  else
    format_name e ++ ",format=" ++ format_string e
      ++ ",width=" ++ str (width e)
      ++ ",height=" ++ str (height e) ++ ",framerate=" ++ rate.

Definition make_action (e : entry) (rate : string) : Qt.QAction :=
  {| Qt.text := rate;
     Qt.toolTip := "Set format to '" ++ (f_str e ++ "@" ++ rate) ++ "'";
     Qt.triggered := play_argument e rate |}.

(** One iteration of [for j in range(formats.get_size())]. *)
Definition loop_body (d : format_dict) (fmt : Gst.Structure)
  : Res format_dict :=
  match try_block fmt d with
  | (d, Raise TypeError) => Ok d   (* Could not interpret structure *)
  | (_, Raise e) => Raise e
  | (d, Ok Continue) => Ok d
  | (d, Ok (Proceed e)) =>
      rates <- get_framerates fmt ;;
      match rates with
      | RatesValue PyNone => Ok d
      | RatesValue (FractionRange _ _ _ _) => Ok d
      | RatesValue (Fraction _ _) => Ok d
      | _ =>
          rs <- rate_strings rates ;;
          Ok (fold_left
                (fun d rate =>
                   dict_update (format_string e)
                     (addAction (make_action e rate)) d)
                rs d)
      end
  end.

Fixpoint loop (formats : list Gst.Structure) (d : format_dict)
  : Res format_dict :=
  match formats with
  | [] => Ok d
  | fmt :: rest => d' <- loop_body d fmt ;; loop rest d'
  end.

(** The menu the method leaves in [self.format_menu] for the
    capability list [formats] of the source pad, or the exception that
    escapes it. *)
Definition create_format_menu (formats : list Gst.Structure) : Res Qt.QMenu :=
  d <- loop formats [] ;;
  Ok {| Qt.title := "Formats"; Qt.menus := map snd d |}.

(** The menu [m] with the finished submenu [sub] added at the end. *)
Definition append_sub (sub : Qt.ResMenu) (m : Qt.FmtMenu) : Qt.FmtMenu :=
  {| Qt.fmt_title := Qt.fmt_title m;
     Qt.submenus := (Qt.submenus m ++ [sub])%list |}.

(** A capability entry is retained when its iteration leaves the [try]
    block without [continue] and without an exception; the entry read
    from it is then the result. *)
Definition retained (fmt : Gst.Structure) : option entry :=
  match snd (try_block fmt []) with
  | Ok (Proceed e) => Some e
  | _ => None
  end.
(** The ways one iteration can end: the entry is dropped and nothing
    changes; only the top-level menu of its format is made sure to
    exist; its resolution submenu is added as well; or, for a retained
    entry, an exception escapes. *)
Inductive iteration (d : format_dict) (fmt : Gst.Structure) : Res format_dict -> Prop :=
| it_dropped : iteration d fmt (Ok d)
| it_title_only e :
    read_entry fmt = Ok (Some e) ->
    iteration d fmt (Ok (dict_setdefault (format_string e) d))
| it_submenu e acts :
    retained fmt = Some e ->
    iteration d fmt
      (Ok (dict_update (format_string e)
             (append_sub {| Qt.res_title := res_menu_string e; Qt.actions := acts |})
             (dict_setdefault (format_string e) d)))
| it_raised e x :
    retained fmt = Some e ->
    iteration d fmt (Raise x).

(** Every menu of the dictionary is titled with its key. *)
Definition titled (d : format_dict) : Prop :=
  forall k m, In (k, m) d -> Qt.fmt_title m = k.

(** The menu of format [k] offers the resolution submenu [sub]. *)
Definition offers (d : format_dict) (k : string) (sub : Qt.ResMenu) : Prop :=
  exists top, In (k, top) d /\ In sub (Qt.submenus top).

(** No exception escapes the iteration of [fmt]: either the entry is
    not retained, or its frame rates are something the loop over
    [rates] accepts. *)
Definition scans (fmt : Gst.Structure) : bool :=
  match retained fmt with
  | None => true
  | Some _ =>
      match get_framerates fmt with
      | Ok (RatesList _) => true
      | Ok (RatesValue (PyNone | PyStr _ | Fraction _ _
                        | FractionRange _ _ _ _)) => true
      | _ => false
      end
  end.

(** The entries of a menu: its resolution submenus, each with its
    actions, in menu order. *)
Definition entries (m : Qt.QMenu) : list Qt.ResMenu :=
  flat_map Qt.submenus (Qt.menus m).




End FormatMenu.

(* ================================================================== *)
(** * class TcamView(QWidget)                                           *)
(* ================================================================== *)

Module TcamView.

(** A registered device-lost observer: a zero-argument callable of the
    application, known to the widget only by its identity.  Calling it
    is recorded in the trace; observers are taken to return normally
    and to leave the widget's own fields alone. *)
Inductive callback := Callback (id : nat).

Inductive level := DEBUG | INFO | ERROR.

(** What the widget does to the outside world, in the order it does it. *)
Inductive event :=
| Log (l : level) (msg : string)
| ParseLaunch (description : string)          (* Gst.parse_launch *)
| Connect (signal : string)                   (* sink / bus .connect *)
| SetState (s : Gst.State)                    (* pipeline.set_state *)
| SetDeviceCaps (caps : string)               (* set_property("device-caps") *)
| Invoke (cb : callback).                     (* cb() *)

Record t := {
  serial : string;
  pipeline : option Gst.Pipeline;
  is_fullscreen : bool;
  fullscreen_container : option TcamScreen.t;
  device_lost_callbacks : list callback;
  trace : list event
}.

(** [__init__(serial)] *)
Definition init (serial : string) : t :=
  {| serial := serial;
     pipeline := None;
     is_fullscreen := false;
     fullscreen_container := None;
     device_lost_callbacks := [];
     trace := [] |}.

(** ** Methods: state passing with exceptions *)

Inductive outcome (A : Type) :=
| Returned (a : A) (s : t)
| Raised (e : Py.exn) (s : t).
Arguments Returned {A} a s.
Arguments Raised {A} e s.

Definition M (A : Type) := t -> outcome A.

Definition ret {A} (a : A) : M A := fun s => Returned a s.

Definition mbind {A B} (c : M A) (k : A -> M B) : M B :=
  fun s => match c s with
           | Returned a s' => k a s'
           | Raised e s' => Raised e s'
           end.

Notation "x <~ c1 ;; c2" := (mbind c1 (fun x => c2))
  (at level 61, c1 at next level, right associativity).
Notation "c1 >> c2" := (mbind c1 (fun _ => c2))
  (at level 61, right associativity).

(** The widget after a call, however the call ended. *)
Definition final {A} (o : outcome A) : t :=
  match o with
  | Returned _ s => s
  | Raised _ s => s
  end.

Definition emit (e : event) : M unit :=
  fun s => Returned tt
    {| serial := serial s;
       pipeline := pipeline s;
       is_fullscreen := is_fullscreen s;
       fullscreen_container := fullscreen_container s;
       device_lost_callbacks := device_lost_callbacks s;
       trace := trace s ++ [e] |}.

Definition set_pipeline (p : option Gst.Pipeline) : M unit :=
  fun s => Returned tt
    {| serial := serial s;
       pipeline := p;
       is_fullscreen := is_fullscreen s;
       fullscreen_container := fullscreen_container s;
       device_lost_callbacks := device_lost_callbacks s;
       trace := trace s |}.

(** Attribute access on [self.pipeline]: on [None] it raises. *)
Definition the_pipeline : M Gst.Pipeline :=
  fun s => match pipeline s with
           | Some p => Returned p s
           | None => Raised Py.AttributeError s
           end.

(** [self.pipeline.set_state(st)] *)
Definition set_state (st : Gst.State) : M unit :=
  p <~ the_pipeline ;;
  emit (SetState st) >>
  set_pipeline (Some {| Gst.description := Gst.description p;
                        Gst.state := st;
                        Gst.device_caps := Gst.device_caps p |}).

(** [self.pipeline.get_state(1000000).state] *)
Definition get_state : M Gst.State :=
  p <~ the_pipeline ;; ret (Gst.state p).

(** [self.pipeline.get_by_name("bin").set_property("device-caps", ...)] *)
Definition set_device_caps (caps : string) : M unit :=
  p <~ the_pipeline ;;
  emit (SetDeviceCaps caps) >>
  set_pipeline (Some {| Gst.description := Gst.description p;
                        Gst.state := Gst.state p;
                        Gst.device_caps := Some caps |}).

Definition pipeline_str (serial : string) : string :=
  "tcambin serial=" ++ serial ++ " name=bin "
  ++ "! video/x-raw,format=BGRx "
  ++ "! tee name=tee tee. "
  ++ "! queue "
  ++ "! videoconvert "
  ++ "! video/x-raw,format=BGRx "
  ++ "! appsink name=sink emit-signals=true".

(** [create_pipeline]: the image and video savers built here, the bus
    watch and [self.data.tcam] take no part in what follows and are
    left out. *)
Definition create_pipeline : M unit :=
  set_pipeline None >>
  (fun s =>
     let d := pipeline_str (serial s) in
     (emit (ParseLaunch d) >>
      set_pipeline (Some {| Gst.description := d;
                            Gst.state := Gst.NULL;
                            Gst.device_caps := None |})) s) >>
  emit (Connect "new-sample") >>
  emit (Connect "message::state-changed") >>
  emit (Connect "message::error") >>
  set_state Gst.READY >>
  emit (Log DEBUG "Created pipeline and set to READY").

Definition play (video_format : option string) : M unit :=
  (fun s => match pipeline s with
            | None => create_pipeline s
            | Some _ => ret tt s
            end) >>
  st <~ get_state ;;
  (if Gst.State_eqb st Gst.PLAYING then
     emit (Log DEBUG "Setting pipeline to READY") >>
     set_state Gst.NULL
   else ret tt) >>
  (match video_format with
   | Some f =>
       emit (Log INFO ("Setting format to " ++ f)) >>
       set_device_caps f
   | None => ret tt
   end) >>
  emit (Log INFO "Setting state PLAYING") >>
  set_state Gst.PLAYING.

Definition pause : M unit :=
  emit (Log INFO "Setting state to PAUSED") >>
  set_state Gst.PAUSED.

Definition stop : M unit :=
  emit (Log INFO "Setting state to NULL") >>
  set_state Gst.NULL >>
  emit (Log INFO "Set State to NULL").

Definition register_device_lost (cb : callback) : M unit :=
  fun s => Returned tt
    {| serial := serial s;
       pipeline := pipeline s;
       is_fullscreen := is_fullscreen s;
       fullscreen_container := fullscreen_container s;
       device_lost_callbacks := device_lost_callbacks s ++ [cb];
       trace := trace s |}.

Fixpoint for_each {A} (l : list A) (body : A -> M unit) : M unit :=
  match l with
  | [] => ret tt
  | x :: l' => body x >> for_each l' body
  end.

Definition fire_device_lost : M unit :=
  fun s => for_each (device_lost_callbacks s) (fun cb => emit (Invoke cb)) s.

(** Truth value of [dbg]: [None] and the empty string are false. *)
Definition truthy (dbg : option string) : bool :=
  match dbg with
  | None => false
  | Some s => negb (String.eqb s "")
  end.

Definition on_error (msg : Gst.ErrorMessage) : M unit :=
  if String.eqb (Gst.src_name msg) "tcambin-source" then
    if String.eqb (Gst.err_message msg) "Device lost" then
      emit (Log ERROR "Received device lost message") >>
      fire_device_lost
    else
      emit (Log ERROR ("Error from source: " ++ Gst.err_message msg))
  else
    emit (Log ERROR "ERROR:") >>
    if truthy (Gst.dbg msg) then emit (Log DEBUG "Debug info:") else ret tt.

Definition toggle_fullscreen : M unit :=
  fun s =>
    if is_fullscreen s then
      Returned tt
        {| serial := serial s;
           pipeline := pipeline s;
           is_fullscreen := false;
           fullscreen_container := None;
           device_lost_callbacks := device_lost_callbacks s;
           trace := trace s |}
    else
      Returned tt
        {| serial := serial s;
           pipeline := pipeline s;
           is_fullscreen := true;
           fullscreen_container := Some TcamScreen.init;
           device_lost_callbacks := device_lost_callbacks s;
           trace := trace s |}.

Definition eventFilter (event : Qt.QEvent) : M bool :=
  if Py.obj_eq (Qt.attr_type event) Qt.QEvent_KeyPress then
    if Qt.key event =? Qt.Key_F11 then
      toggle_fullscreen >> ret true
    else ret (Qt.QObject_eventFilter event)
  else ret (Qt.QObject_eventFilter event).

(** ** Reading a trace *)

(** The observers invoked, in order. *)
Fixpoint invoked (tr : list event) : list callback :=
  match tr with
  | [] => []
  | Invoke cb :: tr' => cb :: invoked tr'
  | _ :: tr' => invoked tr'
  end.

(** The requests made to the streaming engine, in order: everything but
    log lines and observer calls. *)
Fixpoint requests (tr : list event) : list event :=
  match tr with
  | [] => []
  | Log _ _ :: tr' => requests tr'
  | Invoke _ :: tr' => requests tr'
  | e :: tr' => e :: requests tr'
  end.

(** The pipeline of a view is stopped: it exists and is in state NULL. *)
Definition stopped (s : t) : Prop :=
  option_map Gst.state (pipeline s) = Some Gst.NULL.

(** The requests [create_pipeline] makes. *)
Definition create_requests (serial : string) : list event :=
  [ParseLaunch (pipeline_str serial);
   Connect "new-sample";
   Connect "message::state-changed";
   Connect "message::error";
   SetState Gst.READY].

End TcamView.

(* ================================================================== *)
(** * Sample inputs                                                    *)
(* ================================================================== *)

Module Samples.

(** Two frames of one colour each, one 1280x720 and one 640x480. *)
Definition frame_1280x720 : Qt.QPixmap :=
  {| Qt.width := 1280; Qt.height := 720;
     Qt.pixel := fun _ _ => Qt.RGBA 200 100 50 255 |}.

Definition frame_640x480 : Qt.QPixmap :=
  {| Qt.width := 640; Qt.height := 480;
     Qt.pixel := fun _ _ => Qt.RGBA 10 20 30 255 |}.

(** A screen that shows the 1280x720 frame, with the pointer over the
    image at (640, 10). *)
Definition hovering_screen : TcamScreen.t :=
  TcamScreen.hover (ViewItem.hoverMoveEvent 640 10)
    (TcamScreen.hover ViewItem.hoverEnterEvent
       (TcamScreen.final
          (TcamScreen.on_new_pixmap frame_1280x720 TcamScreen.init))).

(** The error the source element posts when the camera disappears. *)
Definition device_lost : Gst.ErrorMessage :=
  {| Gst.src_name := "tcambin-source";
     Gst.err_message := "Device lost";
     Gst.dbg := None |}.

(** A view of camera 12345678 on which two observers were registered
    and [play()] was called once. *)
Definition playing_view : TcamView.t :=
  TcamView.final
    (TcamView.mbind
       (TcamView.register_device_lost (TcamView.Callback 1))
       (fun _ =>
          TcamView.mbind
            (TcamView.register_device_lost (TcamView.Callback 2))
            (fun _ => TcamView.play None))
       (TcamView.init "12345678")).

(** Capability structures of a camera: a raw BGRx entry, a raw entry
    whose format names both GRAY and BGRx, a JPEG entry, an entry whose
    resolution is a range, and the wildcard. *)
Definition caps_bgrx : Gst.Structure :=
  {| Gst.name := "video/x-raw";
     Gst.format := Gst.Str "BGRx";
     Gst.width := Gst.Int 640;
     Gst.height := Gst.Int 480;
     Gst.framerate := Gst.ValueList;
     Gst.to_string :=
       "video/x-raw, format=(string)BGRx, width=(int)640, height=(int)480, framerate=(fraction){ 5/1, 10/1, 30/1 };" |}.

Definition caps_mixed : Gst.Structure :=
  {| Gst.name := "video/x-raw";
     Gst.format := Gst.Str "{ GRAY8, GRAY16_LE, BGRx }";
     Gst.width := Gst.Int 1280;
     Gst.height := Gst.Int 720;
     Gst.framerate := Gst.ValueList;
     Gst.to_string :=
       "video/x-raw, format=(string){ GRAY8, GRAY16_LE, BGRx }, width=(int)1280, height=(int)720, framerate=(fraction){ 15/1, 30/1 };" |}.

Definition caps_jpeg : Gst.Structure :=
  {| Gst.name := "image/jpeg";
     Gst.format := Gst.Absent;
     Gst.width := Gst.Int 1920;
     Gst.height := Gst.Int 1080;
     Gst.framerate := Gst.ValueList;
     Gst.to_string :=
       "image/jpeg, width=(int)1920, height=(int)1080, framerate=(fraction){ 15/1, 30/1 };" |}.

Definition caps_range : Gst.Structure :=
  {| Gst.name := "video/x-raw";
     Gst.format := Gst.Str "GRAY8";
     Gst.width := Gst.Range 96 2592 1;
     Gst.height := Gst.Range 2 1944 1;
     Gst.framerate := Gst.FracRange 1 1 30 1;
     Gst.to_string :=
       "video/x-raw, format=(string)GRAY8, width=(int)[ 96, 2592 ], height=(int)[ 2, 1944 ], framerate=(fraction)[ 1/1, 30/1 ];" |}.

Definition caps_any : Gst.Structure :=
  {| Gst.name := "ANY";
     Gst.format := Gst.Absent;
     Gst.width := Gst.Absent;
     Gst.height := Gst.Absent;
     Gst.framerate := Gst.Absent;
     Gst.to_string := "ANY" |}.

End Samples.

(* ================================================================== *)
(** * Sessions: sequences of calls on one TcamView                      *)
(* ================================================================== *)

Module Session.

Import TcamView.

(** The calls the application and the two frameworks make on a view. *)
Inductive call :=
| Play (video_format : option string)
| Pause
| Stop
| OnError (msg : Gst.ErrorMessage)
| RegisterDeviceLost (cb : callback)
| EventFilter (event : Qt.QEvent)
| ToggleFullscreen.

Definition perform (c : call) : M unit :=
  match c with
  | Play f => play f
  | Pause => pause
  | Stop => stop
  | OnError msg => on_error msg
  | RegisterDeviceLost cb => register_device_lost cb
  | EventFilter ev => mbind (eventFilter ev) (fun _ => ret tt)
  | ToggleFullscreen => toggle_fullscreen
  end.

(** The calls of a list, one after the other; an exception ends the
    sequence where it is raised. *)
Fixpoint run (calls : list call) : M unit :=
  match calls with
  | [] => ret tt
  | c :: rest => mbind (perform c) (fun _ => run rest)
  end.

(** How often [Gst.parse_launch] was called. *)
Fixpoint launches (tr : list event) : nat :=
  match tr with
  | [] => 0
  | ParseLaunch _ :: tr' => S (launches tr')
  | _ :: tr' => launches tr'
  end.

(** The format string of the last [play] that was given one. *)
Fixpoint last_format (calls : list call) (acc : option string) : option string :=
  match calls with
  | [] => acc
  | Play (Some f) :: rest => last_format rest (Some f)
  | _ :: rest => last_format rest acc
  end.

(** How many of the calls are [toggle_fullscreen]. *)
Fixpoint toggles (calls : list call) : nat :=
  match calls with
  | [] => 0
  | ToggleFullscreen :: rest => S (toggles rest)
  | _ :: rest => toggles rest
  end.

(** What construction leaves the view with, as far as the pipeline
    goes: no pipeline and no launch, or the one pipeline launched for
    the view's serial. *)
Definition constructed_once (ser : string) (s : t) : Prop :=
  serial s = ser
  /\ match pipeline s with
     | None => launches (trace s) = 0%nat
     | Some p => launches (trace s) = 1%nat
                 /\ Gst.description p = pipeline_str ser
     end.

End Session.

(* ================================================================== *)
(** * Streams of frames and of view operations                         *)
(* ================================================================== *)

Module Stream.

(** Frames delivered to a screen one after the other, each through
    [on_new_pixmap]; an exception that escapes the slot ends the
    run. *)
Fixpoint frames (fs : list Qt.QPixmap) (s : TcamScreen.t)
  : TcamScreen.outcome :=
  match fs with
  | [] => TcamScreen.Returned s
  | f :: rest =>
      match TcamScreen.on_new_pixmap f s with
      | TcamScreen.Returned s' => frames rest s'
      | TcamScreen.Raised e s' => TcamScreen.Raised e s'
      end
  end.

(** The frame a screen shows after [fs] were delivered. *)
Definition last_frame (fs : list Qt.QPixmap) (s : TcamScreen.t) : Qt.QPixmap :=
  last fs (ViewItem.pixmap (TcamScreen.pix s)).

(** The scale the view operations amount to: the product, in the order
    of the calls, of the factors passed to [scale], starting from 1.0. *)
Definition scale_product (ops : list TcamScreen.view_op) : Float64.float :=
  fold_left
    (fun acc op =>
       match op with
       | TcamScreen.Scale sx _ => Float64.mul acc sx
       | TcamScreen.Translate _ _ => acc
       end)
    ops Float64.lit_1_0.

(** A view operation is one [wheelEvent] makes: a uniform scaling by
    one of the two zoom factors, or a translation. *)
Definition wheel_op (op : TcamScreen.view_op) : Prop :=
  match op with
  | TcamScreen.Scale sx sy =>
      sx = sy
      /\ (sx = TcamScreen.zoomInFactor \/ sx = TcamScreen.zoomOutFactor)
  | TcamScreen.Translate _ _ => True
  end.

End Stream.

(* ================================================================== *)
(** * The view together with its screens                               *)
(* ================================================================== *)

Module Display.

Definition Key_Escape : Z := 16777216.    (* 0x01000000 *)
Definition Key_F : Z := 70.               (* 0x46 *)

(** A [TcamView] with the fields [new_buffer] works on: the windowed
    screen [self.container], the last image, the latched frame size,
    and what the view's own signal [new_pixel_under_mouse] emitted,
    oldest first. *)
Record t := {
  view : TcamView.t;
  container : TcamScreen.t;
  image : option Qt.QPixmap;
  current_width : Z;
  current_height : Z;
  exported : list (bool * Qt.QColor)
}.

(** [__init__(serial)] *)
Definition init (serial : string) : t :=
  {| view := TcamView.init serial;
     container := TcamScreen.init;
     image := None;
     current_width := 0;
     current_height := 0;
     exported := [] |}.

Definition with_view (v : TcamView.t) (d : t) : t :=
  {| view := v;
     container := container d;
     image := image d;
     current_width := current_width d;
     current_height := current_height d;
     exported := exported d |}.

Definition with_fullscreen_container (fs : option TcamScreen.t)
  (v : TcamView.t) : TcamView.t :=
  {| TcamView.serial := TcamView.serial v;
     TcamView.pipeline := TcamView.pipeline v;
     TcamView.is_fullscreen := TcamView.is_fullscreen v;
     TcamView.fullscreen_container := fs;
     TcamView.device_lost_callbacks := TcamView.device_lost_callbacks v;
     TcamView.trace := TcamView.trace v |}.

(** [self.container.new_pixmap.emit(pixmap)]: the connected
    [on_new_pixmap] runs on the windowed screen, and every status that
    screen emits reaches [new_pixel_under_mouse_slot], which emits it
    again on the view's signal.  An exception that escapes the slot is
    caught nowhere: the run ends with it. *)
Definition container_new_pixmap (pixmap : Qt.QPixmap) (d : t) : Py.Res t :=
  match TcamScreen.on_new_pixmap pixmap (container d) with
  | TcamScreen.Returned c =>
      Py.Ok
        {| view := view d;
           container := c;
           image := image d;
           current_width := current_width d;
           current_height := current_height d;
           exported :=
             exported d
             ++ skipn (List.length (TcamScreen.emitted (container d)))
                  (TcamScreen.emitted c) |}
  | TcamScreen.Raised e _ => Py.Raise e
  end.

(** [self.fullscreen_container.new_pixmap.emit(pixmap)]: nothing is
    connected to the status signal of the fullscreen screen. *)
Definition fullscreen_new_pixmap (pixmap : Qt.QPixmap) (fs : TcamScreen.t)
  (d : t) : Py.Res t :=
  match TcamScreen.on_new_pixmap pixmap fs with
  | TcamScreen.Returned fs' =>
      Py.Ok (with_view (with_fullscreen_container (Some fs') (view d)) d)
  | TcamScreen.Raised e _ => Py.Raise e
  end.

(** [new_buffer(appsink)], for the sample [frame] the sink hands out:
    its width and height are those of the caps structure. *)
Definition new_buffer (frame : Qt.QPixmap) (d : t) : Py.Res t :=
  match TcamView.pipeline (view d) with
  | None => Py.Raise Py.AttributeError     (* self.pipeline.get_by_name *)
  | Some _ =>
      let d :=
        {| view := view d;
           container := container d;
           image := Some frame;
           current_width :=
             if current_width d =? 0 then Qt.width frame
             else current_width d;
           current_height :=
             if current_height d =? 0 then Qt.height frame
             else current_height d;
           exported := exported d |} in
      match TcamView.fullscreen_container (view d) with
      | Some fs => fullscreen_new_pixmap frame fs d
      | None => container_new_pixmap frame d
      end
  end.

(** A call on the view itself. *)
Definition on_view (c : Session.call) (d : t) : Py.Res t :=
  match Session.perform c (view d) with
  | TcamView.Returned _ v => Py.Ok (with_view v d)
  | TcamView.Raised e _ => Py.Raise e
  end.

Definition exit_key (key : Z) : bool :=
  (key =? Qt.Key_F11) || (key =? Key_Escape) || (key =? Key_F).

(** [TcamScreen.keyPressEvent] for a key pressed while the fullscreen
    screen exists: that screen is the one shown full screen and holds
    the focus, and its signal [destroy_widget] is connected to
    [toggle_fullscreen].  On the windowed screen [isFullScreen()] is
    false and the event is ignored. *)
Definition keyPressEvent (key : Z) (d : t) : t :=
  match TcamView.fullscreen_container (view d) with
  | Some _ =>
      if exit_key key then
        with_view (TcamView.final (TcamView.toggle_fullscreen (view d))) d
      else d
  | None => d
  end.

(** What reaches the view: samples from the sink, calls of the
    application and the bus, and key presses. *)
Inductive input :=
| NewBuffer (frame : Qt.QPixmap)
| Call (c : Session.call)
| KeyPress (key : Z).

Definition step (i : input) (d : t) : Py.Res t :=
  match i with
  | NewBuffer frame => new_buffer frame d
  | Call c => on_view c d
  | KeyPress key => Py.Ok (keyPressEvent key d)
  end.

Fixpoint run (inputs : list input) (d : t) : Py.Res t :=
  match inputs with
  | [] => Py.Ok d
  | i :: rest => Py.bind (step i d) (run rest)
  end.

End Display.

(* ================================================================== *)
(** * Serialised capability structures                                 *)
(* ================================================================== *)

Module Text.

(** [sep.join(items)] *)
Fixpoint join (sep : string) (items : list string) : string :=
  match items with
  | [] => EmptyString
  | [x] => x
  | x :: rest => x ++ sep ++ join sep rest
  end.

(** How many characters of [s] satisfy [P]. *)
Fixpoint count (P : ascii -> bool) (s : string) : nat :=
  match s with
  | EmptyString => 0
  | String c s' => (if P c then 1 else 0) + count P s'
  end.

Definition no_brace (c : ascii) : bool := negb (Py.is_brace c).
Definition no_comma (c : ascii) : bool := negb (Ascii.eqb "," c).

(** The text [get_framerates] cuts the rates out of: the serialised
    structure from its first [framerate=] on. *)
Definition framerate_text (fmt : Gst.Structure) : string :=
  Py.slice_from (Gst.to_string fmt)
    (Py.find (Gst.to_string fmt) "framerate=").

(** The format identifier under which an entry is filed, if the first
    half of the [try] block reads one from it. *)
Definition key_of (fmt : Gst.Structure) : option string :=
  match FormatMenu.read_entry fmt with
  | Py.Ok (Some e) => Some (FormatMenu.format_string e)
  | _ => None
  end.

Fixpoint keys_of (formats : list Gst.Structure) : list string :=
  match formats with
  | [] => []
  | fmt :: rest =>
      match key_of fmt with
      | Some k => k :: keys_of rest
      | None => keys_of rest
      end
  end.

(** Whether an entry ends up with a resolution submenu. *)
Definition is_retained (fmt : Gst.Structure) : bool :=
  match FormatMenu.retained fmt with Some _ => true | None => false end.





(** The distinct elements of a list, in order of first appearance. *)
Definition add_key (acc : list string) (k : string) : list string :=
  if existsb (fun k' => String.eqb k' k) acc then acc else (acc ++ [k])%list.

Definition first_seen (ks : list string) : list string :=
  fold_left add_key ks [].

End Text.

(* ================================================================== *)
(** * More sample inputs                                               *)
(* ================================================================== *)

Module MoreSamples.

(** A structure with a second list-valued field after the frame rates,
    as GStreamer serialises it. *)
Definition caps_two_lists : Gst.Structure :=
  {| Gst.name := "video/x-raw";
     Gst.format := Gst.Str "GRAY16_LE";
     Gst.width := Gst.Int 640;
     Gst.height := Gst.Int 480;
     Gst.framerate := Gst.ValueList;
     Gst.to_string :=
       "video/x-raw, format=(string)GRAY16_LE, width=(int)640, height=(int)480, framerate=(fraction){ 15/1, 30/1 }, colorimetry=(string){ bt601, bt709 };" |}.

(** A raw entry whose frame rate is a single fraction. *)
Definition caps_single_rate : Gst.Structure :=
  {| Gst.name := "video/x-raw";
     Gst.format := Gst.Str "GRAY8";
     Gst.width := Gst.Int 640;
     Gst.height := Gst.Int 480;
     Gst.framerate := Gst.Frac 30 1;
     Gst.to_string :=
       "video/x-raw, format=(string)GRAY8, width=(int)640, height=(int)480, framerate=(fraction)30/1;" |}.

(** The view of [Samples.playing_view] with its windowed screen, and
    the same after [toggle_fullscreen]. *)
Definition playing_display : Display.t :=
  Display.with_view Samples.playing_view (Display.init "12345678").

Definition fullscreen_display : Display.t :=
  Display.with_view
    (TcamView.final (TcamView.toggle_fullscreen Samples.playing_view))
    (Display.init "12345678").

End MoreSamples.

(* ================================================================== *)
(** * Properties                                                       *)
(* ================================================================== *)

(** ** Binary64 facts used by the zoom clamp *)

Section Float64Facts.

Import Float64.

Lemma shr_1_nonneg (mrs : shr_record) :
  0 <= shr_m mrs -> 0 <= shr_m (shr_1 mrs).
Proof.
  destruct mrs as [m r s]; simpl.
  destruct m as [|p|p]; simpl; try lia; destruct p; simpl; lia.
Qed.

Lemma iter_shr_1_nonneg (p : positive) :
  forall mrs, 0 <= shr_m mrs -> 0 <= shr_m (iter_pos shr_1 p mrs).
Proof.
  induction p; intros mrs H; simpl; auto using shr_1_nonneg.
Qed.

Lemma shr_fexp_nonneg (m e : Z) (l : location) :
  0 <= m -> 0 <= shr_m (fst (shr_fexp prec emax m e l)).
Proof.
  intros H. unfold shr_fexp, shr.
  assert (Hm : 0 <= shr_m (shr_record_of_loc m l))
    by (destruct l as [|[]]; exact H).
  destruct (fexp prec emax (Zdigits2 m + e) - e); simpl; auto.
  now apply iter_shr_1_nonneg.
Qed.

Lemma round_nearest_even_nonneg (m : Z) (l : location) :
  0 <= m -> 0 <= round_nearest_even m l.
Proof.
  intros H. destruct l as [|[]]; simpl; try lia.
  destruct (Z.even m); lia.
Qed.

(** Rounding a non-negative mantissa never produces NaN. *)
Lemma binary_round_aux_not_nan (s : bool) (m e : Z) (l : location) :
  0 <= m -> binary_round_aux prec emax s m e l <> S754_nan.
Proof.
  intros H. unfold binary_round_aux.
  pose proof (shr_fexp_nonneg m e l H) as H1.
  destruct (shr_fexp prec emax m e l) as [mrs' e']. simpl in H1.
  pose proof (shr_fexp_nonneg _ e' loc_Exact
                (round_nearest_even_nonneg _ (loc_of_shr_record mrs') H1))
    as H2.
  destruct (shr_fexp prec emax
              (round_nearest_even (shr_m mrs') (loc_of_shr_record mrs'))
              e' loc_Exact) as [mrs'' e'']. simpl in H2.
  destruct (shr_m mrs'') as [|p|p]; try discriminate; try lia.
  destruct (e'' <=? emax - prec); discriminate.
Qed.

(** A float above a positive finite float is [+inf] or positive finite. *)
Lemma above_positive_shape (m0 : positive) (e0 : Z) (z : float) :
  ltb (S754_finite false m0 e0) z = true ->
  z = S754_infinity false \/ exists m e, z = S754_finite false m e.
Proof.
  unfold ltb, SFltb.
  destruct z as [s|s| |s m e]; simpl; try discriminate.
  - destruct s; [discriminate | now left].
  - destruct s; [discriminate | right; now exists m, e].
Qed.

Lemma mul_positive_not_nan (m0 mf : positive) (e0 ef : Z) (z : float) :
  ltb (S754_finite false m0 e0) z = true ->
  mul z (S754_finite false mf ef) <> S754_nan.
Proof.
  intros H. destruct (above_positive_shape _ _ _ H) as [-> | (m & e & ->)].
  - discriminate.
  - unfold mul, SFmul. apply binary_round_aux_not_nan. lia.
Qed.

Lemma SFcompare_Gt_swap (x y : float) :
  SFcompare x y = Some Gt -> SFcompare y x = Some Lt.
Proof.
  destruct x as [sx|sx| |sx mx ex], y as [sy|sy| |sy my ey]; simpl;
    try discriminate;
    try (destruct sx; discriminate || reflexivity);
    try (destruct sy; discriminate || reflexivity);
    try (destruct sx, sy; discriminate || reflexivity).
  assert (Hm : Pos.compare_cont Eq my mx
               = CompOpp (Pos.compare_cont Eq mx my))
    by (rewrite Pos.compare_cont_antisym; reflexivity).
  destruct sx, sy; try discriminate; try reflexivity;
    rewrite (Z.compare_antisym ex ey), Hm;
    destruct (ex ?= ey); simpl; try discriminate; try reflexivity;
    destruct (Pos.compare_cont Eq mx my); simpl; intros; congruence.
Qed.

(** Outside NaN, "not at or below" is "strictly above". *)
Lemma not_leb_ltb (x y : float) :
  x <> S754_nan -> y <> S754_nan -> leb x y = false -> ltb y x = true.
Proof.
  intros Hx Hy. unfold leb, ltb, SFleb, SFltb.
  destruct (SFcompare x y) as [[| |]|] eqn:E; try discriminate.
  - intros _. now rewrite (SFcompare_Gt_swap _ _ E).
  - destruct x, y; simpl in E; congruence.
Qed.

Lemma zoomOutFactor_value :
  TcamScreen.zoomOutFactor = S754_finite false 7205759403792794 (-53).
Proof. reflexivity. Qed.

End Float64Facts.

(** ** TcamScreen.wheelEvent *)

Section Zoom.

Import Float64.

(** One wheel event keeps the zoom factor strictly above 0.64. *)
Lemma wheelEvent_above_floor (event : Qt.QWheelEvent) (s : TcamScreen.t) :
  ltb lit_0_64 (TcamScreen.zoom_factor s) = true ->
  ltb lit_0_64 (TcamScreen.zoom_factor (TcamScreen.wheelEvent event s)) = true.
Proof.
  intros H. unfold TcamScreen.wheelEvent.
  cbn [TcamScreen.zoom_factor].
  set (f := if Qt.angleDelta_y event >? 0
            then TcamScreen.zoomInFactor else TcamScreen.zoomOutFactor).
  destruct (leb (mul (TcamScreen.zoom_factor s) f) lit_0_64) eqn:E.
  - exact H.
  - destruct (Qt.scene_delta event) as [dx dy].
    cbn [TcamScreen.zoom_factor].
    apply not_leb_ltb; [ | discriminate | exact E].
    subst f. destruct (Qt.angleDelta_y event >? 0).
    + exact (mul_positive_not_nan _ _ _ _ _ H).
    + rewrite zoomOutFactor_value. exact (mul_positive_not_nan _ _ _ _ _ H).
Qed.

Lemma wheelEvents_above_floor (events : list Qt.QWheelEvent) :
  forall s,
    ltb lit_0_64 (TcamScreen.zoom_factor s) = true ->
    ltb lit_0_64
      (TcamScreen.zoom_factor (TcamScreen.wheelEvents events s)) = true.
Proof.
  unfold TcamScreen.wheelEvents.
  induction events as [|e events IH]; intros s H; simpl.
  - exact H.
  - apply IH. now apply wheelEvent_above_floor.
Qed.

(** A step that the clamp rejects is a no-op: apart from the anchors,
    which every wheel event sets to [NoAnchor], the screen is what it
    was. *)
Lemma wheelEvent_rejected (event : Qt.QWheelEvent) (s : TcamScreen.t) :
  leb (mul (TcamScreen.zoom_factor s)
         (if Qt.angleDelta_y event >? 0
          then TcamScreen.zoomInFactor else TcamScreen.zoomOutFactor))
      lit_0_64 = true ->
  TcamScreen.wheelEvent event s
  = {| TcamScreen.pix := TcamScreen.pix s;
       TcamScreen.zoom_factor := TcamScreen.zoom_factor s;
       TcamScreen.transformationAnchor := TcamScreen.NoAnchor;
       TcamScreen.resizeAnchor := TcamScreen.NoAnchor;
       TcamScreen.scene_position := TcamScreen.scene_position s;
       TcamScreen.view_ops := TcamScreen.view_ops s;
       TcamScreen.emitted := TcamScreen.emitted s |}.
Proof.
  intros H. unfold TcamScreen.wheelEvent.
  cbn [TcamScreen.zoom_factor]. now rewrite H.
Qed.

(** A step that the clamp accepts multiplies the zoom factor by 1.25
    (forward) or by 1/1.25 (backward) and scales the view by the same
    factor. *)
Lemma wheelEvent_accepted (event : Qt.QWheelEvent) (s : TcamScreen.t) :
  let f := if Qt.angleDelta_y event >? 0
           then TcamScreen.zoomInFactor else TcamScreen.zoomOutFactor in
  leb (mul (TcamScreen.zoom_factor s) f) lit_0_64 = false ->
  TcamScreen.zoom_factor (TcamScreen.wheelEvent event s)
  = mul (TcamScreen.zoom_factor s) f
  /\ TcamScreen.view_ops (TcamScreen.wheelEvent event s)
     = (TcamScreen.view_ops s
        ++ [TcamScreen.Scale f f;
            TcamScreen.Translate (fst (Qt.scene_delta event))
              (snd (Qt.scene_delta event))])%list.
Proof.
  intros f H. unfold TcamScreen.wheelEvent.
  cbn [TcamScreen.zoom_factor]. fold f. rewrite H.
  destruct (Qt.scene_delta event) as [dx dy]. split; reflexivity.
Qed.

(** C7. Whatever sequence of wheel events a freshly constructed
    [TcamScreen] (zoom factor 1.0) receives, and however long a prefix
    of it has been delivered, the cumulative zoom factor is strictly
    greater than 0.64 in binary64 arithmetic. *)
Theorem zoom_factor_above_floor (events : list Qt.QWheelEvent) (n : nat) :
  ltb lit_0_64
    (TcamScreen.zoom_factor
       (TcamScreen.wheelEvents (firstn n events) TcamScreen.init)) = true.
Proof.
  apply wheelEvents_above_floor. reflexivity.
Qed.

(** Two steps back from 1.0 are both accepted in binary64 (0.8 * 0.8
    rounds to just above 0.64); the third one is rejected. *)
Example zoom_out_three_times :
  let back := {| Qt.angleDelta_y := -120;
                 Qt.scene_delta := (S754_zero false, S754_zero false) |} in
  TcamScreen.zoom_factor
    (TcamScreen.wheelEvents [back; back] TcamScreen.init)
  = S754_finite false 5764607523034236 (-53)
  /\ TcamScreen.wheelEvents [back; back; back] TcamScreen.init
     = TcamScreen.wheelEvents [back; back] TcamScreen.init.
Proof. vm_compute. split; reflexivity. Qed.

End Zoom.

(** ** ViewItem.get_mouse_color and TcamScreen.on_new_pixmap *)

Section PixelUnderMouse.

Import ViewItem Samples.

Lemma get_mouse_color_not_over (v : ViewItem.t) :
  mouse_over v = false ->
  get_mouse_color v = (Some (Qt.RGBA 0 0 0 255), v).
Proof. intros H. unfold get_mouse_color. now rewrite H. Qed.

Lemma get_mouse_color_beyond (v : ViewItem.t) :
  mouse_over v = true ->
  Qt.width (pixmap v) < mouse_position_x v
  \/ Qt.height (pixmap v) < mouse_position_y v ->
  get_mouse_color v = (None, coordinate_reset v).
Proof.
  intros H Hout. unfold get_mouse_color, coordinate_reset. rewrite H.
  destruct ((mouse_position_x v <=? Qt.width (pixmap v))
            && (mouse_position_y v <=? Qt.height (pixmap v))) eqn:E.
  - apply andb_true_iff in E. destruct E as [Ex Ey].
    apply Z.leb_le in Ex, Ey. lia.
  - reflexivity.
Qed.

Lemma get_mouse_color_within (v : ViewItem.t) :
  mouse_over v = true ->
  mouse_position_x v <= Qt.width (pixmap v) ->
  mouse_position_y v <= Qt.height (pixmap v) ->
  get_mouse_color v
  = (Some (Qt.pixelColor (pixmap v) (mouse_position_x v) (mouse_position_y v)),
     v).
Proof.
  intros H Hx Hy. unfold get_mouse_color. rewrite H.
  apply Z.leb_le in Hx, Hy. now rewrite Hx, Hy.
Qed.

(** The first half of the pointer-status contract: with the pointer
    away from the item, a new frame emits (False, opaque black) and
    leaves the item as the frame made it. *)
Lemma on_new_pixmap_pointer_absent (frame : Qt.QPixmap) (s : TcamScreen.t) :
  mouse_over (TcamScreen.pix s) = false ->
  TcamScreen.on_new_pixmap frame s
  = TcamScreen.Returned
      {| TcamScreen.pix := setPixmap frame (TcamScreen.pix s);
         TcamScreen.zoom_factor := TcamScreen.zoom_factor s;
         TcamScreen.transformationAnchor := TcamScreen.transformationAnchor s;
         TcamScreen.resizeAnchor := TcamScreen.resizeAnchor s;
         TcamScreen.scene_position := TcamScreen.scene_position s;
         TcamScreen.view_ops := TcamScreen.view_ops s;
         TcamScreen.emitted :=
           TcamScreen.emitted s ++ [(false, Qt.RGBA 0 0 0 255)] |}.
Proof.
  intros H. unfold TcamScreen.on_new_pixmap, TcamScreen.send_mouse_pixel.
  cbn [TcamScreen.pix TcamScreen.emitted TcamScreen.zoom_factor
       TcamScreen.transformationAnchor TcamScreen.resizeAnchor
       TcamScreen.scene_position TcamScreen.view_ops].
  rewrite get_mouse_color_not_over by exact H.
  cbn [setPixmap mouse_over]. now rewrite H.
Qed.

(** For a coordinate strictly beyond the width or the height of the
    new frame the coordinate is reset, but no status comes of it:
    [get_mouse_color] returns [None], which the signal does not take,
    and the slot raises [TypeError]. *)
Lemma on_new_pixmap_pointer_beyond (frame : Qt.QPixmap) (s : TcamScreen.t) :
  mouse_over (TcamScreen.pix s) = true ->
  Qt.width frame < mouse_position_x (TcamScreen.pix s)
  \/ Qt.height frame < mouse_position_y (TcamScreen.pix s) ->
  TcamScreen.on_new_pixmap frame s
  = TcamScreen.Raised Py.TypeError
      {| TcamScreen.pix :=
           coordinate_reset (setPixmap frame (TcamScreen.pix s));
         TcamScreen.zoom_factor := TcamScreen.zoom_factor s;
         TcamScreen.transformationAnchor := TcamScreen.transformationAnchor s;
         TcamScreen.resizeAnchor := TcamScreen.resizeAnchor s;
         TcamScreen.scene_position := TcamScreen.scene_position s;
         TcamScreen.view_ops := TcamScreen.view_ops s;
         TcamScreen.emitted := TcamScreen.emitted s |}.
Proof.
  intros H Hout. unfold TcamScreen.on_new_pixmap, TcamScreen.send_mouse_pixel.
  cbn [TcamScreen.pix TcamScreen.emitted TcamScreen.zoom_factor
       TcamScreen.transformationAnchor TcamScreen.resizeAnchor
       TcamScreen.scene_position TcamScreen.view_ops].
  rewrite get_mouse_color_beyond; [ | exact H | exact Hout].
  reflexivity.
Qed.

(** C8. The second half of the contract fails on the edge.  The screen
    shows a 1280x720 frame with the pointer over it at (640, 10); a
    640x480 frame arrives.  The coordinate is now outside the bitmap (no
    pixel has x = 640), yet the code queries that pixel, emits
    (True, invalid colour) and keeps the coordinate (640, 10) instead of
    resetting it to (-1, -1). *)
Theorem on_new_pixmap_edge_not_reset :
  exists s',
    TcamScreen.on_new_pixmap frame_640x480 hovering_screen
    = TcamScreen.Returned s'
    /\ mouse_over (TcamScreen.pix hovering_screen) = true
    /\ Qt.valid frame_640x480 640 10 = false
    /\ TcamScreen.emitted s'
       = (TcamScreen.emitted hovering_screen ++ [(true, Qt.InvalidColor)])%list
    /\ mouse_position_x (TcamScreen.pix s') = 640
    /\ mouse_position_y (TcamScreen.pix s') = 10
    /\ TcamScreen.pix s'
       <> coordinate_reset (setPixmap frame_640x480
                              (TcamScreen.pix hovering_screen)).
Proof.
  eexists. split; [vm_compute; reflexivity|].
  split; [reflexivity|]. split; [reflexivity|]. split; [reflexivity|].
  split; [reflexivity|]. split; [reflexivity|].
  intros H. apply (f_equal mouse_position_x) in H. discriminate H.
Qed.

(** C10. With the pointer over the item, the bounds test of
    [get_mouse_color] accepts every coordinate up to and including the
    width and the height: there the pixel at the recorded coordinate is
    queried and nothing is reset, although a coordinate equal to the
    width or to the height is not a valid pixel coordinate; the reset
    branch ([None], coordinate (-1, -1)) is taken exactly when a
    coordinate is strictly greater than its dimension. *)
Theorem get_mouse_color_bounds_test (v : ViewItem.t) :
  mouse_over v = true ->
  let x := mouse_position_x v in
  let y := mouse_position_y v in
  let w := Qt.width (pixmap v) in
  let h := Qt.height (pixmap v) in
  (x <= w /\ y <= h ->
   get_mouse_color v = (Some (Qt.pixelColor (pixmap v) x y), v))
  /\ (x = w \/ y = h -> Qt.valid (pixmap v) x y = false)
  /\ (w < x \/ h < y -> get_mouse_color v = (None, coordinate_reset v))
  /\ (fst (get_mouse_color v) = None <-> w < x \/ h < y).
Proof.
  intros H x y w h. repeat split.
  - intros [Hx Hy]. now apply get_mouse_color_within.
  - intros [Hx | Hy]; unfold Qt.valid; fold x y w h.
    + replace (x <? w) with false by (symmetry; apply Z.ltb_ge; lia).
      now rewrite andb_false_r.
    + replace (y <? h) with false by (symmetry; apply Z.ltb_ge; lia).
      now rewrite andb_false_r.
  - intros Hout. now apply get_mouse_color_beyond.
  - intros Hnone.
    destruct (Z_le_gt_dec x w) as [Hx|Hx]; [ | left; lia].
    destruct (Z_le_gt_dec y h) as [Hy|Hy]; [ | right; lia].
    rewrite get_mouse_color_within in Hnone by assumption. discriminate.
  - intros Hout. now rewrite get_mouse_color_beyond.
Qed.

Lemma get_mouse_color_bounds_test_witness :
  let v := TcamScreen.pix
             (TcamScreen.final
                (TcamScreen.on_new_pixmap frame_640x480 hovering_screen)) in
  mouse_over v = true
  /\ get_mouse_color v = (Some (Qt.pixelColor (pixmap v) 640 10), v)
  /\ Qt.valid (pixmap v) 640 10 = false.
Proof.
  cbv zeta.
  pose proof (get_mouse_color_bounds_test
                (TcamScreen.pix
                   (TcamScreen.final
                      (TcamScreen.on_new_pixmap frame_640x480
                         hovering_screen)))
                eq_refl) as (Hin & Hedge & _).
  split; [reflexivity | split].
  - apply Hin. simpl. lia.
  - apply Hedge. left. reflexivity.
Defined.

End PixelUnderMouse.

(** ** TcamView: pipeline control and error delivery *)

Section PipelineControl.

Import TcamView Samples.

Lemma invoked_app (a b : list event) :
  invoked (a ++ b) = (invoked a ++ invoked b)%list.
Proof.
  induction a as [|e a IH]; simpl; [reflexivity|].
  destruct e; simpl; now rewrite IH.
Qed.

Lemma requests_app (a b : list event) :
  requests (a ++ b) = (requests a ++ requests b)%list.
Proof.
  induction a as [|e a IH]; simpl; [reflexivity|].
  destruct e; simpl; now rewrite IH.
Qed.

(** Running the observers touches nothing but the trace, to which it
    appends one call per observer, in list order. *)
Lemma for_each_invoke (cbs : list callback) :
  forall s,
    for_each cbs (fun cb => emit (Invoke cb)) s
    = Returned tt
        {| serial := serial s;
           pipeline := pipeline s;
           is_fullscreen := is_fullscreen s;
           fullscreen_container := fullscreen_container s;
           device_lost_callbacks := device_lost_callbacks s;
           trace := trace s ++ map Invoke cbs |}.
Proof.
  induction cbs as [|cb cbs IH]; intros s.
  - simpl. unfold ret. rewrite app_nil_r. now destruct s.
  - simpl. unfold mbind, emit. rewrite IH. simpl.
    now rewrite <- app_assoc.
Qed.

Lemma invoked_map_Invoke (cbs : list callback) :
  invoked (map Invoke cbs) = cbs.
Proof. induction cbs; simpl; congruence. Qed.

Lemma requests_map_Invoke (cbs : list callback) :
  requests (map Invoke cbs) = [].
Proof. induction cbs; simpl; congruence. Qed.

(** Registration appends: the list is in registration order. *)
Lemma register_all_callbacks (cbs : list callback) :
  forall s,
    exists s',
      for_each cbs register_device_lost s = Returned tt s'
      /\ device_lost_callbacks s' = (device_lost_callbacks s ++ cbs)%list
      /\ trace s' = trace s
      /\ pipeline s' = pipeline s.
Proof.
  induction cbs as [|cb cbs IH]; intros s.
  - exists s. simpl. rewrite app_nil_r. auto.
  - simpl. unfold mbind at 1. unfold register_device_lost at 1.
    destruct (IH {| serial := serial s;
                    pipeline := pipeline s;
                    is_fullscreen := is_fullscreen s;
                    fullscreen_container := fullscreen_container s;
                    device_lost_callbacks := device_lost_callbacks s ++ [cb];
                    trace := trace s |}) as (s' & -> & Hcb & Htr & Hp).
    exists s'. simpl in *. rewrite Hcb, <- app_assoc. auto.
Qed.

(** What [on_error] does, branch by branch. *)
Lemma on_error_cases (msg : Gst.ErrorMessage) (s : t) :
  exists s',
    on_error msg s = Returned tt s'
    /\ pipeline s' = pipeline s
    /\ device_lost_callbacks s' = device_lost_callbacks s
    /\ requests (trace s') = requests (trace s)
    /\ invoked (trace s')
       = (invoked (trace s)
          ++ if String.eqb (Gst.src_name msg) "tcambin-source"
                && String.eqb (Gst.err_message msg) "Device lost"
             then device_lost_callbacks s else [])%list.
Proof.
  unfold on_error.
  destruct (String.eqb (Gst.src_name msg) "tcambin-source");
    [destruct (String.eqb (Gst.err_message msg) "Device lost") | ]; simpl.
  - unfold mbind, emit, fire_device_lost. rewrite for_each_invoke. simpl.
    eexists. split; [reflexivity|]. simpl.
    rewrite !requests_app, !invoked_app, requests_map_Invoke,
      invoked_map_Invoke. simpl. rewrite !app_nil_r. auto.
  - unfold emit. eexists. split; [reflexivity|]. simpl.
    rewrite requests_app, invoked_app. simpl. rewrite !app_nil_r. auto.
  - unfold mbind, emit.
    destruct (truthy (Gst.dbg msg)); unfold ret;
      (eexists; split; [reflexivity|]); simpl;
      rewrite ?requests_app, ?invoked_app; simpl; rewrite ?app_nil_r; auto.
Qed.

(** C1. Let observers [cbs] be registered, in that order, on a view
    that already has some.  An error whose source is the device source
    and whose text is exactly "Device lost" makes [on_error] call every
    registered observer once, in registration order; an error with any
    other text, or from any other element, makes it call none. *)
Theorem on_error_notifies_observers
  (s : t) (cbs : list callback) (msg : Gst.ErrorMessage) :
  exists s1 s2,
    for_each cbs register_device_lost s = Returned tt s1
    /\ on_error msg s1 = Returned tt s2
    /\ (Gst.src_name msg = "tcambin-source" ->
        Gst.err_message msg = "Device lost" ->
        invoked (trace s2)
        = (invoked (trace s) ++ device_lost_callbacks s ++ cbs)%list)
    /\ (Gst.src_name msg <> "tcambin-source"
        \/ Gst.err_message msg <> "Device lost" ->
        invoked (trace s2) = invoked (trace s)).
Proof.
  destruct (register_all_callbacks cbs s) as (s1 & Hreg & Hcb & Htr & _).
  destruct (on_error_cases msg s1) as (s2 & Herr & _ & _ & _ & Hinv).
  exists s1, s2. split; [assumption|]. split; [assumption|]. split.
  - intros Hsrc Htxt. rewrite Hinv, Hsrc, Htxt, Htr, Hcb. reflexivity.
  - intros Hother. rewrite Hinv, Htr.
    destruct (String.eqb_spec (Gst.src_name msg) "tcambin-source") as [Hs|Hs];
      destruct (String.eqb_spec (Gst.err_message msg) "Device lost") as [Ht|Ht];
      simpl; rewrite ?app_nil_r; try reflexivity.
    destruct Hother; contradiction.
Qed.

Lemma on_error_notifies_observers_witness :
  invoked
    (trace
       (final
          (on_error device_lost
             (final (for_each [Callback 1; Callback 2] register_device_lost
                       (init "12345678"))))))
  = [Callback 1; Callback 2]
  /\ invoked
       (trace
          (final
             (on_error {| Gst.src_name := "tcambin-source";
                          Gst.err_message := "Internal data stream error.";
                          Gst.dbg := None |}
                (final (for_each [Callback 1; Callback 2] register_device_lost
                          (init "12345678"))))))
     = [].
Proof.
  split.
  - destruct (on_error_notifies_observers
                (init "12345678") [Callback 1; Callback 2] device_lost)
      as (s1 & s2 & H1 & H2 & Hlost & _).
    rewrite H1. cbn [final]. rewrite H2. cbn [final].
    exact (Hlost eq_refl eq_refl).
  - destruct (on_error_notifies_observers
                (init "12345678") [Callback 1; Callback 2]
                {| Gst.src_name := "tcambin-source";
                   Gst.err_message := "Internal data stream error.";
                   Gst.dbg := None |})
      as (s1 & s2 & H1 & H2 & _ & Hother).
    rewrite H1. cbn [final]. rewrite H2. cbn [final].
    apply Hother. right. discriminate.
Defined.

(** C2, as the code has it.  Handling a "Device lost" error of the
    source logs it, calls the observers and does nothing after that:
    [on_error] asks the streaming engine for nothing, so the pipeline
    handle and its state are what they were - the pipeline is not
    stopped by the widget, and no reconnect is attempted either. *)
Theorem on_error_leaves_pipeline_alone (s : t) (msg : Gst.ErrorMessage) :
  Gst.src_name msg = "tcambin-source" ->
  Gst.err_message msg = "Device lost" ->
  exists s',
    on_error msg s = Returned tt s'
    /\ trace s'
       = (trace s
          ++ Log ERROR "Received device lost message"
             :: map Invoke (device_lost_callbacks s))%list
    /\ pipeline s' = pipeline s
    /\ requests (trace s') = requests (trace s).
Proof.
  intros Hsrc Htxt. unfold on_error. rewrite Hsrc, Htxt.
  cbn [String.eqb Ascii.eqb Bool.eqb].
  unfold mbind, emit, fire_device_lost. rewrite for_each_invoke.
  cbn [trace pipeline device_lost_callbacks].
  eexists. split; [reflexivity|]. cbn [trace pipeline].
  split; [now rewrite <- app_assoc|]. split; [reflexivity|].
  rewrite !requests_app, requests_map_Invoke. cbn [requests].
  now rewrite !app_nil_r.
Qed.

Lemma on_error_leaves_pipeline_alone_witness :
  exists s',
    on_error device_lost playing_view = Returned tt s'
    /\ option_map Gst.state (pipeline s') = Some Gst.PLAYING
    /\ requests (trace s') = requests (trace playing_view).
Proof.
  destruct (on_error_leaves_pipeline_alone playing_view device_lost
              eq_refl eq_refl) as (s' & H & _ & Hp & Hr).
  exists s'. split; [exact H|]. split; [|exact Hr].
  rewrite Hp. reflexivity.
Defined.

(** C2 fails as stated: on a playing view with two observers, handling
    "Device lost" invokes both observers and leaves the pipeline in
    PLAYING; no NULL request was made. *)
Lemma on_error_does_not_stop :
  let s' := final (on_error device_lost playing_view) in
  option_map Gst.state (pipeline playing_view) = Some Gst.PLAYING
  /\ invoked (trace s') = [Callback 1; Callback 2]
  /\ option_map Gst.state (pipeline s') = Some Gst.PLAYING
  /\ ~ stopped s'
  /\ ~ In (SetState Gst.NULL) (trace s').
Proof.
  cbv zeta.
  split; [vm_compute; reflexivity|].
  split; [vm_compute; reflexivity|].
  split; [vm_compute; reflexivity|].
  split.
  - unfold stopped. vm_compute. discriminate.
  - vm_compute. intros H.
    repeat (destruct H as [H|H]; [discriminate H|]). exact H.
Qed.

(** [stop()] on a view that has a pipeline: it returns, having requested
    NULL and nothing else. *)
Lemma stop_with_pipeline (s : t) (p : Gst.Pipeline) :
  pipeline s = Some p ->
  exists s',
    stop s = Returned tt s'
    /\ pipeline s' = Some {| Gst.description := Gst.description p;
                             Gst.state := Gst.NULL;
                             Gst.device_caps := Gst.device_caps p |}
    /\ requests (trace s') = (requests (trace s) ++ [SetState Gst.NULL])%list.
Proof.
  intros Hp. unfold stop, mbind, emit, set_state, mbind, the_pipeline.
  simpl. rewrite Hp. unfold emit, set_pipeline. simpl.
  eexists. split; [reflexivity|]. simpl. split; [reflexivity|].
  rewrite !requests_app. simpl. now rewrite !app_nil_r.
Qed.

(** Stopping a stopped pipeline leaves it as it is. *)
Lemma stop_idempotent (s : t) (p : Gst.Pipeline) :
  pipeline s = Some p ->
  exists s1 s2,
    stop s = Returned tt s1 /\ stop s1 = Returned tt s2
    /\ pipeline s2 = pipeline s1.
Proof.
  intros Hp.
  destruct (stop_with_pipeline s p Hp) as (s1 & H1 & Hp1 & _).
  destruct (stop_with_pipeline s1 _ Hp1) as (s2 & H2 & Hp2 & _).
  exists s1, s2. repeat split; try assumption.
  rewrite Hp2, Hp1. reflexivity.
Qed.

(** C3. On a freshly constructed view - no pipeline yet - [stop()]
    does not succeed: after its first log line it raises
    [AttributeError], and no NULL request is made. *)
Theorem stop_before_pipeline_raises (serial : string) :
  stop (init serial)
  = Raised Py.AttributeError
      {| TcamView.serial := serial;
         pipeline := None;
         is_fullscreen := false;
         fullscreen_container := None;
         device_lost_callbacks := [];
         trace := [Log INFO "Setting state to NULL"] |}.
Proof. reflexivity. Qed.

(** C4. [play] always returns, and the requests it adds to the trace
    are, in this order: the construction of the pipeline when there is
    none; a NULL request when the pipeline is in PLAYING; the
    [device-caps] constraint when a format string is given; and last the
    PLAYING request. *)
Theorem play_request_order (video_format : option string) (s : t) :
  exists s',
    play video_format s = Returned tt s'
    /\ requests (trace s')
       = (requests (trace s)
          ++ match pipeline s with
             | None => create_requests (serial s)
             | Some _ => []
             end
          ++ match pipeline s with
             | Some p =>
                 if Gst.State_eqb (Gst.state p) Gst.PLAYING
                 then [SetState Gst.NULL] else []
             | None => []
             end
          ++ match video_format with
             | Some f => [SetDeviceCaps f]
             | None => []
             end
          ++ [SetState Gst.PLAYING])%list
    /\ option_map Gst.state (pipeline s') = Some Gst.PLAYING
    /\ (forall f, video_format = Some f ->
        option_map Gst.device_caps (pipeline s') = Some (Some f)).
Proof.
  destruct s as [ser pl fs fc cbs tr].
  destruct pl as [[d st caps]|]; [destruct st | ]; destruct video_format as [f|];
    cbv [play mbind ret create_pipeline set_pipeline emit get_state
         the_pipeline set_state set_device_caps pipeline serial trace
         is_fullscreen fullscreen_container device_lost_callbacks
         Gst.State_eqb Gst.state Gst.description Gst.device_caps];
    (eexists; split; [reflexivity|]);
    cbv [pipeline serial trace option_map create_requests
         Gst.State_eqb Gst.state Gst.device_caps];
    rewrite ?requests_app; cbn [requests app];
    rewrite <- ?app_assoc, ?app_nil_r; cbn [app];
    (split; [reflexivity|]); (split; [reflexivity|]);
    intros f' Hf; congruence.
Qed.

(** C9. Whatever event [eventFilter] is given - an F11 key press
    included - the comparison of the bound method [event.type] with
    [QEvent.KeyPress] is false: the filter returns what
    [QObject.eventFilter] returns and the view, its fullscreen flag
    included, is untouched. *)
Theorem eventFilter_never_toggles (event : Qt.QEvent) (s : t) :
  Py.obj_eq (Qt.attr_type event) Qt.QEvent_KeyPress = false
  /\ eventFilter event s = Returned (Qt.QObject_eventFilter event) s.
Proof. split; reflexivity. Qed.

(** Had the branch been taken, an F11 press would have switched to
    fullscreen. *)
Example toggle_fullscreen_switches (serial : string) :
  is_fullscreen (final (toggle_fullscreen (init serial))) = true.
Proof. reflexivity. Qed.

End PipelineControl.

(** ** Python strings *)

Section PyStrings.
Import Py.

Lemma startswith_app (n q : string) : startswith n (n ++ q) = true.
Proof.
  induction n as [|c n IH]; simpl; [reflexivity|].
  now rewrite Ascii.eqb_refl.
Qed.




Lemma all_chars_app (P : ascii -> bool) (s t : string) :
  all_chars P (s ++ t) = all_chars P s && all_chars P t.
Proof.
  induction s as [|c s IH]; simpl; [reflexivity|].
  now rewrite IH, andb_assoc.
Qed.







End PyStrings.

(** ** TcamView.create_format_menu *)

Section MenuBuilder.

Import Py FormatMenu.

Lemma dict_update_ext (k : string) (f g : Qt.FmtMenu -> Qt.FmtMenu) (d : format_dict) :
  (forall m, f m = g m) -> dict_update k f d = dict_update k g d.
Proof.
  intros H. induction d as [|[k' m] d IH]; simpl; [reflexivity|].
  destruct (String.eqb k' k); [now rewrite H | now rewrite IH].
Qed.

Lemma dict_update_twice (k : string) (f g : Qt.FmtMenu -> Qt.FmtMenu) (d : format_dict) :
  dict_update k g (dict_update k f d) = dict_update k (fun m => g (f m)) d.
Proof.
  induction d as [|[k' m] d IH]; simpl; [reflexivity|].
  destruct (String.eqb k' k) eqn:E; simpl; rewrite E; [reflexivity | now rewrite IH].
Qed.

Lemma update_last_snoc {A} (f : A -> A) (l : list A) (x : A) :
  update_last f (l ++ [x]) = (l ++ [f x])%list.
Proof.
  induction l as [|y l IH]; simpl; [reflexivity|].
  rewrite IH. destruct (l ++ [x])%list eqn:E; [|reflexivity].
  now destruct l.
Qed.

Lemma addAction_append_sub (a : Qt.QAction) (r : string) (acts : list Qt.QAction) (m : Qt.FmtMenu) :
  addAction a (append_sub {| Qt.res_title := r; Qt.actions := acts |} m)
  = append_sub {| Qt.res_title := r; Qt.actions := acts ++ [a] |} m.
Proof.
  unfold addAction, append_sub. simpl. now rewrite update_last_snoc.
Qed.

Lemma addMenu_append_sub (r : string) (m : Qt.FmtMenu) :
  addMenu r m = append_sub {| Qt.res_title := r; Qt.actions := [] |} m.
Proof. reflexivity. Qed.

(** Adding the actions one by one to the submenu added last amounts to
    adding the finished submenu. *)
Lemma add_actions_fold (k r : string) (mk : string -> Qt.QAction) (rs : list string) :
  forall (acts : list Qt.QAction) (d : format_dict),
    fold_left (fun d rate => dict_update k (addAction (mk rate)) d) rs
      (dict_update k (append_sub {| Qt.res_title := r; Qt.actions := acts |}) d)
    = dict_update k
        (append_sub {| Qt.res_title := r; Qt.actions := acts ++ map mk rs |}) d.
Proof.
  induction rs as [|rate rs IH]; intros acts d; simpl.
  - now rewrite app_nil_r.
  - rewrite dict_update_twice.
    rewrite (dict_update_ext k _
               (append_sub {| Qt.res_title := r; Qt.actions := acts ++ [mk rate] |}))
      by (intros m; apply addAction_append_sub).
    rewrite IH, <- app_assoc. reflexivity.
Qed.

Lemma read_entry_raises (fmt : Gst.Structure) (x : exn) :
  read_entry fmt = Raise x -> x = TypeError.
Proof.
  unfold read_entry, collapse_format, Gst.get_value, str_in, bind.
  destruct (contains "ANY" (Gst.name fmt)); [discriminate|].
  destruct (String.eqb (Gst.name fmt) "image/jpeg").
  - destruct (contains "BGRx" (Gst.name fmt)); [destruct (contains "GRAY" (Gst.name fmt))|]; simpl;
    try discriminate;
    try destruct (String.eqb (Gst.name fmt) "None"); try discriminate;
    destruct (Gst.lookup fmt "width"); try congruence;
    destruct (Gst.lookup fmt "height"); congruence.
  - destruct (Gst.lookup fmt "format") as [|f| | | | |]; try congruence.
    destruct (contains "BGRx" f); [destruct (contains "GRAY" f)|]; simpl;
    try discriminate;
    try destruct (String.eqb f "None"); try discriminate;
    destruct (Gst.lookup fmt "width"); try congruence;
    destruct (Gst.lookup fmt "height"); congruence.
Qed.

(** The identifiers that reach [format_dict]: [GRAY8], or a name without BGRx. *)
Lemma collapse_format_key (v : pyval) (k : string) :
  collapse_format v = Ok (Some k) ->
  k = "GRAY8" \/ (v = PyStr k /\ contains "BGRx" k = false).
Proof.
  unfold collapse_format, str_in, bind.
  destruct v as [| |s| | |]; try discriminate.
  destruct (contains "BGRx" s) eqn:E; [destruct (contains "GRAY" s)|]; simpl;
    try discriminate.
  - intros [= <-]. now left.
  - destruct (String.eqb s "None"); [discriminate|]. intros [= <-]. right. now split.
Qed.

Lemma read_entry_key (fmt : Gst.Structure) (e : entry) :
  read_entry fmt = Ok (Some e) ->
  contains "BGRx" (format_string e) = false
  /\ format_name e = Gst.name fmt
  /\ Gst.get_value fmt "width" = Ok (width e)
  /\ Gst.get_value fmt "height" = Ok (height e).
Proof.
  unfold read_entry.
  destruct (contains "ANY" (Gst.name fmt)); [discriminate|].
  destruct (if String.eqb (Gst.name fmt) "image/jpeg"
            then Ok (PyStr (Gst.name fmt)) else Gst.get_value fmt "format") as [v|]; simpl; [|discriminate].
  destruct (collapse_format v) as [[k|]|] eqn:Ek; simpl; try discriminate.
  destruct (Gst.get_value fmt "width") as [w|]; simpl; [|discriminate].
  destruct (Gst.get_value fmt "height") as [h|]; simpl; [|discriminate].
  intros [= <-]. simpl. repeat split.
  destruct (collapse_format_key _ _ Ek) as [-> | [_ H]]; [reflexivity | exact H].
Qed.

Lemma retained_read_entry (fmt : Gst.Structure) (e : entry) :
  retained fmt = Some e ->
  read_entry fmt = Ok (Some e)
  /\ contains "None" (f_str e) = false
  /\ contains "range" (format_string e) = false
  /\ contains "]x[" (res_menu_string e) = false.
Proof.
  unfold retained, try_block.
  destruct (read_entry fmt) as [[e'|]|]; simpl; try discriminate.
  destruct (contains "None" (f_str e')) eqn:H2; simpl; try discriminate.
  destruct (contains "range" (format_string e')) eqn:H3; simpl; try discriminate.
  destruct (contains "]x[" (res_menu_string e')) eqn:H4; simpl; try discriminate.
  intros [= <-]. auto.
Qed.

Lemma retained_intro (fmt : Gst.Structure) (e : entry) :
  read_entry fmt = Ok (Some e) ->
  contains "None" (f_str e) = false ->
  contains "range" (format_string e) = false ->
  contains "]x[" (res_menu_string e) = false ->
  retained fmt = Some e.
Proof.
  intros H1 H2 H3 H4. unfold retained, try_block. now rewrite H1, H2, H3, H4.
Qed.


Lemma loop_body_cases (d : format_dict) (fmt : Gst.Structure) :
  iteration d fmt (loop_body d fmt).
Proof.
  unfold loop_body, try_block.
  destruct (read_entry fmt) as [[e|]|x] eqn:He.
  - destruct (contains "None" (f_str e)) eqn:H2; [now apply it_title_only|].
    destruct (contains "range" (format_string e)) eqn:H3; [now apply it_title_only|].
    destruct (contains "]x[" (res_menu_string e)) eqn:H4; [now apply it_title_only|].
    pose proof (retained_intro _ _ He H2 H3 H4) as Hr.
    rewrite (dict_update_ext _ _ _ _ (addMenu_append_sub (res_menu_string e))).
    destruct (get_framerates fmt) as [[v|rs]|x]; simpl;
      try (now apply (it_raised _ _ e)).
    + destruct v; simpl; try (now apply (it_raised _ _ e));
        try (now apply it_submenu).
      rewrite (add_actions_fold _ _ (make_action e) _ []). now apply it_submenu.
    + rewrite (add_actions_fold _ _ (make_action e) rs []). now apply it_submenu.
  - apply it_dropped.
  - rewrite (read_entry_raises _ _ He). apply it_dropped.
Qed.

(** *** Menus survive the rest of the scan *)

Lemma loop_app (a b : list Gst.Structure) :
  forall d, loop (a ++ b) d = (d' <- loop a d ;; loop b d').
Proof.
  induction a as [|fmt a IH]; intros d; simpl; [reflexivity|].
  destruct (loop_body d fmt); simpl; [apply IH | reflexivity].
Qed.

Lemma dict_setdefault_In (k : string) (d : format_dict) (km : string * Qt.FmtMenu) :
  In km d -> In km (dict_setdefault k d).
Proof.
  unfold dict_setdefault. destruct (dict_mem k d); [auto|].
  intros H. apply in_or_app. now left.
Qed.

Lemma dict_update_In (k' : string) (f : Qt.FmtMenu -> Qt.FmtMenu)
  (d : format_dict) (k : string) (m : Qt.FmtMenu) :
  In (k, m) d ->
  In (k, m) (dict_update k' f d) \/ In (k, f m) (dict_update k' f d).
Proof.
  induction d as [|[k0 m0] d IH]; simpl; [tauto|].
  intros [[= -> ->] | H]; destruct (String.eqb k k') eqn:E.
  - right. now left.
  - left. now left.
  - destruct (String.eqb k0 k'); [left; now right|].
    destruct (IH H); [left | right]; now right.
  - destruct (String.eqb k0 k'); [left; now right|].
    destruct (IH H); [left | right]; now right.
Qed.

Lemma dict_update_present (k : string) (f : Qt.FmtMenu -> Qt.FmtMenu) (d : format_dict) :
  dict_mem k d = true ->
  exists m, In (k, m) d /\ In (k, f m) (dict_update k f d).
Proof.
  induction d as [|[k0 m0] d IH]; simpl; [discriminate|].
  destruct (String.eqb_spec k0 k) as [->|Hne]; simpl.
  - intros _. exists m0. split; now left.
  - intros H. destruct (IH H) as (m & H1 & H2). exists m. split; now right.
Qed.

Lemma dict_mem_setdefault (k : string) (d : format_dict) :
  dict_mem k (dict_setdefault k d) = true.
Proof.
  unfold dict_setdefault. destruct (dict_mem k d) eqn:E; [exact E|].
  induction d as [|[k0 m0] d IH]; simpl.
  - now rewrite String.eqb_refl.
  - simpl in E. apply orb_false_iff in E. destruct E as [E1 E2].
    rewrite E1. simpl. now apply IH.
Qed.

Lemma titled_setdefault (k : string) (d : format_dict) :
  titled d -> titled (dict_setdefault k d).
Proof.
  unfold titled, dict_setdefault. intros H k' m.
  destruct (dict_mem k d); [apply H|].
  intros Hin. apply in_app_or in Hin. destruct Hin as [Hin | [[= <- <-] | []]].
  - now apply H.
  - reflexivity.
Qed.

Lemma dict_update_In_inv (k' : string) (f : Qt.FmtMenu -> Qt.FmtMenu)
  (d : format_dict) (k : string) (m : Qt.FmtMenu) :
  In (k, m) (dict_update k' f d) ->
  In (k, m) d \/ exists m0, In (k, m0) d /\ m = f m0.
Proof.
  induction d as [|[k0 m0] d IH]; simpl; [tauto|].
  destruct (String.eqb k0 k').
  - intros [[= <- <-] | H]; [right; exists m0; split; [now left | reflexivity]|].
    left. now right.
  - intros [[= <- <-] | H]; [left; now left|].
    destruct (IH H) as [H1 | (m1 & H1 & H2)]; [left; now right|].
    right. exists m1. split; [now right | exact H2].
Qed.

Lemma titled_update (k : string) (sub : Qt.ResMenu) (d : format_dict) :
  titled d -> titled (dict_update k (append_sub sub) d).
Proof.
  intros H k' m Hin.
  destruct (dict_update_In_inv _ _ _ _ _ Hin) as [H1 | (m0 & H1 & ->)].
  - now apply H.
  - simpl. now apply H.
Qed.

Lemma offers_setdefault (k' : string) (d : format_dict) (k : string) (sub : Qt.ResMenu) :
  offers d k sub -> offers (dict_setdefault k' d) k sub.
Proof.
  intros (top & H1 & H2). exists top. split; [|exact H2].
  now apply dict_setdefault_In.
Qed.

Lemma offers_update (k' : string) (s' : Qt.ResMenu) (d : format_dict)
  (k : string) (sub : Qt.ResMenu) :
  offers d k sub -> offers (dict_update k' (append_sub s') d) k sub.
Proof.
  intros (top & H1 & H2).
  destruct (dict_update_In k' (append_sub s') _ _ _ H1) as [H | H].
  - exists top. now split.
  - exists (append_sub s' top). split; [exact H|].
    simpl. apply in_or_app. now left.
Qed.

Lemma iteration_keeps (d d' : format_dict) (fmt : Gst.Structure) :
  iteration d fmt (Ok d') ->
  (titled d -> titled d')
  /\ (forall k sub, offers d k sub -> offers d' k sub).
Proof.
  intros H. inversion H; subst.
  - auto.
  - split; [apply titled_setdefault | intros; now apply offers_setdefault].
  - split.
    + intros Ht. now apply titled_update, titled_setdefault.
    + intros k sub Ho. now apply offers_update, offers_setdefault.
Qed.

Lemma loop_keeps (formats : list Gst.Structure) :
  forall d d',
    loop formats d = Ok d' ->
    (titled d -> titled d')
    /\ (forall k sub, offers d k sub -> offers d' k sub).
Proof.
  induction formats as [|fmt formats IH]; intros d d'; simpl.
  - intros [= <-]. auto.
  - pose proof (loop_body_cases d fmt) as Hit.
    destruct (loop_body d fmt) as [d1|x]; simpl; [|discriminate].
    intros Hrest. destruct (iteration_keeps _ _ _ Hit) as [Ht Ho].
    destruct (IH _ _ Hrest) as [Ht' Ho']. split; auto.
Qed.

(** *** No menu is titled with a BGRx format *)

Lemma keys_setdefault (P : string -> Prop) (k : string) (d : format_dict) :
  P k -> (forall k' m, In (k', m) d -> P k') ->
  forall k' m, In (k', m) (dict_setdefault k d) -> P k'.
Proof.
  intros Hk Hd k' m. unfold dict_setdefault.
  destruct (dict_mem k d); [apply Hd|].
  intros Hin. apply in_app_or in Hin.
  destruct Hin as [Hin | [[= <- <-] | []]]; [now apply (Hd k' m) | exact Hk].
Qed.

Lemma keys_update (P : string -> Prop) (k : string)
  (f : Qt.FmtMenu -> Qt.FmtMenu) (d : format_dict) :
  (forall k' m, In (k', m) d -> P k') ->
  forall k' m, In (k', m) (dict_update k f d) -> P k'.
Proof.
  intros Hd k' m Hin.
  destruct (dict_update_In_inv _ _ _ _ _ Hin) as [H | (m0 & H & _)];
    now apply (Hd k' _ H).
Qed.

Lemma iteration_keys (d d' : format_dict) (fmt : Gst.Structure) :
  iteration d fmt (Ok d') ->
  (forall k m, In (k, m) d -> contains "BGRx" k = false) ->
  forall k m, In (k, m) d' -> contains "BGRx" k = false.
Proof.
  intros Hit Hd. inversion Hit as [ | e Hread | e acts Hr | ]; subst.
  - exact Hd.
  - apply keys_setdefault; [|exact Hd]. now destruct (read_entry_key _ _ Hread).
  - apply keys_update, keys_setdefault; [|exact Hd].
    destruct (retained_read_entry _ _ Hr) as (Hread & _).
    now destruct (read_entry_key _ _ Hread).
Qed.

Lemma loop_keys (formats : list Gst.Structure) :
  forall d d',
    loop formats d = Ok d' ->
    (forall k m, In (k, m) d -> contains "BGRx" k = false) ->
    forall k m, In (k, m) d' -> contains "BGRx" k = false.
Proof.
  induction formats as [|fmt formats IH]; intros d d'; simpl.
  - intros [= <-]. auto.
  - pose proof (loop_body_cases d fmt) as Hit.
    destruct (loop_body d fmt) as [d1|x]; simpl; [|discriminate].
    intros Hrest Hd. apply (IH _ _ Hrest). now apply (iteration_keys d d1 fmt).
Qed.

(** Whatever the capability list, no top-level menu of the menu built
    from it carries a title with BGRx in it. *)
Lemma create_format_menu_no_bgrx (formats : list Gst.Structure) (m : Qt.QMenu) :
  create_format_menu formats = Ok m ->
  Forall (fun t => contains "BGRx" (Qt.fmt_title t) = false) (Qt.menus m).
Proof.
  unfold create_format_menu.
  destruct (loop formats []) as [d|x] eqn:E; simpl; [|discriminate].
  intros [= <-]. cbn [Qt.menus].
  destruct (loop_keeps _ _ _ E) as [Ht _].
  assert (Htitled : titled d) by (apply Ht; intros k m []).
  pose proof (loop_keys _ _ _ E (fun k m (H : In (k, m) []) => match H with end))
    as Hkeys.
  apply Forall_forall. intros t Hin. apply in_map_iff in Hin.
  destruct Hin as ([k t'] & <- & Hin). cbn [snd].
  rewrite (Htitled _ _ Hin). exact (Hkeys _ _ Hin).
Qed.

End MenuBuilder.

Section FormatMenuClaims.

Import Py FormatMenu Samples.

Lemma loop_body_scans (d : format_dict) (fmt : Gst.Structure) :
  scans fmt = true -> exists d', loop_body d fmt = Ok d'.
Proof.
  intros Hs. pose proof (loop_body_cases d fmt) as Hit.
  destruct (loop_body d fmt) as [d'|x] eqn:E; [now exists d'|].
  exfalso. inversion Hit as [ | | |e x' Hr]; subst.
  destruct (retained_read_entry _ _ Hr) as (H1 & H2 & H3 & H4).
  unfold scans in Hs. rewrite Hr in Hs.
  unfold loop_body, try_block in E. rewrite H1, H2, H3, H4 in E.
  destruct (get_framerates fmt) as [[v|rs]|]; simpl in E; try discriminate.
  destruct v; simpl in E; discriminate.
Qed.

Lemma loop_scans (formats : list Gst.Structure) :
  forallb scans formats = true ->
  forall d, exists d', loop formats d = Ok d'.
Proof.
  induction formats as [|fmt formats IH]; simpl; intros H d.
  - now exists d.
  - apply andb_true_iff in H. destruct H as [H1 H2].
    destruct (loop_body_scans d fmt H1) as [d1 ->]. simpl. now apply IH.
Qed.

Lemma retained_scans (fmt : Gst.Structure) (e : entry) (rs : list string) :
  retained fmt = Some e -> get_framerates fmt = Ok (RatesList rs) ->
  scans fmt = true.
Proof. intros Hr Hf. unfold scans. now rewrite Hr, Hf. Qed.



(** *** The five kinds of capability entries *)

Lemma str_append_assoc (a b c : string) : (a ++ b) ++ c = a ++ b ++ c.
Proof. induction a as [|x a IH]; simpl; [reflexivity | now rewrite IH]. Qed.





(** A wildcard entry is dropped before anything is read from it. *)
Lemma loop_body_wildcard (d : format_dict) (fmt : Gst.Structure) :
  contains "ANY" (Gst.name fmt) = true -> loop_body d fmt = Ok d.
Proof.
  intros H. unfold loop_body, try_block, read_entry. now rewrite H.
Qed.










(** The sample list and its menu, entry by entry. *)
Example sample_menu_entries :
  option_map entries
    (match create_format_menu
             [caps_bgrx; caps_mixed; caps_jpeg; caps_range; caps_any] with
     | Ok m => Some m
     | Raise _ => None
     end)
  = Some
      [ {| Qt.res_title := "640x480";
           Qt.actions :=
             [ {| Qt.text := "5/1";
                  Qt.toolTip := "Set format to 'GRAY8 - 640x480@5/1'";
                  Qt.triggered :=
                    "video/x-raw,format=GRAY8,width=640,height=480,framerate=5/1" |};
               {| Qt.text := "10/1";
                  Qt.toolTip := "Set format to 'GRAY8 - 640x480@10/1'";
                  Qt.triggered :=
                    "video/x-raw,format=GRAY8,width=640,height=480,framerate=10/1" |};
               {| Qt.text := "30/1";
                  Qt.toolTip := "Set format to 'GRAY8 - 640x480@30/1'";
                  Qt.triggered :=
                    "video/x-raw,format=GRAY8,width=640,height=480,framerate=30/1" |} ] |};
        {| Qt.res_title := "1920x1080";
           Qt.actions :=
             [ {| Qt.text := "15/1";
                  Qt.toolTip := "Set format to 'image/jpeg - 1920x1080@15/1'";
                  Qt.triggered :=
                    "image/jpeg,,width=1920,height=1080,framerate=15/1" |};
               {| Qt.text := "30/1";
                  Qt.toolTip := "Set format to 'image/jpeg - 1920x1080@30/1'";
                  Qt.triggered :=
                    "image/jpeg,,width=1920,height=1080,framerate=30/1" |} ] |} ].
Proof. vm_compute. reflexivity. Qed.

End FormatMenuClaims.

(** ** Sequences of calls on a view *)

Section Sessions.

Import TcamView Session Samples.

Lemma launches_app (a b : list event) :
  launches (a ++ b) = (launches a + launches b)%nat.
Proof.
  induction a as [|e a IH]; simpl; [reflexivity|].
  destruct e; simpl; now rewrite IH.
Qed.

(** [eventFilter] returns and leaves the view as it is. *)
Lemma eventFilter_unchanged (ev : Qt.QEvent) (s : t) :
  exists b, eventFilter ev s = Returned b s.
Proof. eexists. reflexivity. Qed.

(** What [play] leaves behind, field by field. *)
Lemma play_effect (video_format : option string) (s : t) :
  exists s',
    play video_format s = Returned tt s'
    /\ serial s' = serial s
    /\ is_fullscreen s' = is_fullscreen s
    /\ fullscreen_container s' = fullscreen_container s
    /\ device_lost_callbacks s' = device_lost_callbacks s
    /\ pipeline s'
       = Some {| Gst.description :=
                   match pipeline s with
                   | Some p => Gst.description p
                   | None => pipeline_str (serial s)
                   end;
                 Gst.state := Gst.PLAYING;
                 Gst.device_caps :=
                   match video_format with
                   | Some f => Some f
                   | None => match pipeline s with
                             | Some p => Gst.device_caps p
                             | None => None
                             end
                   end |}
    /\ launches (trace s')
       = (launches (trace s)
          + match pipeline s with None => 1 | Some _ => 0 end)%nat
    /\ requests (trace s')
       = (requests (trace s)
          ++ match pipeline s with
             | None => create_requests (serial s)
             | Some p =>
                 if Gst.State_eqb (Gst.state p) Gst.PLAYING
                 then [SetState Gst.NULL] else []
             end
          ++ match video_format with
             | Some f => [SetDeviceCaps f]
             | None => []
             end
          ++ [SetState Gst.PLAYING])%list.
Proof.
  destruct s as [ser pl fs fc cbs tr].
  destruct pl as [[d st caps]|]; [destruct st | ]; destruct video_format as [f|];
    cbv [play mbind ret create_pipeline set_pipeline emit get_state
         the_pipeline set_state set_device_caps pipeline serial trace
         is_fullscreen fullscreen_container device_lost_callbacks
         Gst.State_eqb Gst.state Gst.description Gst.device_caps];
    (eexists; split; [reflexivity|]);
    cbv [pipeline serial trace is_fullscreen fullscreen_container
         device_lost_callbacks create_requests
         Gst.State_eqb Gst.state Gst.device_caps Gst.description];
    rewrite ?requests_app, ?launches_app; cbn [requests launches app];
    rewrite <- ?app_assoc, ?app_nil_r, ?Nat.add_0_r; cbn [app];
    repeat (split; [reflexivity|]); try reflexivity.
Qed.

(** [pause] and [stop] on a view that has a pipeline. *)
Lemma set_state_call_effect (c : call) (st : Gst.State) (s : t) (p : Gst.Pipeline) :
  (c = Pause /\ st = Gst.PAUSED) \/ (c = Stop /\ st = Gst.NULL) ->
  pipeline s = Some p ->
  exists s',
    perform c s = Returned tt s'
    /\ serial s' = serial s
    /\ is_fullscreen s' = is_fullscreen s
    /\ fullscreen_container s' = fullscreen_container s
    /\ device_lost_callbacks s' = device_lost_callbacks s
    /\ pipeline s' = Some {| Gst.description := Gst.description p;
                             Gst.state := st;
                             Gst.device_caps := Gst.device_caps p |}
    /\ launches (trace s') = launches (trace s)
    /\ requests (trace s') = (requests (trace s) ++ [SetState st])%list.
Proof.
  intros [[-> ->] | [-> ->]] Hp; destruct s as [ser pl fs fc cbs tr];
    cbn [pipeline] in Hp; subst pl;
    cbv [perform pause stop mbind ret set_pipeline emit the_pipeline set_state
         pipeline serial trace is_fullscreen fullscreen_container
         device_lost_callbacks];
    (eexists; split; [reflexivity|]);
    cbv [pipeline serial trace is_fullscreen fullscreen_container
         device_lost_callbacks];
    rewrite ?requests_app, ?launches_app; cbn [requests launches app];
    rewrite <- ?app_assoc, ?app_nil_r, ?Nat.add_0_r; cbn [app];
    repeat (split; [reflexivity|]); try reflexivity.
Qed.

(** [pause] and [stop] without a pipeline: the log line, then the
    exception. *)
Lemma set_state_call_raises (c : call) (s : t) :
  c = Pause \/ c = Stop ->
  pipeline s = None ->
  exists line,
    perform c s
    = Raised Py.AttributeError
        {| serial := serial s;
           pipeline := None;
           is_fullscreen := is_fullscreen s;
           fullscreen_container := fullscreen_container s;
           device_lost_callbacks := device_lost_callbacks s;
           trace := trace s ++ [Log INFO line] |}.
Proof.
  intros [-> | ->] Hp; destruct s as [ser pl fs fc cbs tr];
    cbn [pipeline] in Hp; subst pl; eexists; reflexivity.
Qed.

(** [on_error] changes the trace only, and adds to it nothing but log
    lines and observer calls. *)
Lemma on_error_effect (msg : Gst.ErrorMessage) (s : t) :
  exists extra,
    on_error msg s
    = Returned tt
        {| serial := serial s;
           pipeline := pipeline s;
           is_fullscreen := is_fullscreen s;
           fullscreen_container := fullscreen_container s;
           device_lost_callbacks := device_lost_callbacks s;
           trace := trace s ++ extra |}
    /\ requests extra = []
    /\ launches extra = 0%nat.
Proof.
  unfold on_error.
  destruct (String.eqb (Gst.src_name msg) "tcambin-source");
    [destruct (String.eqb (Gst.err_message msg) "Device lost") | ].
  - unfold mbind, emit, fire_device_lost. rewrite for_each_invoke.
    cbn [serial pipeline is_fullscreen fullscreen_container
         device_lost_callbacks trace].
    exists (Log ERROR "Received device lost message"
              :: map Invoke (device_lost_callbacks s)).
    rewrite <- app_assoc. split; [reflexivity|]. cbn [requests launches].
    split; [apply requests_map_Invoke|].
    induction (device_lost_callbacks s); simpl; auto.
  - unfold emit. eexists. split; [reflexivity|]. split; reflexivity.
  - unfold mbind, emit. destruct (truthy (Gst.dbg msg)); unfold ret, emit;
      cbn [serial pipeline is_fullscreen fullscreen_container
           device_lost_callbacks trace];
      rewrite <- ?app_assoc; eexists; (split; [reflexivity|]);
      split; reflexivity.
Qed.

Lemma perform_keeps_construction (ser : string) (c : call) (s : t) :
  constructed_once ser s -> constructed_once ser (final (perform c s)).
Proof.
  intros [Hser Hp]. destruct c as [f| | |msg|cb|ev|].
  - cbn [perform].
    destruct (play_effect f s) as (s' & -> & Hs & _ & _ & _ & Hpl & Hl & _).
    cbn [final]. split; [congruence|]. rewrite Hpl, Hl.
    destruct (pipeline s) as [p|]; cbn [Gst.description].
    + destruct Hp as [Hl1 Hd]. split; [lia | exact Hd].
    + split; [lia | now rewrite Hser].
  - destruct (pipeline s) as [p|] eqn:E.
    + destruct (set_state_call_effect Pause Gst.PAUSED s p (or_introl (conj eq_refl eq_refl)) E)
        as (s' & -> & Hs & _ & _ & _ & Hpl & Hl & _).
      cbn [final]. split; [congruence|]. rewrite Hpl, Hl. exact Hp.
    + destruct (set_state_call_raises Pause s (or_introl eq_refl) E) as (line & ->).
      cbn [final]. split; [exact Hser|]. cbn [pipeline trace].
      rewrite launches_app, Hp. reflexivity.
  - destruct (pipeline s) as [p|] eqn:E.
    + destruct (set_state_call_effect Stop Gst.NULL s p (or_intror (conj eq_refl eq_refl)) E)
        as (s' & -> & Hs & _ & _ & _ & Hpl & Hl & _).
      cbn [final]. split; [congruence|]. rewrite Hpl, Hl. exact Hp.
    + destruct (set_state_call_raises Stop s (or_intror eq_refl) E) as (line & ->).
      cbn [final]. split; [exact Hser|]. cbn [pipeline trace].
      rewrite launches_app, Hp. reflexivity.
  - cbn [perform]. destruct (on_error_effect msg s) as (extra & -> & _ & Hl).
    cbn [final]. split; [exact Hser|]. cbn [pipeline trace].
    rewrite launches_app, Hl, Nat.add_0_r. exact Hp.
  - cbn [perform register_device_lost final]. split; [exact Hser | exact Hp].
  - cbn [perform]. unfold mbind.
    destruct (eventFilter_unchanged ev s) as [b ->]. cbn [final ret].
    split; [exact Hser | exact Hp].
  - cbn [perform]. unfold toggle_fullscreen.
    destruct (is_fullscreen s); cbn [final]; (split; [exact Hser | exact Hp]).
Qed.

Lemma run_keeps_construction (ser : string) (calls : list call) :
  forall s, constructed_once ser s -> constructed_once ser (final (run calls s)).
Proof.
  induction calls as [|c calls IH]; intros s H; [exact H|].
  cbn [run]. unfold mbind.
  pose proof (perform_keeps_construction ser c s H) as H1.
  destruct (perform c s) as [[] s'|e s']; cbn [final] in *; auto.
Qed.

(** X1.  Whatever calls are made on a freshly constructed view - [play],
    [pause], [stop], [on_error], [register_device_lost], [eventFilter]
    and [toggle_fullscreen], in any order and up to the first
    exception - [Gst.parse_launch] runs at most once: [create_pipeline]
    is reached only from a [play] that finds no pipeline.  The view has
    a pipeline exactly when one was launched, and its description is
    the pipeline string for the view's own serial. *)
Theorem session_constructs_pipeline_once (ser : string) (calls : list call) :
  let s := final (run calls (init ser)) in
  serial s = ser
  /\ (launches (trace s) <= 1)%nat
  /\ (pipeline s = None <-> launches (trace s) = 0%nat)
  /\ (forall p, pipeline s = Some p -> Gst.description p = pipeline_str ser).
Proof.
  cbv zeta.
  destruct (run_keeps_construction ser calls (init ser)) as [Hser Hp];
    [split; reflexivity|].
  split; [exact Hser|].
  destruct (pipeline (final (run calls (init ser)))) as [p|].
  - destruct Hp as [Hl Hd]. rewrite Hl.
    split; [lia|]. split; [split; discriminate|].
    intros p' [= <-]. exact Hd.
  - rewrite Hp. split; [lia|]. split; [tauto|]. discriminate.
Qed.

Lemma run_with_pipeline (calls : list call) :
  forall s p,
    pipeline s = Some p ->
    exists s' p',
      run calls s = Returned tt s'
      /\ pipeline s' = Some p'
      /\ Gst.device_caps p' = last_format calls (Gst.device_caps p).
Proof.
  induction calls as [|c calls IH]; intros s p Hp.
  - exists s, p. cbn [run last_format]. unfold ret. auto.
  - cbn [run]. unfold mbind. destruct c as [f| | |msg|cb|ev|].
    + cbn [perform].
      destruct (play_effect f s) as (s1 & -> & _ & _ & _ & _ & Hpl & _).
      destruct (IH s1 _ Hpl) as (s' & p' & Hrun & Hp' & Hcaps).
      exists s', p'. split; [exact Hrun|]. split; [exact Hp'|].
      rewrite Hcaps, Hp. cbn [Gst.device_caps last_format].
      now destruct f.
    + destruct (set_state_call_effect Pause Gst.PAUSED s p
                  (or_introl (conj eq_refl eq_refl)) Hp)
        as (s1 & -> & _ & _ & _ & _ & Hpl & _).
      destruct (IH s1 _ Hpl) as (s' & p' & Hrun & Hp' & Hcaps).
      exists s', p'. auto.
    + destruct (set_state_call_effect Stop Gst.NULL s p
                  (or_intror (conj eq_refl eq_refl)) Hp)
        as (s1 & -> & _ & _ & _ & _ & Hpl & _).
      destruct (IH s1 _ Hpl) as (s' & p' & Hrun & Hp' & Hcaps).
      exists s', p'. auto.
    + cbn [perform]. destruct (on_error_effect msg s) as (extra & -> & _).
      apply IH. exact Hp.
    + cbn [perform register_device_lost]. apply IH. exact Hp.
    + cbn [perform]. unfold mbind.
      destruct (eventFilter_unchanged ev s) as [b ->]. cbn [ret].
      apply IH. exact Hp.
    + cbn [perform]. unfold toggle_fullscreen.
      destruct (is_fullscreen s); apply IH; exact Hp.
Qed.

(** X2.  Once [play] has returned, no later call of a session raises:
    every [pause], [stop] and [play] finds the pipeline.  The view ends
    with a pipeline whose device caps are the format of the last
    [play] that was given one, or what they were before if none was. *)
Theorem session_after_play_never_raises
  (video_format : option string) (calls : list call) (s : t) :
  exists s' p',
    run (Play video_format :: calls) s = Returned tt s'
    /\ pipeline s' = Some p'
    /\ Gst.device_caps p'
       = last_format (Play video_format :: calls)
           (match pipeline s with
            | Some p => Gst.device_caps p
            | None => None
            end).
Proof.
  cbn [run perform]. unfold mbind.
  destruct (play_effect video_format s) as (s1 & -> & _ & _ & _ & _ & Hpl & _).
  destruct (run_with_pipeline calls s1 _ Hpl) as (s' & p' & Hrun & Hp' & Hcaps).
  exists s', p'. split; [exact Hrun|]. split; [exact Hp'|].
  rewrite Hcaps. cbn [Gst.device_caps last_format].
  now destruct video_format.
Qed.

(** X3.  [play] on a view that is already playing requests NULL first,
    then sets the device caps if a format is given, then requests
    PLAYING, in this order; no second pipeline is launched. *)
Theorem play_while_playing_resets_first (f1 f2 : option string) (s : t) :
  exists s1 s2,
    play f1 s = Returned tt s1
    /\ play f2 s1 = Returned tt s2
    /\ requests (trace s2)
       = (requests (trace s1)
          ++ SetState Gst.NULL
             :: match f2 with
                | Some f => [SetDeviceCaps f]
                | None => []
                end
          ++ [SetState Gst.PLAYING])%list
    /\ launches (trace s2) = launches (trace s1).
Proof.
  destruct (play_effect f1 s) as (s1 & H1 & _ & _ & _ & _ & Hpl & _).
  destruct (play_effect f2 s1) as (s2 & H2 & _ & _ & _ & _ & _ & Hl & Hr).
  exists s1, s2. split; [exact H1|]. split; [exact H2|].
  rewrite Hr, Hl, Hpl. cbn [Gst.state Gst.State_eqb app].
  split; [reflexivity | lia].
Qed.

(** X4.  On a view without a pipeline [pause] and [stop] both raise
    [AttributeError]: neither has the guard [play] has.  Nothing is
    requested of the streaming engine and the view still has no
    pipeline afterwards. *)
Theorem set_state_without_pipeline_raises (s : t) :
  pipeline s = None ->
  exists s1 s2,
    pause s = Raised Py.AttributeError s1
    /\ stop s = Raised Py.AttributeError s2
    /\ pipeline s1 = None /\ pipeline s2 = None
    /\ requests (trace s1) = requests (trace s)
    /\ requests (trace s2) = requests (trace s).
Proof.
  intros Hp.
  destruct (set_state_call_raises Pause s (or_introl eq_refl) Hp) as (l1 & H1).
  destruct (set_state_call_raises Stop s (or_intror eq_refl) Hp) as (l2 & H2).
  cbn [perform] in H1, H2. rewrite H1, H2.
  eexists. eexists. split; [reflexivity|]. split; [reflexivity|].
  cbn [pipeline trace]. rewrite !requests_app. cbn [requests].
  rewrite !app_nil_r. auto.
Qed.

Lemma set_state_without_pipeline_raises_witness :
  exists s1 s2,
    pause (init "12345678") = Raised Py.AttributeError s1
    /\ stop (init "12345678") = Raised Py.AttributeError s2
    /\ requests (trace s1) = [] /\ requests (trace s2) = [].
Proof.
  destruct (set_state_without_pipeline_raises (init "12345678") eq_refl)
    as (s1 & s2 & H1 & H2 & _ & _ & Hr1 & Hr2).
  exists s1, s2. auto.
Defined.

(** X5.  [on_error] returns for every message, whatever its source and
    text, and leaves every field of the view as it found it: serial,
    pipeline, fullscreen state and registered observers.  It asks the
    streaming engine for nothing, and it calls no observer unless the
    message comes from [tcambin-source]. *)
Theorem on_error_changes_trace_only (msg : Gst.ErrorMessage) (s : t) :
  exists s',
    on_error msg s = Returned tt s'
    /\ serial s' = serial s
    /\ pipeline s' = pipeline s
    /\ is_fullscreen s' = is_fullscreen s
    /\ fullscreen_container s' = fullscreen_container s
    /\ device_lost_callbacks s' = device_lost_callbacks s
    /\ requests (trace s') = requests (trace s)
    /\ (Gst.src_name msg <> "tcambin-source" -> invoked (trace s') = invoked (trace s)).
Proof.
  destruct (on_error_cases msg s) as (s' & H & Hp & Hc & Hr & Hi).
  destruct (on_error_effect msg s) as (extra & H' & _).
  exists s'. split; [exact H|].
  rewrite H in H'. injection H' as ->. cbn [serial is_fullscreen fullscreen_container].
  repeat (split; [reflexivity || assumption|]).
  intros Hsrc. cbn [trace] in Hi. cbn [trace]. rewrite Hi.
  destruct (String.eqb_spec (Gst.src_name msg) "tcambin-source"); [contradiction|].
  cbn [andb]. apply app_nil_r.
Qed.

(** X6.  [stop] does not look at the state the pipeline is in: called
    twice on a view with a pipeline it requests NULL twice, and the
    second call leaves the pipeline as the first one did. *)
Theorem stop_twice_requests_null_twice (s : t) (p : Gst.Pipeline) :
  pipeline s = Some p ->
  exists s1 s2,
    stop s = Returned tt s1
    /\ stop s1 = Returned tt s2
    /\ pipeline s2 = pipeline s1
    /\ requests (trace s2)
       = (requests (trace s)
          ++ [SetState Gst.NULL; SetState Gst.NULL])%list.
Proof.
  intros Hp.
  destruct (stop_with_pipeline s p Hp) as (s1 & H1 & Hp1 & Hr1).
  destruct (stop_with_pipeline s1 _ Hp1) as (s2 & H2 & Hp2 & Hr2).
  exists s1, s2. split; [exact H1|]. split; [exact H2|].
  split; [now rewrite Hp2, Hp1|].
  rewrite Hr2, Hr1, <- app_assoc. reflexivity.
Qed.

Lemma stop_twice_requests_null_twice_witness :
  exists s1 s2,
    stop playing_view = Returned tt s1
    /\ stop s1 = Returned tt s2
    /\ pipeline s2 = pipeline s1
    /\ requests (trace s2)
       = (requests (trace playing_view)
          ++ [SetState Gst.NULL; SetState Gst.NULL])%list.
Proof.
  eapply (stop_twice_requests_null_twice playing_view).
  vm_compute. reflexivity.
Defined.

(** Fullscreen state along a session. *)
Lemma perform_fullscreen (c : call) (s : t) :
  let s' := final (perform c s) in
  match c with
  | ToggleFullscreen =>
      is_fullscreen s' = negb (is_fullscreen s)
      /\ fullscreen_container s'
         = if is_fullscreen s then None else Some TcamScreen.init
  | _ =>
      is_fullscreen s' = is_fullscreen s
      /\ fullscreen_container s' = fullscreen_container s
  end.
Proof.
  cbv zeta. destruct c as [f| | |msg|cb|ev|].
  - cbn [perform].
    destruct (play_effect f s) as (s1 & -> & _ & H1 & H2 & _). now cbn [final].
  - destruct (pipeline s) as [p|] eqn:E.
    + destruct (set_state_call_effect Pause Gst.PAUSED s p
                  (or_introl (conj eq_refl eq_refl)) E)
        as (s1 & -> & _ & H1 & H2 & _). now cbn [final].
    + destruct (set_state_call_raises Pause s (or_introl eq_refl) E) as (l & ->).
      now cbn [final].
  - destruct (pipeline s) as [p|] eqn:E.
    + destruct (set_state_call_effect Stop Gst.NULL s p
                  (or_intror (conj eq_refl eq_refl)) E)
        as (s1 & -> & _ & H1 & H2 & _). now cbn [final].
    + destruct (set_state_call_raises Stop s (or_intror eq_refl) E) as (l & ->).
      now cbn [final].
  - cbn [perform]. destruct (on_error_effect msg s) as (extra & -> & _).
    now cbn [final].
  - now cbn [perform register_device_lost final].
  - cbn [perform]. unfold mbind.
    destruct (eventFilter_unchanged ev s) as [b ->]. now cbn [ret final].
  - cbn [perform]. unfold toggle_fullscreen.
    destruct (is_fullscreen s); now cbn [final].
Qed.

Lemma run_fullscreen (calls : list call) :
  forall s s',
    run calls s = Returned tt s' ->
    fullscreen_container s
    = (if is_fullscreen s then Some TcamScreen.init else None) ->
    is_fullscreen s' = xorb (is_fullscreen s) (Nat.odd (toggles calls))
    /\ fullscreen_container s'
       = (if is_fullscreen s' then Some TcamScreen.init else None).
Proof.
  induction calls as [|c calls IH]; intros s s'.
  - cbn [run toggles]. unfold ret. intros [= <-] H.
    split; [now rewrite xorb_false_r | exact H].
  - cbn [run]. unfold mbind. pose proof (perform_fullscreen c s) as Hc.
    cbv zeta in Hc.
    destruct (perform c s) as [[] s1|e s1]; [|discriminate].
    cbn [final] in Hc. intros Hrun Hcons.
    assert (Hcons1 : fullscreen_container s1
                     = (if is_fullscreen s1 then Some TcamScreen.init
                        else None)).
    { destruct c; destruct Hc as [Hf Hk]; rewrite Hk, Hf;
        try exact Hcons. now destruct (is_fullscreen s). }
    destruct (IH s1 s' Hrun Hcons1) as [H1 H2].
    split; [|exact H2]. rewrite H1.
    destruct c; destruct Hc as [Hf _]; rewrite Hf; cbn [toggles];
      try reflexivity.
    rewrite Nat.odd_succ, <- Nat.negb_odd.
    now destruct (is_fullscreen s), (Nat.odd (toggles calls)).
Qed.

(** X7.  After a session on a freshly constructed view the view is in
    fullscreen mode exactly when [toggle_fullscreen] was called an odd
    number of times, and it holds a fullscreen screen - a new one, as
    constructed - exactly then.  No other call counts, [eventFilter]
    with an F11 key press included. *)
Theorem session_fullscreen_follows_toggles
  (ser : string) (calls : list call) (s : t) :
  run calls (init ser) = Returned tt s ->
  is_fullscreen s = Nat.odd (toggles calls)
  /\ fullscreen_container s
     = (if Nat.odd (toggles calls) then Some TcamScreen.init else None).
Proof.
  intros Hrun.
  destruct (run_fullscreen calls (init ser) s Hrun eq_refl) as [H1 H2].
  cbn [is_fullscreen init xorb] in H1.
  rewrite H2, H1. now destruct (Nat.odd (toggles calls)).
Qed.

Lemma session_fullscreen_follows_toggles_witness :
  exists s,
    run [EventFilter {| Qt.type_value := 6; Qt.key := Qt.Key_F11 |};
         Play None; ToggleFullscreen; OnError device_lost;
         ToggleFullscreen; ToggleFullscreen] (init "12345678")
    = Returned tt s
    /\ is_fullscreen s = true
    /\ fullscreen_container s = Some TcamScreen.init.
Proof.
  eexists. split; [vm_compute; reflexivity|].
  refine (session_fullscreen_follows_toggles "12345678"
            [EventFilter {| Qt.type_value := 6; Qt.key := Qt.Key_F11 |};
             Play None; ToggleFullscreen; OnError device_lost;
             ToggleFullscreen; ToggleFullscreen] _ _).
  vm_compute. reflexivity.
Defined.

End Sessions.

(** ** Streams of frames *)

Section FrameStreams.

Import ViewItem Stream Samples.

(** A frame the slot returns from changes the item's bitmap and
    nothing else of the item; it adds one status to the emissions and
    touches neither the zoom nor the view's transformation. *)
Lemma on_new_pixmap_shape (frame : Qt.QPixmap) (s s' : TcamScreen.t) :
  TcamScreen.on_new_pixmap frame s = TcamScreen.Returned s' ->
  TcamScreen.pix s' = setPixmap frame (TcamScreen.pix s)
  /\ TcamScreen.zoom_factor s' = TcamScreen.zoom_factor s
  /\ TcamScreen.view_ops s' = TcamScreen.view_ops s
  /\ TcamScreen.scene_position s' = TcamScreen.scene_position s
  /\ exists status,
       TcamScreen.emitted s' = (TcamScreen.emitted s ++ [status])%list
       /\ fst status = mouse_over (TcamScreen.pix s).
Proof.
  unfold TcamScreen.on_new_pixmap, TcamScreen.send_mouse_pixel.
  cbn [TcamScreen.pix TcamScreen.emitted TcamScreen.zoom_factor
       TcamScreen.transformationAnchor TcamScreen.resizeAnchor
       TcamScreen.scene_position TcamScreen.view_ops].
  unfold get_mouse_color.
  cbn [setPixmap mouse_over mouse_position_x mouse_position_y pixmap].
  destruct (mouse_over (TcamScreen.pix s)) eqn:Hover;
    [destruct ((mouse_position_x (TcamScreen.pix s) <=? Qt.width frame)
               && (mouse_position_y (TcamScreen.pix s) <=? Qt.height frame)) | ];
    intros [= <-];
    cbn [TcamScreen.pix TcamScreen.emitted TcamScreen.zoom_factor
         TcamScreen.scene_position TcamScreen.view_ops];
    (split; [unfold setPixmap; now rewrite ?Hover|]);
    (split; [reflexivity|]); (split; [reflexivity|]); (split; [reflexivity|]);
    eexists; split; reflexivity.
Qed.

(** The slot returns unless the pointer is over the image with its
    coordinate strictly beyond the frame. *)
Lemma on_new_pixmap_returns (frame : Qt.QPixmap) (s : TcamScreen.t) :
  (mouse_over (TcamScreen.pix s) = true ->
   mouse_position_x (TcamScreen.pix s) <= Qt.width frame
   /\ mouse_position_y (TcamScreen.pix s) <= Qt.height frame) ->
  exists s', TcamScreen.on_new_pixmap frame s = TcamScreen.Returned s'.
Proof.
  intros H. destruct (mouse_over (TcamScreen.pix s)) eqn:Hover.
  - destruct (H eq_refl) as [Hx Hy].
    unfold TcamScreen.on_new_pixmap, TcamScreen.send_mouse_pixel.
    cbn [TcamScreen.pix].
    rewrite get_mouse_color_within;
      cbn [setPixmap mouse_over mouse_position_x mouse_position_y pixmap];
      [ | exact Hover | exact Hx | exact Hy].
    eexists. reflexivity.
  - rewrite (on_new_pixmap_pointer_absent frame s Hover). eexists. reflexivity.
Qed.

Lemma last_cons_default {A : Type} (x d : A) (l : list A) :
  last (x :: l) d = last l x.
Proof.
  revert x d. induction l as [|y l IH]; intros x d; [reflexivity|].
  change (last (x :: y :: l) d) with (last (y :: l) d).
  now rewrite (IH y d), (IH y x).
Qed.

(** What a run of frames leaves when every slot call returns. *)
Lemma frames_returned (fs : list Qt.QPixmap) :
  forall s s',
    frames fs s = TcamScreen.Returned s' ->
    (exists statuses,
       TcamScreen.emitted s' = (TcamScreen.emitted s ++ statuses)%list
       /\ List.length statuses = List.length fs
       /\ Forall (fun status => fst status = mouse_over (TcamScreen.pix s))
            statuses)
    /\ mouse_over (TcamScreen.pix s') = mouse_over (TcamScreen.pix s)
    /\ mouse_position_x (TcamScreen.pix s')
       = mouse_position_x (TcamScreen.pix s)
    /\ mouse_position_y (TcamScreen.pix s')
       = mouse_position_y (TcamScreen.pix s)
    /\ pixmap (TcamScreen.pix s') = last_frame fs s
    /\ TcamScreen.zoom_factor s' = TcamScreen.zoom_factor s
    /\ TcamScreen.view_ops s' = TcamScreen.view_ops s.
Proof.
  unfold last_frame.
  induction fs as [|f fs IH]; intros s s'.
  - cbn [frames List.length last]. intros [= <-].
    split; [exists []; rewrite app_nil_r; auto | auto 10].
  - cbn [frames].
    destruct (TcamScreen.on_new_pixmap f s) as [s1|e s1] eqn:E; [|discriminate].
    intros Hrest.
    destruct (on_new_pixmap_shape f s s1 E)
      as (Hpix & Hz & Hv & _ & status & Hem & Hst).
    destruct (IH s1 s' Hrest)
      as ((statuses & Iem & Ilen & Iall) & Iover & Ix & Iy & Ipix & Iz & Iv).
    rewrite Hpix in Iover, Ix, Iy, Ipix, Iall.
    cbn [setPixmap mouse_over mouse_position_x mouse_position_y pixmap]
      in Iover, Ix, Iy, Ipix, Iall.
    split.
    { exists (status :: statuses). split.
      - rewrite Iem, Hem, <- app_assoc. reflexivity.
      - split; [cbn [List.length]; now rewrite Ilen|].
        constructor; [exact Hst | exact Iall]. }
    split; [exact Iover|]. split; [exact Ix|]. split; [exact Iy|].
    split; [rewrite Ipix; symmetry; apply last_cons_default|].
    split; congruence.
Qed.

(** A run returns when every frame covers the recorded coordinate, or
    the pointer is away. *)
Lemma frames_return (fs : list Qt.QPixmap) :
  forall s,
    (mouse_over (TcamScreen.pix s) = true ->
     Forall (fun f =>
               mouse_position_x (TcamScreen.pix s) <= Qt.width f
               /\ mouse_position_y (TcamScreen.pix s) <= Qt.height f) fs) ->
    exists s', frames fs s = TcamScreen.Returned s'.
Proof.
  induction fs as [|f fs IH]; intros s H.
  - exists s. reflexivity.
  - cbn [frames].
    destruct (on_new_pixmap_returns f s) as [s1 E].
    { intros Hover. exact (Forall_inv (H Hover)). }
    rewrite E.
    destruct (on_new_pixmap_shape f s s1 E) as (Hpix & _).
    apply IH. rewrite Hpix.
    cbn [setPixmap mouse_over mouse_position_x mouse_position_y].
    intros Hover. exact (Forall_inv_tail (H Hover)).
Qed.

(** X8.  A run of frames delivered to a screen whose pointer is away
    from the image, or over it at a coordinate that none of the frames
    falls short of, returns and adds exactly one pixel status per frame
    to what the screen emitted before, each carrying the hover flag the
    screen had at the start; the screen ends up showing the last frame,
    and neither the hover flag nor the zoom factor nor the view's
    transformation is touched. *)
Theorem every_frame_emits_one_status (fs : list Qt.QPixmap) (s : TcamScreen.t) :
  (mouse_over (TcamScreen.pix s) = true ->
   Forall (fun f =>
             mouse_position_x (TcamScreen.pix s) <= Qt.width f
             /\ mouse_position_y (TcamScreen.pix s) <= Qt.height f) fs) ->
  exists s',
    frames fs s = TcamScreen.Returned s'
    /\ (exists statuses,
          TcamScreen.emitted s' = (TcamScreen.emitted s ++ statuses)%list
          /\ List.length statuses = List.length fs
          /\ Forall (fun status => fst status = mouse_over (TcamScreen.pix s))
               statuses)
    /\ mouse_over (TcamScreen.pix s') = mouse_over (TcamScreen.pix s)
    /\ pixmap (TcamScreen.pix s') = last_frame fs s
    /\ TcamScreen.zoom_factor s' = TcamScreen.zoom_factor s
    /\ TcamScreen.view_ops s' = TcamScreen.view_ops s.
Proof.
  intros H. destruct (frames_return fs s H) as [s' E].
  exists s'. split; [exact E|].
  destruct (frames_returned fs s s' E)
    as (Hem & Hover & _ & _ & Hpix & Hz & Hv).
  auto 10.
Qed.

Lemma every_frame_emits_one_status_witness :
  exists s',
    frames [frame_1280x720; frame_640x480] hovering_screen
    = TcamScreen.Returned s'
    /\ List.length (TcamScreen.emitted s') = 3%nat
    /\ pixmap (TcamScreen.pix s') = frame_640x480.
Proof.
  destruct (every_frame_emits_one_status
              [frame_1280x720; frame_640x480] hovering_screen)
    as (s' & E & (statuses & Hem & Hlen & _) & _ & Hpix & _).
  { intros _. repeat constructor; cbn; lia. }
  exists s'. split; [exact E|]. split; [|exact Hpix].
  rewrite Hem, length_app, Hlen. reflexivity.
Defined.

(** X9.  While the pointer is over the image at a coordinate inside the
    new frame, delivering that frame emits the status (true, colour of
    the new frame at the coordinate): the colour is read from the frame
    just set, not from the one shown before. *)
Theorem frame_reports_pixel_under_pointer (frame : Qt.QPixmap) (s : TcamScreen.t) :
  mouse_over (TcamScreen.pix s) = true ->
  Qt.valid frame (mouse_position_x (TcamScreen.pix s))
    (mouse_position_y (TcamScreen.pix s)) = true ->
  exists s',
    TcamScreen.on_new_pixmap frame s = TcamScreen.Returned s'
    /\ TcamScreen.emitted s'
       = (TcamScreen.emitted s
          ++ [(true, Qt.pixel frame (mouse_position_x (TcamScreen.pix s))
                       (mouse_position_y (TcamScreen.pix s)))])%list
    /\ TcamScreen.pix s' = setPixmap frame (TcamScreen.pix s).
Proof.
  intros Hover Hvalid.
  unfold TcamScreen.on_new_pixmap, TcamScreen.send_mouse_pixel.
  cbn [TcamScreen.pix TcamScreen.emitted TcamScreen.zoom_factor
       TcamScreen.transformationAnchor TcamScreen.resizeAnchor
       TcamScreen.scene_position TcamScreen.view_ops].
  assert (Hin : mouse_position_x (TcamScreen.pix s) <= Qt.width frame
                /\ mouse_position_y (TcamScreen.pix s) <= Qt.height frame).
  { unfold Qt.valid in Hvalid.
    apply andb_true_iff in Hvalid. destruct Hvalid as [Hv Hy].
    apply andb_true_iff in Hv. destruct Hv as [Hv _].
    apply andb_true_iff in Hv. destruct Hv as [_ Hx].
    apply Z.ltb_lt in Hx, Hy. lia. }
  rewrite get_mouse_color_within; cbn [setPixmap mouse_over mouse_position_x
                                        mouse_position_y pixmap];
    [ | exact Hover | apply Hin | apply Hin].
  unfold Qt.pixelColor. rewrite Hvalid, Hover.
  eexists. split; [reflexivity|].
  cbn [TcamScreen.pix TcamScreen.emitted]. split; reflexivity.
Qed.

Lemma frame_reports_pixel_under_pointer_witness :
  exists s',
    TcamScreen.on_new_pixmap frame_1280x720 hovering_screen
    = TcamScreen.Returned s'
    /\ TcamScreen.emitted s'
       = (TcamScreen.emitted hovering_screen
          ++ [(true, Qt.RGBA 200 100 50 255)])%list.
Proof.
  destruct (frame_reports_pixel_under_pointer
              frame_1280x720 hovering_screen eq_refl eq_refl)
    as (s' & E & Hem & _).
  exists s'. split; [exact E | exact Hem].
Defined.

(** One frame over an unset coordinate. *)
Lemma on_new_pixmap_unset (frame : Qt.QPixmap) (s : TcamScreen.t) :
  mouse_over (TcamScreen.pix s) = true ->
  mouse_position_x (TcamScreen.pix s) = -1 ->
  mouse_position_y (TcamScreen.pix s) = -1 ->
  0 <= Qt.width frame -> 0 <= Qt.height frame ->
  exists s',
    TcamScreen.on_new_pixmap frame s = TcamScreen.Returned s'
    /\ TcamScreen.emitted s'
       = (TcamScreen.emitted s ++ [(true, Qt.InvalidColor)])%list
    /\ TcamScreen.pix s' = setPixmap frame (TcamScreen.pix s).
Proof.
  intros Hover Hx Hy Hw Hh.
  unfold TcamScreen.on_new_pixmap, TcamScreen.send_mouse_pixel.
  cbn [TcamScreen.pix TcamScreen.emitted TcamScreen.zoom_factor
       TcamScreen.transformationAnchor TcamScreen.resizeAnchor
       TcamScreen.scene_position TcamScreen.view_ops].
  rewrite get_mouse_color_within; cbn [setPixmap mouse_over mouse_position_x
                                        mouse_position_y pixmap];
    [ | exact Hover | lia | lia].
  rewrite Hover, Hx, Hy. unfold Qt.pixelColor, Qt.valid. cbn [Z.leb Z.compare andb].
  eexists. split; [reflexivity|].
  cbn [TcamScreen.pix TcamScreen.emitted]. split; reflexivity.
Qed.

(** X10.  If the pointer has entered the image but no move event has set a
    coordinate yet, the coordinate is the (-1, -1) of the constructor:
    it passes the bounds test of [get_mouse_color], so every frame
    reports the invalid colour [pixelColor] gives outside the image,
    and the coordinate stays (-1, -1). *)
Theorem unset_coordinate_reports_invalid_colour
  (fs : list Qt.QPixmap) (s : TcamScreen.t) :
  mouse_over (TcamScreen.pix s) = true ->
  mouse_position_x (TcamScreen.pix s) = -1 ->
  mouse_position_y (TcamScreen.pix s) = -1 ->
  Forall (fun f => 0 <= Qt.width f /\ 0 <= Qt.height f) fs ->
  exists s',
    frames fs s = TcamScreen.Returned s'
    /\ TcamScreen.emitted s'
       = (TcamScreen.emitted s
          ++ repeat (true, Qt.InvalidColor) (List.length fs))%list
    /\ mouse_position_x (TcamScreen.pix s') = -1
    /\ mouse_position_y (TcamScreen.pix s') = -1.
Proof.
  intros Hover Hx Hy Hfs. revert s Hover Hx Hy.
  induction Hfs as [|f fs [Hw Hh] _ IH]; intros s Hover Hx Hy.
  - exists s. cbn [frames List.length repeat]. rewrite app_nil_r. auto.
  - cbn [frames List.length repeat].
    destruct (on_new_pixmap_unset f s Hover Hx Hy Hw Hh) as (s1 & E & Hem & Hpix).
    rewrite E.
    destruct (IH s1) as (s' & E' & Iem & Ix & Iy);
      try (rewrite Hpix; cbn [setPixmap mouse_over mouse_position_x
                               mouse_position_y]; assumption).
    exists s'. split; [exact E'|].
    rewrite Iem, Hem, <- app_assoc. auto.
Qed.

Lemma unset_coordinate_reports_invalid_colour_witness :
  exists s',
    frames [frame_1280x720; frame_640x480]
      (TcamScreen.hover hoverEnterEvent TcamScreen.init)
    = TcamScreen.Returned s'
    /\ TcamScreen.emitted s'
       = [(true, Qt.InvalidColor); (true, Qt.InvalidColor)].
Proof.
  destruct (unset_coordinate_reports_invalid_colour
              [frame_1280x720; frame_640x480]
              (TcamScreen.hover hoverEnterEvent TcamScreen.init)
              eq_refl eq_refl eq_refl)
    as (s' & E & Hem & _).
  { repeat constructor; discriminate. }
  exists s'. split; [exact E | exact Hem].
Defined.

(** X11.  While the pointer is not over the image every frame reports
    (false, black), and the recorded coordinate is left as it is,
    whatever the sizes of the frames. *)
Theorem frames_without_pointer (fs : list Qt.QPixmap) (s : TcamScreen.t) :
  mouse_over (TcamScreen.pix s) = false ->
  exists s',
    frames fs s = TcamScreen.Returned s'
    /\ TcamScreen.emitted s'
       = (TcamScreen.emitted s
          ++ repeat (false, Qt.RGBA 0 0 0 255) (List.length fs))%list
    /\ mouse_position_x (TcamScreen.pix s')
       = mouse_position_x (TcamScreen.pix s)
    /\ mouse_position_y (TcamScreen.pix s')
       = mouse_position_y (TcamScreen.pix s).
Proof.
  intros Hover. revert s Hover.
  induction fs as [|f fs IH]; intros s Hover.
  - exists s. cbn [frames List.length repeat]. rewrite app_nil_r. auto.
  - cbn [frames List.length repeat].
    rewrite (on_new_pixmap_pointer_absent f s Hover).
    match goal with
    | |- context [frames fs ?s1] =>
        destruct (IH s1) as (s' & E & Iem & Ix & Iy)
    end; [exact Hover|].
    exists s'. split; [exact E|].
    rewrite Iem, Ix, Iy.
    cbn [TcamScreen.emitted TcamScreen.pix setPixmap mouse_position_x
         mouse_position_y].
    rewrite <- app_assoc. auto.
Qed.

Lemma frames_without_pointer_witness :
  exists s',
    frames [frame_640x480; frame_640x480]
      (TcamScreen.hover hoverLeaveEvent hovering_screen)
    = TcamScreen.Returned s'
    /\ TcamScreen.emitted s'
       = (TcamScreen.emitted (TcamScreen.hover hoverLeaveEvent hovering_screen)
          ++ [(false, Qt.RGBA 0 0 0 255); (false, Qt.RGBA 0 0 0 255)])%list
    /\ mouse_position_x (TcamScreen.pix s') = 640.
Proof.
  destruct (frames_without_pointer [frame_640x480; frame_640x480]
              (TcamScreen.hover hoverLeaveEvent hovering_screen) eq_refl)
    as (s' & E & H1 & H2 & _).
  exists s'. split; [exact E|]. split; [exact H1 | exact H2].
Defined.

Lemma frames_app (a b : list Qt.QPixmap) :
  forall s,
    frames (a ++ b) s
    = match frames a s with
      | TcamScreen.Returned s' => frames b s'
      | TcamScreen.Raised e s' => TcamScreen.Raised e s'
      end.
Proof.
  induction a as [|f a IH]; intros s; [reflexivity|].
  change ((f :: a) ++ b)%list with (f :: (a ++ b))%list. cbn [frames].
  destruct (TcamScreen.on_new_pixmap f s); [apply IH | reflexivity].
Qed.

(** X29.  The first frame that falls short of the coordinate recorded
    for a pointer over the image ends the run: [get_mouse_color]
    resets the coordinate to (-1, -1) and returns [None], and emitting
    that on the [(bool, QColor)] signal raises [TypeError].  The frames
    before it were reported, one status each; this frame is shown but
    not reported, and the frames after it are not delivered. *)
Theorem frame_short_of_pointer_raises
  (before after : list Qt.QPixmap) (frame : Qt.QPixmap) (s : TcamScreen.t) :
  mouse_over (TcamScreen.pix s) = true ->
  Forall (fun f =>
            mouse_position_x (TcamScreen.pix s) <= Qt.width f
            /\ mouse_position_y (TcamScreen.pix s) <= Qt.height f) before ->
  Qt.width frame < mouse_position_x (TcamScreen.pix s)
  \/ Qt.height frame < mouse_position_y (TcamScreen.pix s) ->
  exists s' statuses,
    frames (before ++ frame :: after) s = TcamScreen.Raised Py.TypeError s'
    /\ TcamScreen.emitted s' = (TcamScreen.emitted s ++ statuses)%list
    /\ List.length statuses = List.length before
    /\ pixmap (TcamScreen.pix s') = frame
    /\ mouse_position_x (TcamScreen.pix s') = -1
    /\ mouse_position_y (TcamScreen.pix s') = -1.
Proof.
  intros Hover Hbefore Hshort.
  destruct (frames_return before s (fun _ => Hbefore)) as [s1 E1].
  destruct (frames_returned before s s1 E1)
    as ((statuses & Hem & Hlen & _) & Hover1 & Hx1 & Hy1 & _).
  rewrite frames_app, E1. cbn [frames].
  rewrite on_new_pixmap_pointer_beyond;
    [ | now rewrite Hover1 | now rewrite Hx1, Hy1].
  eexists. exists statuses. split; [reflexivity|].
  cbn [TcamScreen.emitted TcamScreen.pix coordinate_reset setPixmap
       pixmap mouse_position_x mouse_position_y].
  auto 10.
Qed.

Lemma frame_short_of_pointer_raises_witness :
  exists s' statuses,
    frames ([frame_1280x720]
              ++ frame_640x480 :: [frame_1280x720])
      (TcamScreen.hover (hoverMoveEvent 700 10) hovering_screen)
    = TcamScreen.Raised Py.TypeError s'
    /\ TcamScreen.emitted s'
       = (TcamScreen.emitted
            (TcamScreen.hover (hoverMoveEvent 700 10) hovering_screen)
          ++ statuses)%list
    /\ List.length statuses = 1%nat
    /\ mouse_position_x (TcamScreen.pix s') = -1.
Proof.
  destruct (frame_short_of_pointer_raises
              [frame_1280x720] [frame_1280x720] frame_640x480
              (TcamScreen.hover (hoverMoveEvent 700 10) hovering_screen)
              eq_refl)
    as (s' & statuses & E & Hem & Hlen & _ & Hx & _).
  { repeat constructor; cbn; lia. }
  { left. cbn. lia. }
  exists s', statuses. auto.
Defined.

End FrameStreams.

(** ** The zoom factor and the view transformation *)

Section ZoomAndView.

Import Float64 Stream.

Lemma scale_product_app (ops : list TcamScreen.view_op)
  (f : float) (dx dy : float) :
  scale_product (ops ++ [TcamScreen.Scale f f; TcamScreen.Translate dx dy])
  = mul (scale_product ops) f.
Proof. unfold scale_product. now rewrite fold_left_app. Qed.

Lemma wheelEvent_keeps_product (event : Qt.QWheelEvent) (s : TcamScreen.t) :
  scale_product (TcamScreen.view_ops s) = TcamScreen.zoom_factor s ->
  Forall wheel_op (TcamScreen.view_ops s) ->
  scale_product (TcamScreen.view_ops (TcamScreen.wheelEvent event s))
  = TcamScreen.zoom_factor (TcamScreen.wheelEvent event s)
  /\ Forall wheel_op (TcamScreen.view_ops (TcamScreen.wheelEvent event s)).
Proof.
  intros Hprod Hops. unfold TcamScreen.wheelEvent.
  cbn [TcamScreen.zoom_factor TcamScreen.view_ops].
  set (f := if Qt.angleDelta_y event >? 0
            then TcamScreen.zoomInFactor else TcamScreen.zoomOutFactor).
  assert (Hf : f = TcamScreen.zoomInFactor \/ f = TcamScreen.zoomOutFactor)
    by (subst f; destruct (Qt.angleDelta_y event >? 0); auto).
  destruct (leb (mul (TcamScreen.zoom_factor s) f) lit_0_64).
  - cbn [TcamScreen.zoom_factor TcamScreen.view_ops]. auto.
  - destruct (Qt.scene_delta event) as [dx dy].
    cbn [TcamScreen.zoom_factor TcamScreen.view_ops].
    rewrite scale_product_app, Hprod. split; [reflexivity|].
    apply Forall_app. split; [exact Hops|].
    constructor; [split; [reflexivity | exact Hf]|].
    constructor; [exact I | constructor].
Qed.

(** X12.  After any sequence of wheel events on a new screen,
    [zoom_factor] is the product, in binary64 arithmetic and in the
    order of the calls, of the factors passed to [scale]: the field
    and the view's transformation never drift apart.  Every scaling is
    uniform and by 1.25 or 1/1.25. *)
Theorem zoom_factor_is_product_of_scales (events : list Qt.QWheelEvent) :
  let s := TcamScreen.wheelEvents events TcamScreen.init in
  scale_product (TcamScreen.view_ops s) = TcamScreen.zoom_factor s
  /\ Forall wheel_op (TcamScreen.view_ops s).
Proof.
  cbv zeta. unfold TcamScreen.wheelEvents.
  assert (H : forall s,
             scale_product (TcamScreen.view_ops s) = TcamScreen.zoom_factor s ->
             Forall wheel_op (TcamScreen.view_ops s) ->
             scale_product
               (TcamScreen.view_ops
                  (fold_left (fun s e => TcamScreen.wheelEvent e s) events s))
             = TcamScreen.zoom_factor
                 (fold_left (fun s e => TcamScreen.wheelEvent e s) events s)
             /\ Forall wheel_op
                  (TcamScreen.view_ops
                     (fold_left (fun s e => TcamScreen.wheelEvent e s) events s))).
  { induction events as [|e events IH]; intros s H1 H2; [now split|].
    cbn [fold_left]. destruct (wheelEvent_keeps_product e s H1 H2).
    now apply IH. }
  apply H; [reflexivity | constructor].
Qed.

Lemma backward_step (z : Z) : z <= 0 -> (z >? 0) = false.
Proof. intros H. rewrite Z.gtb_ltb. apply Z.ltb_ge. exact H. Qed.

(** A zoom-out step at the floor value is rejected. *)
Lemma zoom_out_at_floor (event : Qt.QWheelEvent) (s : TcamScreen.t) :
  Qt.angleDelta_y event <= 0 ->
  TcamScreen.zoom_factor s = S754_finite false 5764607523034236 (-53) ->
  TcamScreen.zoom_factor (TcamScreen.wheelEvent event s)
  = S754_finite false 5764607523034236 (-53)
  /\ TcamScreen.view_ops (TcamScreen.wheelEvent event s) = TcamScreen.view_ops s.
Proof.
  intros Hd Hz. unfold TcamScreen.wheelEvent.
  cbn [TcamScreen.zoom_factor TcamScreen.view_ops].
  rewrite (backward_step _ Hd).
  rewrite Hz.
  replace (leb (mul (S754_finite false 5764607523034236 (-53))
                  TcamScreen.zoomOutFactor) lit_0_64)
    with true by (vm_compute; reflexivity).
  cbn [TcamScreen.zoom_factor TcamScreen.view_ops]. split; reflexivity.
Qed.

(** X13.  Zooming out from the initial factor 1.0: the first two backward
    steps are taken and every further one is rejected, so the zoom
    factor stays at 0.8 * 0.8 in binary64 - just above 0.64 - and the
    view has been scaled and translated twice. *)
Theorem zoom_out_stops_after_two_steps
  (e1 e2 : Qt.QWheelEvent) (events : list Qt.QWheelEvent) :
  Qt.angleDelta_y e1 <= 0 ->
  Qt.angleDelta_y e2 <= 0 ->
  Forall (fun e => Qt.angleDelta_y e <= 0) events ->
  let s := TcamScreen.wheelEvents (e1 :: e2 :: events) TcamScreen.init in
  TcamScreen.zoom_factor s = S754_finite false 5764607523034236 (-53)
  /\ List.length (TcamScreen.view_ops s) = 4%nat.
Proof.
  intros H1 H2 Hall. cbv zeta. unfold TcamScreen.wheelEvents.
  cbn [fold_left].
  set (s2 := TcamScreen.wheelEvent e2 (TcamScreen.wheelEvent e1 TcamScreen.init)).
  assert (Hs2 : TcamScreen.zoom_factor s2 = S754_finite false 5764607523034236 (-53)
                /\ List.length (TcamScreen.view_ops s2) = 4%nat).
  { subst s2.
    pose proof (wheelEvent_accepted e1 TcamScreen.init) as A1.
    cbv zeta in A1. rewrite (backward_step _ H1) in A1.
    destruct A1 as [Z1 V1]; [vm_compute; reflexivity|].
    pose proof (wheelEvent_accepted e2 (TcamScreen.wheelEvent e1 TcamScreen.init))
      as A2.
    cbv zeta in A2. rewrite (backward_step _ H2), Z1 in A2.
    destruct A2 as [Z2 V2]; [vm_compute; reflexivity|].
    rewrite Z2, V2, V1. split; [vm_compute; reflexivity | reflexivity]. }
  clearbody s2. revert s2 Hs2.
  induction Hall as [|e events He _ IH]; intros s2 [Hz Hl]; [now split|].
  cbn [fold_left]. apply IH.
  destruct (zoom_out_at_floor e s2 He Hz) as [Hz' Hv].
  split; [exact Hz' | now rewrite Hv].
Qed.

Lemma zoom_out_stops_after_two_steps_witness :
  let back := {| Qt.angleDelta_y := -120;
                 Qt.scene_delta := (S754_zero false, S754_zero false) |} in
  TcamScreen.zoom_factor
    (TcamScreen.wheelEvents [back; back; back; back] TcamScreen.init)
  = S754_finite false 5764607523034236 (-53).
Proof.
  cbv zeta.
  refine (proj1 (zoom_out_stops_after_two_steps _ _ [_; _] _ _ _));
    cbn [Qt.angleDelta_y]; try lia.
  repeat constructor; cbn [Qt.angleDelta_y]; lia.
Defined.

End ZoomAndView.

(* ------------------------------------------------------------------ *)
(** ** Frames, modes and keys                                           *)
(* ------------------------------------------------------------------ *)

Section Displays.

Import Display.

Lemma new_buffer_size (frame : Qt.QPixmap) (d d' : t) :
  new_buffer frame d = Py.Ok d' ->
  current_width d'
  = (if current_width d =? 0 then Qt.width frame else current_width d)
  /\ current_height d'
     = (if current_height d =? 0 then Qt.height frame else current_height d).
Proof.
  unfold new_buffer. destruct (TcamView.pipeline (view d)); [|discriminate].
  cbn [view]. destruct (TcamView.fullscreen_container (view d)) as [fs|].
  - unfold fullscreen_new_pixmap.
    destruct (TcamScreen.on_new_pixmap frame fs); [|discriminate].
    intros [= <-]. split; reflexivity.
  - unfold container_new_pixmap. cbn [container].
    destruct (TcamScreen.on_new_pixmap frame (container d)); [|discriminate].
    intros [= <-]. split; reflexivity.
Qed.

Lemma step_keeps_size (i : input) (d d' : t) :
  step i d = Py.Ok d' ->
  (current_width d <> 0 -> current_width d' = current_width d)
  /\ (current_height d <> 0 -> current_height d' = current_height d).
Proof.
  destruct i as [frame|c|key]; cbn [step].
  - intros H. destruct (new_buffer_size _ _ _ H) as [-> ->].
    split; intros Hn; apply Z.eqb_neq in Hn; now rewrite Hn.
  - unfold on_view. destruct (Session.perform c (view d)); [|discriminate].
    intros [= <-]. split; reflexivity.
  - intros [= <-]. unfold keyPressEvent.
    destruct (TcamView.fullscreen_container (view d)); [|split; reflexivity].
    destruct (exit_key key); split; reflexivity.
Qed.

Lemma run_keeps_size (inputs : list input) :
  forall d d',
    run inputs d = Py.Ok d' ->
    (current_width d <> 0 -> current_width d' = current_width d)
    /\ (current_height d <> 0 -> current_height d' = current_height d).
Proof.
  induction inputs as [|i inputs IH]; intros d d'; cbn [run].
  - intros [= <-]. split; reflexivity.
  - destruct (step i d) as [d1|e] eqn:E; cbn [Py.bind]; [|discriminate].
    intros H. destruct (step_keeps_size _ _ _ E) as [Hw Hh].
    destruct (IH _ _ H) as [Hw' Hh'].
    split; intros Hn.
    + rewrite Hw', (Hw Hn); [reflexivity|]. now rewrite (Hw Hn).
    + rewrite Hh', (Hh Hn); [reflexivity|]. now rewrite (Hh Hn).
Qed.

(** X14.  [current_width] and [current_height] are set by the first frame
    only: whatever arrives afterwards - frames of other sizes, format
    changes through [play], mode changes - they keep the size of the
    first frame. *)
Theorem current_size_keeps_first_frame
  (frame : Qt.QPixmap) (inputs : list input) (d d' : t) :
  current_width d = 0 ->
  current_height d = 0 ->
  Qt.width frame <> 0 ->
  Qt.height frame <> 0 ->
  run (NewBuffer frame :: inputs) d = Py.Ok d' ->
  current_width d' = Qt.width frame /\ current_height d' = Qt.height frame.
Proof.
  intros Hw Hh Hfw Hfh. cbn [run step].
  destruct (new_buffer frame d) as [d1|e] eqn:E; cbn [Py.bind]; [|discriminate].
  intros H. destruct (new_buffer_size _ _ _ E) as [H1 H2].
  rewrite Hw in H1. rewrite Hh in H2. cbn in H1, H2.
  destruct (run_keeps_size _ _ _ H) as [Hw' Hh'].
  rewrite Hw', Hh'; [auto | congruence | congruence].
Qed.

Lemma current_size_keeps_first_frame_witness :
  exists d',
    run [NewBuffer Samples.frame_1280x720;
         Call (Session.Play (Some "video/x-raw,format=BGRx,width=640,height=480,framerate=30/1"));
         NewBuffer Samples.frame_640x480]
      MoreSamples.playing_display = Py.Ok d'
    /\ current_width d' = 1280 /\ current_height d' = 720.
Proof.
  eexists. split; [vm_compute; reflexivity|].
  refine (current_size_keeps_first_frame Samples.frame_1280x720
            [Call (Session.Play (Some "video/x-raw,format=BGRx,width=640,height=480,framerate=30/1"));
             NewBuffer Samples.frame_640x480]
            MoreSamples.playing_display _ eq_refl eq_refl _ _ _);
    [discriminate | discriminate | vm_compute; reflexivity].
Defined.

Lemma frames_in_fullscreen (frames : list Qt.QPixmap) :
  forall (d : t) (p : Gst.Pipeline) (fs : TcamScreen.t),
    TcamView.pipeline (view d) = Some p ->
    TcamView.fullscreen_container (view d) = Some fs ->
    match Stream.frames frames fs with
    | TcamScreen.Returned fs' =>
        exists d',
          run (map NewBuffer frames) d = Py.Ok d'
          /\ container d' = container d
          /\ exported d' = exported d
          /\ TcamView.pipeline (view d') = Some p
          /\ TcamView.is_fullscreen (view d') = TcamView.is_fullscreen (view d)
          /\ TcamView.trace (view d') = TcamView.trace (view d)
          /\ TcamView.fullscreen_container (view d') = Some fs'
          /\ image d' = last (map Some frames) (image d)
    | TcamScreen.Raised e _ => run (map NewBuffer frames) d = Py.Raise e
    end.
Proof.
  induction frames as [|f frames IH]; intros d p fs Hp Hfs.
  - cbn [Stream.frames]. exists d. cbn. auto 10.
  - cbn [Stream.frames map run step]. unfold new_buffer. rewrite Hp.
    cbn [view]. rewrite Hfs. unfold fullscreen_new_pixmap.
    destruct (TcamScreen.on_new_pixmap f fs) as [fs1|e fs1];
      cbn [Py.bind]; [|reflexivity].
    set (d1 := with_view _ _).
    pose proof (IH d1 p fs1 Hp eq_refl) as H.
    destruct (Stream.frames frames fs1) as [fs'|e fs']; [|exact H].
    destruct H as (d' & Hrun & Hc & He & Hp' & Hi & Ht & Hf & Him).
    exists d'. split; [exact Hrun|].
    split; [exact Hc|]. split; [exact He|]. split; [exact Hp'|].
    split; [exact Hi|]. split; [exact Ht|]. split; [exact Hf|].
    rewrite Him. cbn [map]. now rewrite last_cons_default.
Qed.

(** X15.  While a fullscreen screen exists every frame goes to it and to
    it alone.  As long as its slot returns, the windowed screen keeps
    the frame and the statuses it had, and the view emits no pixel
    status, since only the windowed screen's signal is connected to
    the view's slot; if the slot raises - the pointer is over the
    fullscreen image, beyond a new frame - the run ends with that
    exception. *)
Theorem frames_in_fullscreen_bypass_window
  (frames : list Qt.QPixmap) (d : t) (p : Gst.Pipeline) (fs : TcamScreen.t) :
  TcamView.pipeline (view d) = Some p ->
  TcamView.fullscreen_container (view d) = Some fs ->
  match Stream.frames frames fs with
  | TcamScreen.Returned fs' =>
      exists d',
        run (map NewBuffer frames) d = Py.Ok d'
        /\ container d' = container d
        /\ exported d' = exported d
        /\ TcamView.fullscreen_container (view d') = Some fs'
        /\ image d' = last (map Some frames) (image d)
  | TcamScreen.Raised e _ => run (map NewBuffer frames) d = Py.Raise e
  end.
Proof.
  intros Hp Hfs.
  pose proof (frames_in_fullscreen frames d p fs Hp Hfs) as H.
  destruct (Stream.frames frames fs) as [fs'|e fs']; [|exact H].
  destruct H as (d' & Hrun & Hc & He & _ & _ & _ & Hf & Him).
  exists d'. auto.
Qed.

Lemma frames_in_fullscreen_bypass_window_witness :
  (exists d',
     run (map NewBuffer [Samples.frame_1280x720; Samples.frame_640x480])
       MoreSamples.fullscreen_display = Py.Ok d'
     /\ container d' = TcamScreen.init
     /\ exported d' = []
     /\ image d' = Some Samples.frame_640x480)
  /\ run (map NewBuffer [Samples.frame_640x480])
       (with_view
          (with_fullscreen_container
             (Some (TcamScreen.hover (ViewItem.hoverMoveEvent 700 10)
                      Samples.hovering_screen))
             (view MoreSamples.fullscreen_display))
          MoreSamples.fullscreen_display)
     = Py.Raise Py.TypeError.
Proof.
  assert (Hp : exists p,
             TcamView.pipeline (view MoreSamples.fullscreen_display) = Some p)
    by (eexists; vm_compute; reflexivity).
  destruct Hp as [p Hp]. split.
  - pose proof (frames_in_fullscreen_bypass_window
                  [Samples.frame_1280x720; Samples.frame_640x480]
                  MoreSamples.fullscreen_display p TcamScreen.init Hp eq_refl)
      as H.
    destruct (Stream.frames [Samples.frame_1280x720; Samples.frame_640x480]
                TcamScreen.init) as [fs'|e fs'] eqn:E;
      [|vm_compute in E; discriminate E].
    destruct H as (d' & Hrun & Hc & He & _ & Him).
    exists d'. split; [exact Hrun|]. split; [exact Hc|].
    split; [exact He | exact Him].
  - pose proof (frames_in_fullscreen_bypass_window
                  [Samples.frame_640x480]
                  (with_view
                     (with_fullscreen_container
                        (Some (TcamScreen.hover (ViewItem.hoverMoveEvent 700 10)
                                 Samples.hovering_screen))
                        (view MoreSamples.fullscreen_display))
                     MoreSamples.fullscreen_display)
                  p _ Hp eq_refl) as H.
    destruct (Stream.frames [Samples.frame_640x480]
                (TcamScreen.hover (ViewItem.hoverMoveEvent 700 10)
                   Samples.hovering_screen)) as [fs'|e fs'] eqn:E;
      [vm_compute in E; discriminate E|].
    vm_compute in E. injection E as <- _. exact H.
Defined.





Lemma display_run_app (a b : list input) (d : t) :
  run (a ++ b) d = Py.bind (run a d) (run b).
Proof.
  revert d. induction a as [|i a IH]; intros d; [reflexivity|].
  change ((i :: a) ++ b)%list with (i :: (a ++ b))%list. cbn [run].
  destruct (step i d); cbn [Py.bind]; [apply IH | reflexivity].
Qed.

(** X17.  Entering fullscreen, receiving frames there and leaving with one
    of the exit keys puts the view back in windowed mode with the
    windowed screen exactly as it was before: it keeps showing the
    frame from before the episode although [image] holds the latest
    one, the fullscreen screen is dropped, and the streaming engine was
    asked for nothing. *)
Theorem fullscreen_episode_leaves_window
  (frames : list Qt.QPixmap) (key : Z) (d : t) (p : Gst.Pipeline) :
  TcamView.pipeline (view d) = Some p ->
  TcamView.is_fullscreen (view d) = false ->
  exit_key key = true ->
  exists d',
    run (Call Session.ToggleFullscreen
           :: map NewBuffer frames ++ [KeyPress key]) d = Py.Ok d'
    /\ container d' = container d
    /\ exported d' = exported d
    /\ TcamView.is_fullscreen (view d') = false
    /\ TcamView.fullscreen_container (view d') = None
    /\ TcamView.trace (view d') = TcamView.trace (view d)
    /\ image d' = last (map Some frames) (image d).
Proof.
  intros Hp Hfull Hkey.
  cbn [run step]. unfold on_view. cbn [Session.perform].
  unfold TcamView.toggle_fullscreen at 1. rewrite Hfull. cbn [Py.bind].
  set (d1 := with_view _ d).
  pose proof (frames_in_fullscreen frames d1 p TcamScreen.init Hp eq_refl)
    as Hfs.
  destruct (frames_return frames TcamScreen.init) as [fs' Eret];
    [intros Hover; discriminate Hover|].
  rewrite Eret in Hfs.
  destruct Hfs as (d2 & Hrun & Hc & He & Hp2 & Hi & Ht & Hf & Him).
  rewrite display_run_app, Hrun. cbn [Py.bind run step].
  unfold keyPressEvent. rewrite Hf, Hkey.
  unfold TcamView.toggle_fullscreen. rewrite Hi.
  cbn [d1 with_view view TcamView.is_fullscreen TcamView.final].
  eexists. split; [reflexivity|].
  cbn [with_view container exported view image
       TcamView.is_fullscreen TcamView.fullscreen_container TcamView.trace].
  auto 10.
Qed.

Lemma fullscreen_episode_leaves_window_witness :
  exists d',
    run [Call Session.ToggleFullscreen; NewBuffer Samples.frame_1280x720;
         KeyPress Key_F] MoreSamples.playing_display = Py.Ok d'
    /\ container d' = TcamScreen.init
    /\ TcamView.fullscreen_container (view d') = None
    /\ image d' = Some Samples.frame_1280x720.
Proof.
  assert (Hp : exists p,
             TcamView.pipeline (view MoreSamples.playing_display) = Some p)
    by (eexists; vm_compute; reflexivity).
  destruct Hp as [p Hp].
  destruct (fullscreen_episode_leaves_window
              [Samples.frame_1280x720] Key_F MoreSamples.playing_display p
              Hp eq_refl eq_refl)
    as (d' & Hrun & Hc & _ & _ & Hf & _ & Him).
  exists d'. split; [exact Hrun|]. split; [exact Hc|].
  split; [exact Hf | exact Him].
Defined.

(** X18.  A key pressed on the fullscreen screen: F11, Escape and F each
    end fullscreen mode and drop the fullscreen screen, through
    [destroy_widget] and [toggle_fullscreen]; every other key leaves
    the view exactly as it is. *)
Theorem fullscreen_left_by_three_keys
  (key : Z) (d : t) (fs : TcamScreen.t) :
  TcamView.is_fullscreen (view d) = true ->
  TcamView.fullscreen_container (view d) = Some fs ->
  (key = Qt.Key_F11 \/ key = Key_Escape \/ key = Key_F ->
   TcamView.is_fullscreen (view (keyPressEvent key d)) = false
   /\ TcamView.fullscreen_container (view (keyPressEvent key d)) = None)
  /\ (key <> Qt.Key_F11 -> key <> Key_Escape -> key <> Key_F ->
      keyPressEvent key d = d).
Proof.
  intros Hfull Hfs. unfold keyPressEvent, exit_key. rewrite Hfs. split.
  - intros Hk.
    assert (E : (key =? Qt.Key_F11) || (key =? Key_Escape) || (key =? Key_F)
                = true).
    { destruct Hk as [-> | [-> | ->]]; reflexivity. }
    rewrite E. unfold TcamView.toggle_fullscreen. rewrite Hfull.
    split; reflexivity.
  - intros H1 H2 H3.
    apply Z.eqb_neq in H1, H2, H3. now rewrite H1, H2, H3.
Qed.

Lemma fullscreen_left_by_three_keys_witness :
  TcamView.fullscreen_container
    (view (keyPressEvent Key_Escape MoreSamples.fullscreen_display)) = None
  /\ keyPressEvent 32 MoreSamples.fullscreen_display
     = MoreSamples.fullscreen_display.
Proof.
  destruct (fullscreen_left_by_three_keys Key_Escape
              MoreSamples.fullscreen_display TcamScreen.init eq_refl eq_refl)
    as [Hexit _].
  destruct (fullscreen_left_by_three_keys 32
              MoreSamples.fullscreen_display TcamScreen.init eq_refl eq_refl)
    as [_ Hstay].
  split.
  - exact (proj2 (Hexit (or_intror (or_introl eq_refl)))).
  - apply Hstay; discriminate.
Defined.

End Displays.

(** ** Splitting and searching strings *)

Section Splitting.

Import Py Text.

Lemma split_piece (is_sep : ascii -> bool) (p : string) :
  forall (c : ascii) (rest : string) (k : nat),
    all_chars (fun a => negb (is_sep a)) p = true ->
    is_sep c = true ->
    split_at is_sep (S k) (p ++ String c rest) = p :: split_at is_sep k rest.
Proof.
  induction p as [|a p IH]; intros c rest k Hp Hc.
  - cbn [append split_at]. now rewrite Hc.
  - cbn [all_chars] in Hp. apply andb_true_iff in Hp. destruct Hp as [Ha Hp].
    apply negb_true_iff in Ha.
    change (String a p ++ String c rest) with (String a (p ++ String c rest)).
    cbn [split_at]. rewrite Ha, (IH c rest k Hp Hc). reflexivity.
Qed.

Lemma split_last (is_sep : ascii -> bool) (p : string) (k : nat) :
  all_chars (fun a => negb (is_sep a)) p = true ->
  split_at is_sep k p = [p].
Proof.
  induction p as [|a p IH]; intros Hp; [reflexivity|].
  cbn [all_chars] in Hp. apply andb_true_iff in Hp. destruct Hp as [Ha Hp].
  apply negb_true_iff in Ha.
  cbn [split_at]. destruct k; [reflexivity|]. now rewrite Ha, (IH Hp).
Qed.

(** The number of pieces: one more than the separators, up to the
    limit. *)
Lemma split_at_length (is_sep : ascii -> bool) (s : string) :
  forall k, List.length (split_at is_sep k s) = S (Nat.min k (count is_sep s)).
Proof.
  induction s as [|a s IH]; intros k.
  - cbn [split_at count List.length]. now rewrite Nat.min_0_r.
  - cbn [split_at count]. destruct k as [|k]; [reflexivity|].
    destruct (is_sep a).
    + cbn [List.length]. rewrite IH. reflexivity.
    + specialize (IH (S k)).
      destruct (split_at is_sep (S k) s) as [|p ps]; [discriminate IH|].
      cbn [List.length] in *. exact IH.
Qed.

Lemma str_length_append (a b : string) :
  String.length (a ++ b) = (String.length a + String.length b)%nat.
Proof. induction a as [|c a IH]; cbn; [reflexivity | now rewrite IH]. Qed.

Lemma join_length (items : list string) :
  (List.length items - 1 <= String.length (join "," items))%nat.
Proof.
  induction items as [|x items IH]; [cbn; lia|].
  destruct items as [|y items]; [cbn; lia|].
  change (join "," (x :: y :: items)) with (x ++ "," ++ join "," (y :: items)).
  rewrite !str_length_append. cbn [List.length String.length] in *. lia.
Qed.

Lemma split_join (items : list string) :
  items <> [] ->
  Forall (fun r => all_chars no_comma r = true) items ->
  forall k, (List.length items - 1 <= k)%nat ->
            split_at (Ascii.eqb ",") k (join "," items) = items.
Proof.
  intros Hne Hall. induction Hall as [|x items Hx Hall IH]; [contradiction|].
  intros k Hk. destruct items as [|y items].
  - cbn [join]. now apply split_last.
  - change (join "," (x :: y :: items)) with (x ++ String "," (join "," (y :: items))).
    destruct k as [|k]; [cbn [List.length] in Hk; lia|].
    rewrite split_piece; [ | exact Hx | reflexivity].
    rewrite IH; [reflexivity | discriminate | cbn [List.length] in *; lia].
Qed.

Lemma split_comma_join (items : list string) :
  items <> [] ->
  Forall (fun r => all_chars no_comma r = true) items ->
  split_comma (join "," items) = items.
Proof.
  intros Hne Hall. unfold split_comma. apply split_join; auto using join_length.
Qed.

Lemma startswith_long (n : string) :
  forall a b, (String.length n <= String.length a)%nat ->
              startswith n (a ++ b) = startswith n a.
Proof.
  induction n as [|c n IH]; intros a b H; [reflexivity|].
  destruct a as [|x a]; [cbn in H; lia|].
  cbn [append startswith]. rewrite IH; [reflexivity | cbn in H; lia].
Qed.

Lemma drop_app (pre rest : string) :
  drop (String.length pre) (pre ++ rest) = rest.
Proof. induction pre as [|c pre IH]; [now destruct rest | exact IH]. Qed.

Lemma drop_length (s : string) :
  forall n, String.length (drop n s) = (String.length s - n)%nat.
Proof.
  induction s as [|c s IH]; intros n; destruct n; cbn [drop String.length];
    try reflexivity. apply IH.
Qed.

Lemma startswith_before_field (c : ascii) (pre rest : string) :
  startswith "framerate=" (String c pre ++ "framerate=" ++ rest)
  = startswith "framerate=" (String c pre ++ "framerate").
Proof.
  assert (Heq : String c pre ++ "framerate=" ++ rest
                = (String c pre ++ "framerate") ++ ("=" ++ rest)).
  { rewrite str_append_assoc. reflexivity. }
  rewrite Heq. apply startswith_long. rewrite str_length_append. cbn. lia.
Qed.

Lemma find_from_cons (needle : string) (c : ascii) (hay : string) (i : Z) :
  find_from needle (String c hay) i
  = if startswith needle (String c hay) then i
    else find_from needle hay (i + 1).
Proof. reflexivity. Qed.

Lemma contains_cons (needle : string) (c : ascii) (hay : string) :
  contains needle (String c hay)
  = if startswith needle (String c hay) then true else contains needle hay.
Proof. reflexivity. Qed.

(** [find] returns the position of the field when [framerate=] does not
    occur earlier. *)
Lemma find_from_field (pre rest : string) :
  forall i,
    contains "framerate=" (pre ++ "framerate") = false ->
    find_from "framerate=" (pre ++ "framerate=" ++ rest) i
    = i + Z.of_nat (String.length pre).
Proof.
  induction pre as [|c pre IH]; intros i H.
  - cbn [String.length Z.of_nat]. rewrite Z.add_0_r.
    change ("" ++ "framerate=" ++ rest) with (String "f" ("ramerate=" ++ rest)).
    rewrite find_from_cons.
    change (String "f" ("ramerate=" ++ rest)) with ("framerate=" ++ rest).
    now rewrite startswith_app.
  - change (String c pre ++ "framerate") with (String c (pre ++ "framerate")) in H.
    rewrite contains_cons in H.
    change (String c (pre ++ "framerate")) with (String c pre ++ "framerate") in H.
    rewrite <- (startswith_before_field c pre rest) in H.
    change (String c pre ++ "framerate=" ++ rest)
      with (String c (pre ++ "framerate=" ++ rest)) in *.
    rewrite find_from_cons.
    destruct (startswith "framerate=" (String c (pre ++ "framerate=" ++ rest)));
      [discriminate H|].
    rewrite (IH (i + 1) H). cbn [String.length]. lia.
Qed.

Lemma find_absent (needle hay : string) :
  forall i, contains needle hay = false -> find_from needle hay i = -1.
Proof.
  induction hay as [|c hay IH]; intros i H; cbn [contains find_from] in *.
  - destruct (startswith needle ""); [discriminate | reflexivity].
  - destruct (startswith needle (String c hay)); [discriminate|]. now apply IH.
Qed.

End Splitting.

(** ** get_framerates: the list cut out of the serialised structure *)

Section FrameRates.

Import Py FormatMenu Text Samples MoreSamples.

Lemma get_framerates_fallback (fmt : Gst.Structure) :
  Gst.framerate fmt = Gst.ValueList ->
  get_framerates fmt
  = match re_split_braces (framerate_text fmt) 3 with
    | [_; values; _] => Ok (RatesList (map strip (split_comma values)))
    | _ => Raise ValueError
    end.
Proof.
  intros H. unfold get_framerates, Gst.get_value.
  change (Gst.lookup fmt "framerate") with (Gst.framerate fmt).
  rewrite H. reflexivity.
Qed.

Lemma framerate_text_of_field (fmt : Gst.Structure) (pre rest : string) :
  Gst.to_string fmt = pre ++ "framerate=" ++ rest ->
  contains "framerate=" (pre ++ "framerate") = false ->
  framerate_text fmt = "framerate=" ++ rest.
Proof.
  intros Hs Hfirst. unfold framerate_text, find. rewrite Hs.
  rewrite (find_from_field pre rest 0 Hfirst). unfold slice_from.
  replace (0 + Z.of_nat (String.length pre) <? 0) with false
    by (symmetry; apply Z.ltb_ge; lia).
  rewrite Z.add_0_l, Nat2Z.id. apply drop_app.
Qed.

(** The three pieces [re.split] cuts a rate list of the expected shape
    into. *)
Lemma split_rate_list (ty tail : string) (items : list string) :
  all_chars no_brace ty = true ->
  all_chars no_brace tail = true ->
  Forall (fun r => all_chars no_brace r = true) items ->
  re_split_braces
    ("framerate=" ++ ty ++ "{" ++ join "," items ++ "}" ++ tail) 3
  = ["framerate=" ++ ty; join "," items; tail].
Proof.
  intros Hty Htail Hb.
  assert (Hbody : all_chars no_brace (join "," items) = true).
  { induction Hb as [|x items Hx Hb IH]; [reflexivity|].
    destruct items as [|y items]; [exact Hx|].
    change (join "," (x :: y :: items)) with (x ++ "," ++ join "," (y :: items)).
    rewrite !all_chars_app, Hx, IH. reflexivity. }
  unfold re_split_braces.
  replace ("framerate=" ++ ty ++ "{" ++ join "," items ++ "}" ++ tail)
    with (("framerate=" ++ ty) ++ String "{" (join "," items ++ String "}" tail))
    by (rewrite str_append_assoc; reflexivity).
  rewrite split_piece;
    [ | rewrite all_chars_app; exact Hty | reflexivity].
  rewrite split_piece; [ | exact Hbody | reflexivity].
  now rewrite split_last by exact Htail.
Qed.

(** The unpacking of the split result takes exactly three pieces. *)
Lemma get_framerates_two_braces (fmt : Gst.Structure) :
  Gst.framerate fmt = Gst.ValueList ->
  count is_brace (framerate_text fmt) = 2%nat ->
  exists rs, get_framerates fmt = Ok (RatesList rs).
Proof.
  intros Hfr. rewrite (get_framerates_fallback fmt Hfr). unfold re_split_braces.
  pose proof (split_at_length is_brace (framerate_text fmt) 3) as Hlen.
  destruct (split_at is_brace 3 (framerate_text fmt)) as [|a [|b [|c [|d l]]]];
    cbn [List.length] in Hlen; intros Hcount;
    try (exfalso; lia); eexists; reflexivity.
Qed.

Lemma get_framerates_other_braces (fmt : Gst.Structure) :
  Gst.framerate fmt = Gst.ValueList ->
  count is_brace (framerate_text fmt) <> 2%nat ->
  get_framerates fmt = Raise ValueError.
Proof.
  intros Hfr. rewrite (get_framerates_fallback fmt Hfr). unfold re_split_braces.
  pose proof (split_at_length is_brace (framerate_text fmt) 3) as Hlen.
  destruct (split_at is_brace 3 (framerate_text fmt)) as [|a [|b [|c [|d l]]]];
    cbn [List.length] in Hlen; intros Hcount;
    try reflexivity; exfalso; lia.
Qed.

(** X19.  The workaround of [get_framerates].  For a structure whose
    frame rates are a value list and whose text reads
    [... framerate=<type>{ r1, ..., rn }<tail>], with no brace in the
    type, the rates or the tail and no comma inside a rate, the result
    is the list of the rates [r1 ... rn], each stripped of surrounding
    white space, in the order of the text. *)
Theorem get_framerates_reads_brace_list
  (fmt : Gst.Structure) (pre ty tail : string) (items : list string) :
  Gst.framerate fmt = Gst.ValueList ->
  Gst.to_string fmt
  = pre ++ "framerate=" ++ ty ++ "{" ++ join "," items ++ "}" ++ tail ->
  contains "framerate=" (pre ++ "framerate") = false ->
  all_chars no_brace ty = true ->
  all_chars no_brace tail = true ->
  items <> [] ->
  Forall (fun r => all_chars no_brace r = true) items ->
  Forall (fun r => all_chars no_comma r = true) items ->
  get_framerates fmt = Ok (RatesList (map strip items)).
Proof.
  intros Hfr Hs Hfirst Hty Htail Hne Hb Hc.
  rewrite (get_framerates_fallback fmt Hfr).
  rewrite (framerate_text_of_field fmt pre _ Hs Hfirst).
  rewrite (split_rate_list ty tail items Hty Htail Hb).
  now rewrite split_comma_join.
Qed.

Lemma get_framerates_reads_brace_list_witness :
  get_framerates caps_bgrx = Ok (RatesList ["5/1"; "10/1"; "30/1"]).
Proof.
  apply (get_framerates_reads_brace_list caps_bgrx
           "video/x-raw, format=(string)BGRx, width=(int)640, height=(int)480, "
           "(fraction)" ";" [" 5/1"; " 10/1"; " 30/1 "]);
    try reflexivity; try discriminate;
    repeat (constructor; [reflexivity|]); constructor.
Defined.

(** X20.  The workaround of [get_framerates] succeeds exactly when the
    text from the first [framerate=] on holds two braces.  With fewer -
    or with more, as when a second list-valued field follows the frame
    rates - the unpacking of the [re.split] result raises
    [ValueError]. *)
Theorem get_framerates_needs_two_braces (fmt : Gst.Structure) :
  Gst.framerate fmt = Gst.ValueList ->
  (count is_brace (framerate_text fmt) = 2%nat ->
   exists rs, get_framerates fmt = Ok (RatesList rs))
  /\ (count is_brace (framerate_text fmt) <> 2%nat ->
      get_framerates fmt = Raise ValueError).
Proof.
  intros Hfr. split.
  - apply get_framerates_two_braces. exact Hfr.
  - apply get_framerates_other_braces. exact Hfr.
Qed.

Lemma get_framerates_needs_two_braces_witness :
  (exists rs, get_framerates caps_jpeg = Ok (RatesList rs))
  /\ get_framerates caps_two_lists = Raise ValueError.
Proof.
  split.
  - apply (proj1 (get_framerates_needs_two_braces caps_jpeg eq_refl)).
    reflexivity.
  - apply (proj2 (get_framerates_needs_two_braces caps_two_lists eq_refl)).
    vm_compute. discriminate.
Defined.



End FrameRates.

(** ** The menu as a whole *)

Section WholeMenu.

Import Py FormatMenu Text Samples MoreSamples.

Lemma map_fst_update (k : string) (f : Qt.FmtMenu -> Qt.FmtMenu) (d : format_dict) :
  map fst (dict_update k f d) = map fst d.
Proof.
  induction d as [|[k' m] d IH]; [reflexivity|].
  cbn [dict_update]. destruct (String.eqb k' k); cbn [map fst]; [reflexivity|].
  now rewrite IH.
Qed.

Lemma dict_mem_existsb (k : string) (d : format_dict) :
  dict_mem k d = existsb (fun k' => String.eqb k' k) (map fst d).
Proof.
  induction d as [|[k' m] d IH]; [reflexivity|].
  cbn [dict_mem map fst existsb]. now rewrite IH.
Qed.

Lemma map_fst_setdefault (k : string) (d : format_dict) :
  map fst (dict_setdefault k d) = add_key (map fst d) k.
Proof.
  unfold dict_setdefault, add_key. rewrite <- dict_mem_existsb.
  destruct (dict_mem k d); [reflexivity|]. now rewrite map_app.
Qed.

(** An entry the first half of the [try] block reads nothing from
    leaves the dictionary alone. *)
Lemma loop_body_dropped (d : format_dict) (fmt : Gst.Structure) :
  key_of fmt = None -> loop_body d fmt = Ok d.
Proof.
  unfold key_of, loop_body, try_block. intros H.
  destruct (read_entry fmt) as [[e|]|x] eqn:E; [discriminate H | reflexivity | ].
  now rewrite (read_entry_raises _ _ E).
Qed.

(** What an iteration returns, when it returns: nothing new, the
    top-level menu of the entry's format, or that menu with one more
    resolution submenu. *)
Lemma loop_body_result (d d' : format_dict) (fmt : Gst.Structure) :
  loop_body d fmt = Ok d' ->
  match read_entry fmt with
  | Ok (Some e) =>
      (retained fmt = None /\ d' = dict_setdefault (format_string e) d)
      \/ exists acts,
           retained fmt = Some e
           /\ d' = dict_update (format_string e)
                     (append_sub {| Qt.res_title := res_menu_string e;
                                    Qt.actions := acts |})
                     (dict_setdefault (format_string e) d)
  | _ => d' = d
  end.
Proof.
  unfold loop_body, try_block.
  destruct (read_entry fmt) as [[e|]|x] eqn:He.
  - assert (Hnot : contains "None" (f_str e) = true
                    \/ contains "range" (format_string e) = true
                    \/ contains "]x[" (res_menu_string e) = true ->
                    retained fmt = None).
    { intros Hc. destruct (retained fmt) as [e'|] eqn:Hr; [|reflexivity].
      destruct (retained_read_entry _ _ Hr) as (He' & N1 & N2 & N3).
      rewrite He in He'. injection He' as <-.
      destruct Hc as [Hc | [Hc | Hc]]; congruence. }
    destruct (contains "None" (f_str e)) eqn:H2;
      [intros [= <-]; left; auto|].
    destruct (contains "range" (format_string e)) eqn:H3;
      [intros [= <-]; left; auto|].
    destruct (contains "]x[" (res_menu_string e)) eqn:H4;
      [intros [= <-]; left; auto|].
    pose proof (retained_intro _ _ He H2 H3 H4) as Hr.
    rewrite (dict_update_ext _ _ _ _ (addMenu_append_sub (res_menu_string e))).
    destruct (get_framerates fmt) as [[v|rs]|x]; cbn [bind]; [ | |discriminate].
    + destruct v; cbn [rate_strings bind]; try discriminate;
        try (intros [= <-]; right; eexists; split; [exact Hr | reflexivity]).
      rewrite (add_actions_fold _ _ (make_action e) _ []).
      intros [= <-]. right. eexists. split; [exact Hr | reflexivity].
    + cbn [rate_strings bind].
      rewrite (add_actions_fold _ _ (make_action e) rs []).
      intros [= <-]. right. eexists. split; [exact Hr | reflexivity].
  - now intros [= <-].
  - rewrite (read_entry_raises _ _ He). now intros [= <-].
Qed.

Lemma loop_body_keys (d d' : format_dict) (fmt : Gst.Structure) :
  loop_body d fmt = Ok d' ->
  map fst d'
  = match key_of fmt with
    | Some k => add_key (map fst d) k
    | None => map fst d
    end.
Proof.
  intros H. pose proof (loop_body_result d d' fmt H) as R. unfold key_of.
  destruct (read_entry fmt) as [[e|]|x]; try (now subst).
  destruct R as [[_ ->] | (acts & _ & ->)].
  - apply map_fst_setdefault.
  - now rewrite map_fst_update, map_fst_setdefault.
Qed.

Lemma loop_keys_first_seen (formats : list Gst.Structure) :
  forall d d',
    loop formats d = Ok d' ->
    map fst d' = fold_left add_key (keys_of formats) (map fst d).
Proof.
  induction formats as [|fmt formats IH]; intros d d'.
  - cbn [loop keys_of fold_left]. now intros [= <-].
  - cbn [loop keys_of].
    destruct (loop_body d fmt) as [d1|x] eqn:E; cbn [bind]; [|discriminate].
    intros H. rewrite (IH _ _ H), (loop_body_keys _ _ _ E).
    now destruct (key_of fmt).
Qed.

Lemma add_key_NoDup (acc : list string) (k : string) :
  NoDup acc -> NoDup (add_key acc k).
Proof.
  intros H. unfold add_key.
  destruct (existsb (fun k' => String.eqb k' k) acc) eqn:E; [exact H|].
  apply NoDup_app; [exact H | repeat constructor; intros [] | ].
  intros x Hin [Hx | []]. subst x.
  assert (existsb (fun k' => String.eqb k' k) acc = true); [|congruence].
  apply existsb_exists. exists k. split; [exact Hin | apply String.eqb_refl].
Qed.

Lemma first_seen_NoDup (ks : list string) :
  forall acc, NoDup acc -> NoDup (fold_left add_key ks acc).
Proof.
  induction ks as [|k ks IH]; intros acc H; [exact H|].
  cbn [fold_left]. apply IH. now apply add_key_NoDup.
Qed.

Lemma titles_are_keys (d : format_dict) :
  titled d -> map Qt.fmt_title (map snd d) = map fst d.
Proof.
  intros Ht. induction d as [|[k m] d IH]; [reflexivity|].
  cbn [map fst snd]. rewrite (Ht k m (or_introl eq_refl)), IH; [reflexivity|].
  intros k' m' Hin. apply Ht. now right.
Qed.

(** X22.  The finished menu is titled [Formats]; its top-level menus are
    titled by the format identifiers read from the entries, one menu
    per identifier, in the order in which the identifiers first appear
    in the capability list. *)
Theorem menu_titles_in_first_seen_order
  (formats : list Gst.Structure) (m : Qt.QMenu) :
  create_format_menu formats = Ok m ->
  Qt.title m = "Formats"
  /\ map Qt.fmt_title (Qt.menus m) = first_seen (keys_of formats)
  /\ NoDup (map Qt.fmt_title (Qt.menus m)).
Proof.
  unfold create_format_menu.
  destruct (loop formats []) as [d|x] eqn:E; cbn [bind]; [|discriminate].
  intros [= <-]. cbn [Qt.title Qt.menus].
  destruct (loop_keeps _ _ _ E) as [Ht _].
  rewrite (titles_are_keys d (Ht (fun k m (H : In (k, m) []) => match H with end))).
  rewrite (loop_keys_first_seen _ _ _ E). cbn [map].
  split; [reflexivity|]. split; [reflexivity|].
  apply first_seen_NoDup. constructor.
Qed.

Lemma menu_titles_in_first_seen_order_witness :
  exists m,
    create_format_menu
      [caps_jpeg; caps_range; caps_bgrx; caps_any; caps_jpeg; caps_mixed] = Ok m
    /\ map Qt.fmt_title (Qt.menus m) = ["image/jpeg"; "GRAY8"].
Proof.
  eexists. split; [vm_compute; reflexivity|].
  exact (proj1 (proj2 (menu_titles_in_first_seen_order
                         [caps_jpeg; caps_range; caps_bgrx; caps_any;
                          caps_jpeg; caps_mixed] _ eq_refl))).
Defined.

(** Where a key comes from. *)
Lemma key_of_origin (fmt : Gst.Structure) (k : string) :
  key_of fmt = Some k ->
  contains "ANY" (Gst.name fmt) = false
  /\ ((Gst.name fmt = "image/jpeg" /\ k = "image/jpeg")
      \/ (Gst.name fmt <> "image/jpeg"
          /\ exists f,
               Gst.format fmt = Gst.Str f
               /\ ((contains "BGRx" f = true /\ contains "GRAY" f = false
                    /\ k = "GRAY8")
                   \/ (contains "BGRx" f = false /\ f <> "None" /\ k = f)))).
Proof.
  unfold key_of, read_entry.
  destruct (contains "ANY" (Gst.name fmt)); [discriminate|].
  intros H. split; [reflexivity|].
  destruct (String.eqb (Gst.name fmt) "image/jpeg") eqn:Ej.
  - left. apply String.eqb_eq in Ej. split; [exact Ej|].
    rewrite Ej in H. cbn [bind] in H.
    change (collapse_format (PyStr "image/jpeg")) with (@Ok (option string) (Some "image/jpeg")) in H.
    cbn [bind] in H.
    destruct (Gst.get_value fmt "width"); cbn [bind] in H; [|discriminate H].
    destruct (Gst.get_value fmt "height"); cbn [bind] in H; [|discriminate H].
    cbn [format_string] in H. now injection H as <-.
  - right. apply String.eqb_neq in Ej. split; [exact Ej|].
    unfold Gst.get_value at 1 in H.
    change (Gst.lookup fmt "format") with (Gst.format fmt) in H.
    destruct (Gst.format fmt) as [|f| | | | |]; cbn [bind] in H;
      try discriminate H.
    exists f. split; [reflexivity|].
    unfold collapse_format, str_in in H. cbn [bind] in H.
    destruct (contains "BGRx" f) eqn:Eb.
    + cbn [bind] in H. destruct (contains "GRAY" f) eqn:Eg;
        cbn [bind andb negb] in H; [discriminate H|].
      left. split; [reflexivity|]. split; [reflexivity|].
      destruct (Gst.get_value fmt "width"); cbn [bind] in H; [|discriminate H].
      destruct (Gst.get_value fmt "height"); cbn [bind] in H; [|discriminate H].
      cbn [format_string] in H. now injection H as <-.
    + cbn [bind andb] in H. right. split; [reflexivity|].
      destruct (String.eqb f "None") eqn:En; cbn [bind] in H; [discriminate H|].
      apply String.eqb_neq in En. split; [exact En|].
      destruct (Gst.get_value fmt "width"); cbn [bind] in H; [|discriminate H].
      destruct (Gst.get_value fmt "height"); cbn [bind] in H; [|discriminate H].
      cbn [format_string] in H. now injection H as <-.
Qed.

Lemma add_key_In (acc : list string) (k x : string) :
  In x (add_key acc k) -> In x acc \/ x = k.
Proof.
  unfold add_key. destruct (existsb _ acc); [now left|].
  intros H. apply in_app_or in H. destruct H as [H | [H | []]]; auto.
Qed.

Lemma first_seen_In (ks : list string) (x : string) :
  forall acc, In x (fold_left add_key ks acc) -> In x acc \/ In x ks.
Proof.
  induction ks as [|k ks IH]; intros acc; cbn [fold_left]; [now left|].
  intros H. destruct (IH _ H) as [H1 | H1]; [|right; now right].
  destruct (add_key_In _ _ _ H1) as [H2 | ->]; [now left | right; now left].
Qed.

Lemma keys_of_In (formats : list Gst.Structure) (k : string) :
  In k (keys_of formats) ->
  exists fmt, In fmt formats /\ key_of fmt = Some k.
Proof.
  induction formats as [|fmt formats IH]; cbn [keys_of]; [intros []|].
  destruct (key_of fmt) as [k'|] eqn:E.
  - intros [-> | H].
    + exists fmt. split; [now left | exact E].
    + destruct (IH H) as (f & Hin & Hk). exists f. split; [now right | exact Hk].
  - intros H. destruct (IH H) as (f & Hin & Hk).
    exists f. split; [now right | exact Hk].
Qed.

(** X23.  Every top-level menu can be traced to an entry of the
    capability list that is not the wildcard: a JPEG entry for the
    title [image/jpeg]; a raw entry naming BGRx but not GRAY for the
    title [GRAY8]; or a raw entry whose format does not name BGRx, is
    not the text [None], and is the title itself. *)
Theorem menu_titles_come_from_entries
  (formats : list Gst.Structure) (m : Qt.QMenu) (top : Qt.FmtMenu) :
  create_format_menu formats = Ok m ->
  In top (Qt.menus m) ->
  exists fmt,
    In fmt formats
    /\ contains "ANY" (Gst.name fmt) = false
    /\ ((Gst.name fmt = "image/jpeg" /\ Qt.fmt_title top = "image/jpeg")
        \/ (Gst.name fmt <> "image/jpeg"
            /\ exists f,
                 Gst.format fmt = Gst.Str f
                 /\ ((contains "BGRx" f = true /\ contains "GRAY" f = false
                      /\ Qt.fmt_title top = "GRAY8")
                     \/ (contains "BGRx" f = false /\ f <> "None"
                         /\ Qt.fmt_title top = f)))).
Proof.
  unfold create_format_menu.
  destruct (loop formats []) as [d|x] eqn:E; cbn [bind]; [|discriminate].
  intros [= <-] Hin. cbn [Qt.menus] in Hin.
  assert (Ht : titled d).
  { apply (proj1 (loop_keeps _ _ _ E)). intros k m []. }
  assert (Hk : In (Qt.fmt_title top) (map fst d)).
  { rewrite <- (titles_are_keys d Ht). now apply in_map. }
  rewrite (loop_keys_first_seen _ _ _ E) in Hk. cbn [map] in Hk.
  destruct (first_seen_In _ _ _ Hk) as [[] | Hk'].
  destruct (keys_of_In _ _ Hk') as (fmt & Hfmt & Hkey).
  exists fmt. split; [exact Hfmt|]. exact (key_of_origin _ _ Hkey).
Qed.

Lemma menu_titles_come_from_entries_witness :
  exists fmt,
    In fmt [caps_jpeg; caps_any]
    /\ contains "ANY" (Gst.name fmt) = false
    /\ ((Gst.name fmt = "image/jpeg" /\ "image/jpeg" = "image/jpeg")
        \/ (Gst.name fmt <> "image/jpeg"
            /\ exists f,
                 Gst.format fmt = Gst.Str f
                 /\ ((contains "BGRx" f = true /\ contains "GRAY" f = false
                      /\ "image/jpeg" = "GRAY8")
                     \/ (contains "BGRx" f = false /\ f <> "None"
                         /\ "image/jpeg" = f)))).
Proof.
  refine (menu_titles_come_from_entries [caps_jpeg; caps_any]
            {| Qt.title := "Formats";
               Qt.menus :=
                 [{| Qt.fmt_title := "image/jpeg";
                     Qt.submenus :=
                       [{| Qt.res_title := "1920x1080";
                           Qt.actions :=
                             map (make_action
                                    {| format_name := "image/jpeg";
                                       format_string := "image/jpeg";
                                       width := PyInt 1920;
                                       height := PyInt 1080 |})
                               ["15/1"; "30/1"] |}] |}] |}
            {| Qt.fmt_title := "image/jpeg";
               Qt.submenus :=
                 [{| Qt.res_title := "1920x1080";
                     Qt.actions :=
                       map (make_action
                              {| format_name := "image/jpeg";
                                 format_string := "image/jpeg";
                                 width := PyInt 1920;
                                 height := PyInt 1080 |})
                         ["15/1"; "30/1"] |}] |} _ _).
  - vm_compute. reflexivity.
  - left. reflexivity.
Defined.


(** Leaving out an entry whose iteration changes nothing changes
    nothing. *)
Lemma create_format_menu_skip
  (pre post : list Gst.Structure) (fmt : Gst.Structure) :
  (forall d, loop_body d fmt = Ok d) ->
  create_format_menu (pre ++ fmt :: post) = create_format_menu (pre ++ post).
Proof.
  intros H. unfold create_format_menu. rewrite !loop_app.
  destruct (loop pre []) as [d|x]; cbn [bind loop]; [|reflexivity].
  now rewrite H.
Qed.

(** X24.  An entry whose name contains [ANY] can be left out of the
    capability list, wherever it stands: the result - menu or
    exception - is the same. *)
Theorem wildcard_entry_changes_nothing
  (pre post : list Gst.Structure) (any : Gst.Structure) :
  contains "ANY" (Gst.name any) = true ->
  create_format_menu (pre ++ any :: post) = create_format_menu (pre ++ post).
Proof.
  intros H. apply create_format_menu_skip. intros d.
  now apply loop_body_wildcard.
Qed.

Lemma wildcard_entry_changes_nothing_witness :
  create_format_menu [caps_bgrx; caps_any; caps_jpeg]
  = create_format_menu [caps_bgrx; caps_jpeg].
Proof.
  exact (wildcard_entry_changes_nothing [caps_bgrx] [caps_jpeg] caps_any eq_refl).
Defined.

Lemma key_of_unreadable (fmt : Gst.Structure) :
  Gst.width fmt = Gst.ValueList
  \/ Gst.height fmt = Gst.ValueList
  \/ (Gst.name fmt <> "image/jpeg"
      /\ match Gst.format fmt with Gst.Str _ => False | _ => True end) ->
  key_of fmt = None.
Proof.
  intros H. unfold key_of.
  destruct (read_entry fmt) as [[e|]|x] eqn:E; try reflexivity.
  exfalso. destruct H as [Hw | [Hh | [Hn Hf]]].
  - destruct (read_entry_key _ _ E) as (_ & _ & Hgw & _).
    unfold Gst.get_value in Hgw.
    change (Gst.lookup fmt "width") with (Gst.width fmt) in Hgw.
    rewrite Hw in Hgw. discriminate.
  - destruct (read_entry_key _ _ E) as (_ & _ & _ & Hgh).
    unfold Gst.get_value in Hgh.
    change (Gst.lookup fmt "height") with (Gst.height fmt) in Hgh.
    rewrite Hh in Hgh. discriminate.
  - unfold read_entry in E.
    destruct (contains "ANY" (Gst.name fmt)); [discriminate|].
    destruct (String.eqb_spec (Gst.name fmt) "image/jpeg"); [contradiction|].
    unfold Gst.get_value in E at 1.
    change (Gst.lookup fmt "format") with (Gst.format fmt) in E.
    destruct (Gst.format fmt); try contradiction; discriminate.
Qed.

(** X25.  An entry whose width or height is a value list, or a raw entry
    whose format is not a string, never gets past the [try] block:
    [get_value] or the [in] test raises the [TypeError] the block
    catches, unless a [continue] comes first.  The result is the same
    as if the entry had not been in the list. *)
Theorem unreadable_entry_changes_nothing
  (pre post : list Gst.Structure) (fmt : Gst.Structure) :
  Gst.width fmt = Gst.ValueList
  \/ Gst.height fmt = Gst.ValueList
  \/ (Gst.name fmt <> "image/jpeg"
      /\ match Gst.format fmt with Gst.Str _ => False | _ => True end) ->
  create_format_menu (pre ++ fmt :: post) = create_format_menu (pre ++ post).
Proof.
  intros H. apply create_format_menu_skip. intros d.
  apply loop_body_dropped. now apply key_of_unreadable.
Qed.

Lemma unreadable_entry_changes_nothing_witness :
  create_format_menu
    [caps_bgrx;
     {| Gst.name := "video/x-raw"; Gst.format := Gst.ValueList;
        Gst.width := Gst.Int 640; Gst.height := Gst.Int 480;
        Gst.framerate := Gst.ValueList;
        Gst.to_string := Gst.to_string caps_mixed |};
     caps_jpeg]
  = create_format_menu [caps_bgrx; caps_jpeg].
Proof.
  apply (unreadable_entry_changes_nothing [caps_bgrx] [caps_jpeg]).
  right. right. split; [discriminate | exact I].
Defined.

(** *** One resolution submenu per retained entry *)

Lemma flat_submenus_setdefault (k : string) (d : format_dict) :
  flat_map Qt.submenus (map snd (dict_setdefault k d))
  = flat_map Qt.submenus (map snd d).
Proof.
  unfold dict_setdefault. destruct (dict_mem k d); [reflexivity|].
  rewrite map_app, flat_map_app. cbn. now rewrite app_nil_r.
Qed.

Lemma count_submenus_update (k : string) (sub : Qt.ResMenu) (d : format_dict) :
  dict_mem k d = true ->
  List.length (flat_map Qt.submenus (map snd (dict_update k (append_sub sub) d)))
  = S (List.length (flat_map Qt.submenus (map snd d))).
Proof.
  induction d as [|[k' m] d IH]; [discriminate|].
  cbn [dict_mem dict_update]. destruct (String.eqb k' k); cbn [orb].
  - intros _. cbn [map snd flat_map append_sub Qt.submenus].
    rewrite !length_app. cbn [List.length]. lia.
  - intros H. cbn [map snd flat_map]. rewrite !length_app, (IH H). lia.
Qed.

Lemma retained_key (fmt : Gst.Structure) :
  key_of fmt = None -> retained fmt = None.
Proof.
  intros H. destruct (retained fmt) as [e|] eqn:Hr; [|reflexivity].
  destruct (retained_read_entry _ _ Hr) as (He & _).
  unfold key_of in H. now rewrite He in H.
Qed.

Lemma loop_counts_retained (formats : list Gst.Structure) :
  forall d d',
    loop formats d = Ok d' ->
    List.length (flat_map Qt.submenus (map snd d'))
    = (List.length (flat_map Qt.submenus (map snd d))
       + List.length (filter is_retained formats))%nat.
Proof.
  induction formats as [|fmt formats IH]; intros d d'.
  - cbn [loop filter List.length]. intros [= <-]. lia.
  - cbn [loop filter].
    destruct (loop_body d fmt) as [d1|x] eqn:E; cbn [bind]; [|discriminate].
    intros H. rewrite (IH _ _ H).
    pose proof (loop_body_result d d1 fmt E) as R. unfold is_retained at 2.
    destruct (read_entry fmt) as [[e|]|x] eqn:He.
    + destruct R as [[Hr ->] | (acts & Hr & ->)]; rewrite Hr.
      * now rewrite flat_submenus_setdefault.
      * rewrite count_submenus_update by apply dict_mem_setdefault.
        rewrite flat_submenus_setdefault. cbn [List.length]. lia.
    + subst d1. rewrite retained_key; [reflexivity|].
      unfold key_of. now rewrite He.
    + subst d1. rewrite retained_key; [reflexivity|].
      unfold key_of. now rewrite He.
Qed.

(** X26.  The finished menu holds one resolution submenu for every
    retained entry of the capability list - no more and no fewer: an
    entry that occurs twice is counted twice. *)
Theorem one_entry_per_retained_structure
  (formats : list Gst.Structure) (m : Qt.QMenu) :
  create_format_menu formats = Ok m ->
  List.length (entries m) = List.length (filter is_retained formats).
Proof.
  unfold create_format_menu.
  destruct (loop formats []) as [d|x] eqn:E; cbn [bind]; [|discriminate].
  intros [= <-]. unfold entries. cbn [Qt.menus].
  now rewrite (loop_counts_retained _ _ _ E).
Qed.

Lemma one_entry_per_retained_structure_witness :
  exists m,
    create_format_menu [caps_bgrx; caps_bgrx; caps_range; caps_jpeg] = Ok m
    /\ List.length (entries m) = 3%nat.
Proof.
  eexists. split; [vm_compute; reflexivity|].
  exact (one_entry_per_retained_structure
           [caps_bgrx; caps_bgrx; caps_range; caps_jpeg] _ eq_refl).
Defined.

(** X27.  The top-level menu of a format is created before the checks on
    the dimensions: an entry with a readable format that is not
    retained - a dimension missing or a range, say - still leaves its
    top-level menu behind.  For a capability list holding that entry
    alone the result is the [Formats] menu with one empty top-level
    menu. *)
Theorem unretained_entry_leaves_empty_menu (fmt : Gst.Structure) (k : string) :
  key_of fmt = Some k ->
  retained fmt = None ->
  create_format_menu [fmt]
  = Ok {| Qt.title := "Formats";
          Qt.menus := [{| Qt.fmt_title := k; Qt.submenus := [] |}] |}.
Proof.
  intros Hk Hr. unfold create_format_menu. cbn [loop].
  destruct (loop_body [] fmt) as [d|x] eqn:E.
  - pose proof (loop_body_result [] d fmt E) as R. unfold key_of in Hk.
    destruct (read_entry fmt) as [[e|]|y]; try discriminate Hk.
    injection Hk as <-.
    destruct R as [[_ ->] | (acts & Hr' & _)]; [reflexivity | congruence].
  - exfalso. pose proof (loop_body_cases [] fmt) as Hit. rewrite E in Hit.
    inversion Hit. congruence.
Qed.

Lemma unretained_entry_leaves_empty_menu_witness :
  create_format_menu [caps_range]
  = Ok {| Qt.title := "Formats";
          Qt.menus := [{| Qt.fmt_title := "GRAY8"; Qt.submenus := [] |}] |}.
Proof.
  exact (unretained_entry_leaves_empty_menu caps_range "GRAY8" eq_refl eq_refl).
Defined.

(** A retained entry whose frame rates are not a list. *)
Lemma loop_body_no_rates (d : format_dict) (fmt : Gst.Structure) (e : entry) :
  retained fmt = Some e ->
  match Gst.framerate fmt with
  | Gst.Absent | Gst.Frac _ _ | Gst.FracRange _ _ _ _ => True
  | _ => False
  end ->
  loop_body d fmt
  = Ok (dict_update (format_string e)
          (append_sub {| Qt.res_title := res_menu_string e; Qt.actions := [] |})
          (dict_setdefault (format_string e) d)).
Proof.
  intros Hr Hfr.
  destruct (retained_read_entry _ _ Hr) as (H1 & H2 & H3 & H4).
  unfold loop_body, try_block. rewrite H1, H2, H3, H4.
  rewrite (dict_update_ext _ _ _ _ (addMenu_append_sub (res_menu_string e))).
  unfold get_framerates, Gst.get_value.
  change (Gst.lookup fmt "framerate") with (Gst.framerate fmt).
  destruct (Gst.framerate fmt); try contradiction; reflexivity.
Qed.

(** X28.  The resolution submenu is added before the frame rates are
    looked at: a retained entry whose frame rate is absent, a single
    fraction or a fraction range gets its resolution submenu all the
    same, with no action in it. *)
Theorem entry_without_rate_list_gets_empty_submenu
  (pre post : list Gst.Structure) (fmt : Gst.Structure) (e : entry) :
  forallb scans pre = true ->
  forallb scans post = true ->
  retained fmt = Some e ->
  match Gst.framerate fmt with
  | Gst.Absent | Gst.Frac _ _ | Gst.FracRange _ _ _ _ => True
  | _ => False
  end ->
  exists m top,
    create_format_menu (pre ++ fmt :: post) = Ok m
    /\ In top (Qt.menus m)
    /\ Qt.fmt_title top = format_string e
    /\ In {| Qt.res_title := str (width e) ++ "x" ++ str (height e);
             Qt.actions := [] |} (Qt.submenus top).
Proof.
  intros Hpre Hpost Hr Hfr.
  set (sub := {| Qt.res_title := res_menu_string e; Qt.actions := [] |}).
  destruct (loop_scans pre Hpre []) as [d1 H1].
  pose proof (loop_body_no_rates d1 fmt e Hr Hfr) as H2. fold sub in H2.
  set (d2 := dict_update (format_string e) (append_sub sub)
               (dict_setdefault (format_string e) d1)) in H2.
  destruct (loop_scans post Hpost d2) as [d3 H3].
  assert (Ht2 : titled d2).
  { unfold d2. apply titled_update, titled_setdefault.
    apply (proj1 (loop_keeps _ _ _ H1)). intros k m []. }
  assert (Ho2 : offers d2 (format_string e) sub).
  { destruct (dict_update_present (format_string e) (append_sub sub) _
                (dict_mem_setdefault (format_string e) d1)) as (m0 & _ & Hin).
    exists (append_sub sub m0). split; [exact Hin|].
    cbn [append_sub Qt.submenus]. apply in_or_app. right. now left. }
  destruct (loop_keeps _ _ _ H3) as [Ht3 Ho3].
  destruct (Ho3 _ _ Ho2) as (top & Hin & Hsub).
  exists {| Qt.title := "Formats"; Qt.menus := map snd d3 |}, top.
  split.
  { unfold create_format_menu. rewrite loop_app, H1. cbn [bind loop].
    rewrite H2. cbn [bind]. now rewrite H3. }
  split; [apply (in_map snd _ _ Hin)|].
  split; [apply (Ht3 Ht2 _ _ Hin) | exact Hsub].
Qed.

Lemma entry_without_rate_list_gets_empty_submenu_witness :
  exists m top,
    create_format_menu [caps_bgrx; caps_single_rate; caps_jpeg] = Ok m
    /\ In top (Qt.menus m)
    /\ Qt.fmt_title top = "GRAY8"
    /\ In {| Qt.res_title := "640x480"; Qt.actions := [] |}
         (Qt.submenus top).
Proof.
  refine (entry_without_rate_list_gets_empty_submenu
            [caps_bgrx] [caps_jpeg] caps_single_rate
            {| format_name := "video/x-raw"; format_string := "GRAY8";
               width := PyInt 640; height := PyInt 480 |} _ _ _ I);
    vm_compute; reflexivity.
Defined.

End WholeMenu.

(** ** Resolution submenus of entries with a list of frame rates *)

Section ResolutionSubmenus.

Import Py FormatMenu Text Samples MoreSamples.






End ResolutionSubmenus.
